(** * AutoBeluga: the match-report extraction engine

  A shallow embedding of [all_matchup_stats.py] (the function
  [scrape_and_insert_match_data] and its helpers) and of the URL predicate
  of [schedule_url.py], with the properties the specification states about
  them.

  Conventions.
  - A Python [str] is a [string]; non-ASCII code points are their UTF-8
    bytes, none of which is an ASCII letter, digit, slash or parenthesis.
  - A Python [int] is a [Z]; a Python [float] is an exact rational [Qc].
    Binary rounding of additions, [nan] and [inf] are outside the model:
    what is stated of the sums of floats, and of a run past line 546,
    where [int(round(...))] raises on [nan] and [inf], is stated of the
    pages whose "sca" cells are plain numerals ([Notions.plain_sca]), on
    which the sums are exact and finite.
  - [str.strip] is modelled for every white space of [str.isspace];
    [str.lower] and the digit class of the regular expressions are
    modelled on ASCII text, and what is stated through them is stated of
    such text.
  - A [dict] is a [gmap]; a [set] is a [gset]; [print] appends a [log_line]
    to the run's log.
  - The parsed page is the record [document]: one field per query the
    function makes on the [BeautifulSoup] tree. *)

From Stdlib Require Import ZArith QArith Qcanon Qround Ascii String Lia Lqa Bool.
From stdpp Require Import gmap strings list fin_maps.

Local Open Scope string_scope.
Local Open Scope Z_scope.

(* ===================================================================== *)
(** * Text: the string built-ins and the regular expressions of the source *)
(* ===================================================================== *)

Module Text.

Definition code (c : ascii) : nat := nat_of_ascii c.

Definition between (lo hi : nat) (c : ascii) : bool :=
  (Nat.leb lo (code c)) && (Nat.leb (code c) hi).

Definition is_digit (c : ascii) : bool := between 48 57 c.
Definition is_upper (c : ascii) : bool := between 65 90 c.
Definition is_lower (c : ascii) : bool := between 97 122 c.

(** The character class [[0-9A-Za-z]]. *)
Definition is_alnum (c : ascii) : bool := is_digit c || is_upper c || is_lower c.

(** [str.isspace] on a character of one byte: tab, line feed, vertical
    tab, form feed, carriage return, the four separators 28..31 and the
    space. *)
Definition is_space (c : ascii) : bool := between 9 13 c || between 28 32 c.

Definition lower_char (c : ascii) : ascii :=
  if is_upper c then ascii_of_nat (code c + 32) else c.

(** [s.lower()] on a string whose cased characters are ASCII letters: the
    tags the classifier lowers (["n/a"], ["In | m"], ["Out | m"] followed
    by the prime mark) are such strings. On a name with other cased
    letters [str.lower] lowers them too; what is stated of [safe_lookup]
    through [lower] is stated of ASCII names. *)
Fixpoint lower (s : string) : string :=
  match s with
  | EmptyString => EmptyString
  | String c s' => String (lower_char c) (lower s')
  end.

Fixpoint starts_with (p s : string) : bool :=
  match p, s with
  | EmptyString, _ => true
  | String a p', String b s' => Ascii.eqb a b && starts_with p' s'
  | String _ _, EmptyString => false
  end.

(** [needle in s]. *)
Fixpoint contains (needle s : string) : bool :=
  starts_with needle s ||
  match s with
  | EmptyString => false
  | String _ s' => contains needle s'
  end.

(** The characters of [str.isspace] that take two bytes in UTF-8: U+0085
    and U+00A0. *)
Definition is_space2 (a b : ascii) : bool :=
  Nat.eqb (code a) 194 && (Nat.eqb (code b) 133 || Nat.eqb (code b) 160).

(** Those that take three bytes: U+1680; U+2000 to U+200A, U+2028, U+2029
    and U+202F; U+205F; U+3000. *)
Definition is_space3 (a b c : ascii) : bool :=
  (Nat.eqb (code a) 225 && Nat.eqb (code b) 154 && Nat.eqb (code c) 128)
  || (Nat.eqb (code a) 226 && Nat.eqb (code b) 128
      && (between 128 138 c || Nat.eqb (code c) 168 || Nat.eqb (code c) 169
          || Nat.eqb (code c) 175))
  || (Nat.eqb (code a) 226 && Nat.eqb (code b) 129 && Nat.eqb (code c) 159)
  || (Nat.eqb (code a) 227 && Nat.eqb (code b) 128 && Nat.eqb (code c) 128).

(** [s.lstrip()]: the white space of [str.isspace] at the head of the
    string, character by character. *)
Fixpoint lstrip (s : string) : string :=
  match s with
  | EmptyString => EmptyString
  | String a s1 =>
      if is_space a then lstrip s1
      else
        match s1 with
        | EmptyString => s
        | String b s2 =>
            if is_space2 a b then lstrip s2
            else
              match s2 with
              | EmptyString => s
              | String c s3 => if is_space3 a b c then lstrip s3 else s
              end
        end
  end.

(** White space alone. *)
Definition blank (s : string) : bool :=
  match lstrip s with
  | EmptyString => true
  | String _ _ => false
  end.

(** [s.rstrip()]: the string without its longest end of white space. An
    end that is white space alone starts at the first byte of a character,
    since no white space starts with a continuation byte. *)
Fixpoint rstrip (s : string) : string :=
  match s with
  | EmptyString => EmptyString
  | String c s' => if blank s then EmptyString else String c (rstrip s')
  end.

(** [s.strip()]. *)
Definition strip (s : string) : string := rstrip (lstrip s).

(** [p] followed by the rest: the rest when [s] starts with [p]. *)
Fixpoint eat (p s : string) : option string :=
  match p, s with
  | EmptyString, _ => Some s
  | String a p', String b s' => if Ascii.eqb a b then eat p' s' else None
  | String _ _, EmptyString => None
  end.

(** The longest prefix of [s] without the character [stop], and what
    follows it. *)
Fixpoint span_until (stop : ascii) (s : string) : string * string :=
  match s with
  | EmptyString => (EmptyString, EmptyString)
  | String c s' =>
      if Ascii.eqb c stop then (EmptyString, s)
      else let '(run, rest) := span_until stop s' in (String c run, rest)
  end.

(** One attempt of the pattern [p([^c]+)c] at the head of [s]: the group.
    The class [[^c]+] is greedy and what follows it is [c] itself, so a
    shorter run never matches where the longest one fails. *)
Definition group_here (p : string) (stop : ascii) (s : string) : option string :=
  match eat p s with
  | None => None
  | Some s1 =>
      match span_until stop s1 with
      | (EmptyString, _) => None
      | (run, String _ _) => Some run
      | (_, EmptyString) => None
      end
  end.

(** [re.search(r'p([^c]+)c', s)], group 1 of the leftmost match. *)
Fixpoint search_group (p : string) (stop : ascii) (s : string) : option string :=
  match group_here p stop s with
  | Some g => Some g
  | None =>
      match s with
      | EmptyString => None
      | String _ s' => search_group p stop s'
      end
  end.

(** [re.search(r'^p([^c]+)c', s)]. *)
Definition match_group (p : string) (stop : ascii) (s : string) : option string :=
  group_here p stop s.

End Text.

(* ===================================================================== *)
(** * The halting pattern of [schedule_url.py] *)
(* ===================================================================== *)

Module Halting.
Import Text.

(** Exactly [n] characters of [[0-9A-Za-z]] at the head of [s]. *)
Fixpoint alnum_run (n : nat) (s : string) : option string :=
  match n with
  | O => Some s
  | S n' =>
      match s with
      | String c s' => if is_alnum c then alnum_run n' s' else None
      | EmptyString => None
      end
  end.

(** One attempt of [/[0-9A-Za-z]{8}/[0-9A-Za-z]{8}/] at the head of [s]. *)
Definition bad_url_here (s : string) : bool :=
  match eat "/" s with
  | None => false
  | Some s1 =>
      match alnum_run 8 s1 with
      | None => false
      | Some s2 =>
          match eat "/" s2 with
          | None => false
          | Some s3 =>
              match alnum_run 8 s3 with
              | None => false
              | Some s4 =>
                  match eat "/" s4 with
                  | None => false
                  | Some _ => true
                  end
              end
          end
      end
  end.

(** [BAD_URL_REGEX.search(s)] as a truth value. *)
Fixpoint BAD_URL_REGEX_search (s : string) : bool :=
  bad_url_here s ||
  match s with
  | EmptyString => false
  | String _ s' => BAD_URL_REGEX_search s'
  end.

(** [is_bad_url]; [None] is Python's [None]. *)
Definition is_bad_url (url_text : option string) : bool :=
  match url_text with
  | None => false
  | Some EmptyString => false
  | Some u => BAD_URL_REGEX_search (strip u)
  end.

End Halting.

(* ===================================================================== *)
(** * Data model *)
(* ===================================================================== *)

Module Data.

(** A numeric value of a statistics dictionary: an [int] or a [float]. *)
Inductive num :=
| NInt (z : Z)
| NFloat (q : Qc).

Definition num_to_Qc (a : num) : Qc :=
  match a with
  | NInt z => Q2Qc (inject_Z z)
  | NFloat q => q
  end.

(** [a + b]: two ints add to an int, a float on either side gives a float. *)
Definition num_add (a b : num) : num :=
  match a, b with
  | NInt x, NInt y => NInt (x + y)
  | _, _ => NFloat (num_to_Qc a + num_to_Qc b)%Qc
  end.

(** [round(q)] on a float: the nearest integer, a tie going to the even
    one. *)
Definition round_half_even (q : Qc) : Z :=
  let f := Qfloor q in
  match ((q - Q2Qc (inject_Z f)) ?= Q2Qc (1 # 2))%Qc with
  | Lt => f
  | Gt => f + 1
  | Eq => if Z.even f then f else f + 1
  end.

(** [int(round(a))]. *)
Definition int_round (a : num) : Z :=
  match a with
  | NInt z => z
  | NFloat q => round_half_even q
  end.

(** The per-player dictionary built by [init_player_dict]: the six fixed
    keys are fields, the statistic columns are the map [stats]. *)
Record pdict := {
  player_id : string;
  player : string;
  position : string;
  minutes : Z;
  starter : string;
  sub_in_out : string;
  stats : gmap string num
}.

(** [pv[dbcol]]; every dictionary made by [init_player_dict] holds every
    column, see [init_player_dict_columns]. *)
Definition stat (pv : pdict) (dbcol : string) : num :=
  default (NInt 0) (stats pv !! dbcol).

Definition set_stat (dbcol : string) (v : num) (pv : pdict) : pdict :=
  {| player_id := player_id pv; player := player pv; position := position pv;
     minutes := minutes pv; starter := starter pv; sub_in_out := sub_in_out pv;
     stats := <[dbcol := v]> (stats pv) |}.

Definition set_position (v : string) (pv : pdict) : pdict :=
  {| player_id := player_id pv; player := player pv; position := v;
     minutes := minutes pv; starter := starter pv; sub_in_out := sub_in_out pv;
     stats := stats pv |}.

Definition set_minutes (v : Z) (pv : pdict) : pdict :=
  {| player_id := player_id pv; player := player pv; position := position pv;
     minutes := v; starter := starter pv; sub_in_out := sub_in_out pv;
     stats := stats pv |}.

Definition set_starter (v : string) (pv : pdict) : pdict :=
  {| player_id := player_id pv; player := player pv; position := position pv;
     minutes := minutes pv; starter := v; sub_in_out := sub_in_out pv;
     stats := stats pv |}.

Definition set_sub_in_out (v : string) (pv : pdict) : pdict :=
  {| player_id := player_id pv; player := player pv; position := position pv;
     minutes := minutes pv; starter := starter pv; sub_in_out := v;
     stats := stats pv |}.

(** ** The parsed page, as the function queries it *)

(** An [<a>] element: [get_text(strip=True)] and its [href]. *)
Record anchor := { a_text : string; a_href : string }.

(** [div.scorebox]: its anchors whose [href] starts with [/en/squads/], and
    the texts of its [div.score] elements. *)
Record scorebox_div := {
  squad_links : list anchor;
  score_divs : list string
}.

(** [div.lineup]: the text of its [th colspan=2], when it has one. *)
Record lineup_div := { formation_th : option string }.

(** A [<tr>] of a statistics table: the player anchor of its
    [th data-stat=player] (absent when the header cell or the anchor is), and
    its [td] cells as (data-stat, text) in document order. *)
Record stat_row := {
  player_link : option anchor;
  stat_cells : list (string * string)
}.

Record stats_table := {
  table_id : string;
  table_tbody : option (list stat_row)
}.

(** The block next to an event icon: the [href] of its first anchor and of
    the anchor inside its [<small>]. *)
Record info_div := {
  player_in_tag : option string;
  player_out_tag : option string
}.

(** An element of the event list: the classes of its icon (absent without
    an icon), its own classes, the texts of its direct child [div]s, and the
    sibling block of the icon. *)
Record event_div := {
  icon_classes : option (list string);
  event_class : list string;
  minute_divs : list string;
  event_info : option info_div
}.

(** A cell of the shot log: its text, its [data-append-csv] attribute and the
    [href] of its first anchor that has one. *)
Record shot_cell := {
  cell_text : string;
  data_append_csv : option string;
  cell_href : option string
}.

Record shot_row := {
  row_class : list string;
  shot_cells : list (string * shot_cell)
}.

Record document := {
  scorebox : option scorebox_div;
  (** the [td]s of the row after the Possession header, each with the text
      of its [<strong>]; absent when any step of the way to that row is *)
  possession_tds : option (list (option string));
  lineup_a : option lineup_div;
  lineup_b : option lineup_div;
  (** the tables whose id matches
      [^stats_.*_(summary|passing|defense|possession|misc|passing_types)$] *)
  stats_tables : list stats_table;
  events_wrap : option (list event_div);
  (** [table#shots_all], its [tbody], the direct [tr] children *)
  shots_all : option (option (list shot_row))
}.

(** What [print] reports; the dump of the derived values after the
    aggregation is not part of the log. *)
Inductive log_line :=
| RequestError
| NoScorebox
| FallbackNotPossibleAway (leftover : gset string)
| FallbackNotPossibleHome (leftover : gset string)
| BothTeamsFailed
| MoreThanTwoTeamIds (found : gset string)
| NoEventsWrap
| InsertedShotEvents (n : nat)
| NoValidShotRows
| NoShotRows
| NoShotTbody
| NoShotsTable
| Inserted (date_str matchup_str : string)
| DbInsertError.

End Data.

(* ===================================================================== *)
(** * Team identity and match metadata *)
(* ===================================================================== *)

Module Resolver.
Import Text Data.

(** The sentinel code of an unresolved team. *)
Definition UNRESOLVED : string := "0000000000".

(** [extract_team_id]. *)
Definition extract_team_id (hval : string) : string :=
  default UNRESOLVED (search_group "/en/squads/" "/"%char hval).

(** [d[k] = v] on an insertion-ordered dictionary. *)
Fixpoint dict_set (k v : string) (d : list (string * string)) : list (string * string) :=
  match d with
  | [] => [(k, v)]
  | (k', v') :: d' =>
      if String.eqb k k' then (k, v) :: d' else (k', v') :: dict_set k v d'
  end.

Fixpoint dict_get (k : string) (d : list (string * string)) : option string :=
  match d with
  | [] => None
  | (k', v') :: d' => if String.eqb k k' then Some v' else dict_get k d'
  end.

(** The loop over the squad anchors of the scorebox. *)
Definition found_team_map (sb : scorebox_div) : list (string * string) :=
  foldl (fun d a_tag => dict_set (a_text a_tag) (extract_team_id (a_href a_tag)) d)
        [] (squad_links sb).

(** [safe_lookup]: the exact name, else the first discovered name that
    contains the schedule name whatever the case, else the sentinel. The
    case is the case of the ASCII letters ([lower]). *)
Definition safe_lookup (found : list (string * string)) (name_ : string) : string :=
  match dict_get name_ found with
  | Some v => v
  | None =>
      match List.find (fun kv => contains (lower name_) (lower (fst kv))) found with
      | Some kv => snd kv
      | None => UNRESOLVED
      end
  end.

(** The table of forced codes. *)
Definition forced_id (team id : string) : string :=
  if String.eqb team "Wolves" then "8cec06e1"
  else if String.eqb team "Manchester Utd" then "19538871"
  else if String.eqb team "Newcastle Utd" then "b2b47a98"
  else id.

(** [set(found_team_map.values())]. *)
Definition team_ids_found (found : list (string * string)) : gset string :=
  list_to_set (snd <$> found).

(** The complementary fallback: [leftover.pop()] of a one-element set is
    its element. *)
Definition fallback (ids : gset string) (home_team_id away_team_id : string)
  : string * string * list log_line :=
  if bool_decide (home_team_id <> UNRESOLVED) && bool_decide (away_team_id = UNRESOLVED) then
    let leftover := ids ∖ {[home_team_id]} in
    match elements leftover with
    | [x] => (home_team_id, x, [])
    | _ => (home_team_id, away_team_id, [FallbackNotPossibleAway leftover])
    end
  else if bool_decide (away_team_id <> UNRESOLVED) && bool_decide (home_team_id = UNRESOLVED) then
    let leftover := ids ∖ {[away_team_id]} in
    match elements leftover with
    | [x] => (x, away_team_id, [])
    | _ => (home_team_id, away_team_id, [FallbackNotPossibleHome leftover])
    end
  else (home_team_id, away_team_id, []).

(** The two warnings that close the resolution. *)
Definition resolution_warnings (ids : gset string) (home_team_id away_team_id : string)
  : list log_line :=
  ((if bool_decide (home_team_id = UNRESOLVED) && bool_decide (away_team_id = UNRESOLVED)
    then [BothTeamsFailed] else [])
   ++ (if Nat.ltb 2 (size ids) then [MoreThanTwoTeamIds ids] else []))%list.

(** Lines 224 to 278: the resolved pair of codes and the warnings. *)
Definition resolve_team_ids (sb : scorebox_div) (home_team away_team : string)
  : string * string * list log_line :=
  let found := found_team_map sb in
  let home0 := forced_id home_team (safe_lookup found home_team) in
  let away0 := forced_id away_team (safe_lookup found away_team) in
  let ids := team_ids_found found in
  let '(home_team_id, away_team_id, w) := fallback ids home0 away0 in
  (home_team_id, away_team_id,
   (w ++ resolution_warnings ids home_team_id away_team_id)%list).

End Resolver.

Module Metadata.
Import Text Data.

(** Lines 280 to 287. *)
Definition final_score (sb : scorebox_div) : string :=
  let '(home_score, away_score) :=
    match score_divs sb with
    | [h; a] => (h, a)
    | _ => ("0", "0")
    end in
  home_score +:+ " : " +:+ away_score.

(** Lines 289 to 305: [(home_pos, away_pos)]. *)
Definition possession (doc : document) : string * string :=
  match possession_tds doc with
  | Some [s_home; s_away] => (default "0%" s_home, default "0%" s_away)
  | _ => ("0%", "0%")
  end.

(** [re.search(r'\(([^)]+)\)', text)], the group or ["Unknown"]. *)
Definition formation_of (text : string) : string :=
  default "Unknown" (search_group "(" ")"%char text).

(** Lines 307 to 322: [(home_formation, away_formation)]. *)
Definition formations (doc : document) : string * string :=
  match lineup_a doc, lineup_b doc with
  | Some home_lineup_div, Some away_lineup_div =>
      match formation_th home_lineup_div, formation_th away_lineup_div with
      | Some home_text, Some away_text => (formation_of home_text, formation_of away_text)
      | _, _ => ("Unknown", "Unknown")
      end
  | _, _ => ("Unknown", "Unknown")
  end.

End Metadata.

(* ===================================================================== *)
(** * Player records: statistics tables, substitutions, starter flag, sums *)
(* ===================================================================== *)

Module Players.
Import Text Data Resolver.

(** [player_stat_map], in source order: the page's statistic name and the
    column it is stored in. *)
Definition player_stat_map : list (string * string) :=
  [ ("shots", "shots");
    ("shots_on_target", "shots_on_target");
    ("fouls", "fouls");
    ("corner_kicks", "corner_kicks");
    ("crosses", "crosses");
    ("touches", "touches");
    ("tackles", "tackles");
    ("interceptions", "interceptions");
    ("passes", "passes");
    ("assisted_shots", "shots_assisted");
    ("take_ons", "take_ons");
    ("progressive_carries", "progressive_carries");
    ("clearances", "clearances");
    ("tackles_def_3rd", "tackles_def_3rd");
    ("tackles_mid_3rd", "tackles_mid_3rd");
    ("tackles_att_3rd", "tackles_att_3rd");
    ("blocked_shots", "blocked_shots");
    ("blocked_passes", "blocked_passes");
    ("challenges", "challenges");
    ("carries_into_final_third", "carries_into_final_third");
    ("progressive_passes_received", "progressive_passes_received");
    ("passes_into_final_third", "passes_into_final_third");
    ("passes_into_penalty_area", "passes_into_penalty_area");
    ("touches_def_3rd", "touches_def_3rd");
    ("touches_mid_3rd", "touches_mid_3rd");
    ("touches_att_3rd", "touches_att_3rd");
    ("touches_att_pen_area", "touches_att_pen_area");
    ("sca", "sca") ].

(** [player_stat_map.values()]. *)
Definition db_columns : list string := snd <$> player_stat_map.

Definition init_player_dict (pid_ pname_ : string) : pdict :=
  {| player_id := pid_; player := pname_; position := "N/A"; minutes := 0;
     starter := "no"; sub_in_out := "n/a";
     stats := foldl (fun d_ dbcol => <[dbcol := NInt 0]> d_) ∅ db_columns |}.

(** [row_.find('td', {'data-stat': name})]: the text of the first such
    cell. *)
Fixpoint find_td (name : string) (cells : list (string * string)) : option string :=
  match cells with
  | [] => None
  | (k, v) :: cells' => if String.eqb k name then Some v else find_td name cells'
  end.

(** [pmap.values()]. The order of a [gmap] is not the insertion order of
    the dictionary; what is computed from the values here (sums, one row
    per player) does not depend on it. *)
Definition values (pmap : gmap string pdict) : list pdict :=
  snd <$> map_to_list pmap.

Section Tables.

(** [int(text)] and [float(text)] of the Python runtime; [None] when the
    call raises. *)
Variable py_int : string -> option Z.
Variable py_float : string -> option Qc.

(** Lines 425 to 438: the loop over [player_stat_map.items()]. *)
Definition populate_stats (row_ : stat_row) (pv : pdict) : pdict :=
  foldl (fun pv '(fbref_stat, dbcol) =>
           match find_td fbref_stat (stat_cells row_) with
           | Some val_ =>
               if String.eqb fbref_stat "sca"
               then set_stat dbcol (NFloat (default 0%Qc (py_float val_))) pv
               else set_stat dbcol (NInt (default 0 (py_int val_))) pv
           | None => pv
           end)
        pv player_stat_map.

(** Lines 440 to 443. *)
Definition populate_position (row_ : stat_row) (pv : pdict) : pdict :=
  match find_td "position" (stat_cells row_) with
  | Some EmptyString => set_position "N/A" pv
  | Some text => set_position text pv
  | None => pv
  end.

(** Lines 445 to 451. *)
Definition populate_minutes (row_ : stat_row) (pv : pdict) : pdict :=
  match find_td "minutes" (stat_cells row_) with
  | Some text => set_minutes (default 0 (py_int text)) pv
  | None => pv
  end.

(** The record of [pidv] is created when missing, then updated in place. *)
Definition update_player (row_ : stat_row) (pidv pname_ : string)
    (pmap : gmap string pdict) : gmap string pdict :=
  let pmap1 :=
    match pmap !! pidv with
    | Some _ => pmap
    | None => <[pidv := init_player_dict pidv pname_]> pmap
    end in
  alter (fun pv => populate_minutes row_ (populate_position row_ (populate_stats row_ pv)))
        pidv pmap1.

(** Lines 402 to 451: one row; the state is [(home_players, away_players)]. *)
Definition process_row (is_home : bool) (st : gmap string pdict * gmap string pdict)
    (row_ : stat_row) : gmap string pdict * gmap string pdict :=
  match player_link row_ with
  | None => st
  | Some a_ =>
      let pidv := default UNRESOLVED (search_group "/en/players/" "/"%char (a_href a_)) in
      let pname_ := a_text a_ in
      if is_home then (update_player row_ pidv pname_ (fst st), snd st)
      else (fst st, update_player row_ pidv pname_ (snd st))
  end.

(** [re.search(r'^stats_([^_]+)_', tid_)]. *)
Definition table_code (tbl : stats_table) : option string :=
  match_group "stats_" "_"%char (table_id tbl).

(** Lines 383 to 451: one table. *)
Definition process_table (home_team_id away_team_id : string)
    (st : gmap string pdict * gmap string pdict) (tbl : stats_table)
  : gmap string pdict * gmap string pdict :=
  match table_code tbl with
  | None => st
  | Some code_ =>
      if String.eqb code_ home_team_id then
        match table_tbody tbl with
        | None => st
        | Some rows_ => foldl (process_row true) st rows_
        end
      else if String.eqb code_ away_team_id then
        match table_tbody tbl with
        | None => st
        | Some rows_ => foldl (process_row false) st rows_
        end
      else st
  end.

(** The loop over [stats_tables], from the two empty dictionaries. *)
Definition parse_stats_tables (home_team_id away_team_id : string)
    (tables : list stats_table) : gmap string pdict * gmap string pdict :=
  foldl (process_table home_team_id away_team_id) (∅, ∅) tables.

End Tables.

(** ** Substitutions *)

(** The prime mark U+2019, three bytes in UTF-8. *)
Definition prime_mark : string :=
  String "226"%char (String "128"%char (String "153"%char EmptyString)).

Fixpoint span_digits (s : string) : string * string :=
  match s with
  | EmptyString => (EmptyString, EmptyString)
  | String c s' =>
      if is_digit c
      then let '(run, rest) := span_digits s' in (String c run, rest)
      else (EmptyString, s)
  end.

Definition minute_here (s : string) : option string :=
  match span_digits s with
  | (EmptyString, _) => None
  | (run, rest) => if starts_with prime_mark rest then Some run else None
  end.

(** [re.search] of one or more digits followed by the prime mark, group 1;
    the digits are the ASCII digits, which are the decimal digits of a
    text of ASCII characters and prime marks. *)
Fixpoint search_minute (s : string) : option string :=
  match minute_here s with
  | Some g => Some g
  | None =>
      match s with
      | EmptyString => None
      | String _ s' => search_minute s'
      end
  end.

Inductive side := Home | Away.

Record subs_state := {
  home_players : gmap string pdict;
  away_players : gmap string pdict;
  home_subs_val : Z;
  away_subs_val : Z
}.

(** [if pid in pmap: pmap[pid]['sub_in_out'] = tag]; [None] is in no
    dictionary. *)
Definition tag_player (pid : option string) (tag : string)
    (pmap : gmap string pdict) : gmap string pdict :=
  match pid with
  | Some id => alter (set_sub_in_out tag) id pmap
  | None => pmap
  end.

Definition substitution_team (ev : event_div) : option side :=
  if bool_decide ("a" ∈ event_class ev) then Some Home
  else if bool_decide ("b" ∈ event_class ev) then Some Away
  else None.

(** The minute of the event as it is printed in the tag: the digits before
    the prime mark in the first child block, else [0]. *)
Definition event_minute (ev : event_div) : string :=
  match minute_divs ev with
  | min_text :: _ => default "0" (search_minute min_text)
  | [] => "0"
  end.

Definition player_code (href : string) : option string :=
  search_group "/en/players/" "/"%char href.

(** Lines 459 to 512: one element of the event list. *)
Definition process_event (st : subs_state) (ev : event_div) : subs_state :=
  match icon_classes ev with
  | None => st
  | Some classes =>
      if bool_decide ("substitute_in" ∈ classes) then
        let minute := event_minute ev in
        match event_info ev with
        | None => st
        | Some info_div =>
            match player_in_tag info_div, player_out_tag info_div with
            | Some href_in, Some href_out =>
                let player_in_id := player_code href_in in
                let player_out_id := player_code href_out in
                let tag_in := "In | " +:+ minute +:+ prime_mark in
                let tag_out := "Out | " +:+ minute +:+ prime_mark in
                match substitution_team ev with
                | Some Home =>
                    {| home_players :=
                         tag_player player_out_id tag_out
                           (tag_player player_in_id tag_in (home_players st));
                       away_players := away_players st;
                       home_subs_val := home_subs_val st + 1;
                       away_subs_val := away_subs_val st |}
                | Some Away =>
                    {| home_players := home_players st;
                       away_players :=
                         tag_player player_out_id tag_out
                           (tag_player player_in_id tag_in (away_players st));
                       home_subs_val := home_subs_val st;
                       away_subs_val := away_subs_val st + 1 |}
                | None => st
                end
            | _, _ => st
            end
        end
      else st
  end.

(** Lines 454 to 514. *)
Definition process_substitutions (doc : document)
    (players : gmap string pdict * gmap string pdict) : subs_state * list log_line :=
  let st0 := {| home_players := fst players; away_players := snd players;
                home_subs_val := 0; away_subs_val := 0 |} in
  match events_wrap doc with
  | Some event_divs => (foldl process_event st0 event_divs, [])
  | None => (st0, [NoEventsWrap])
  end.

(** ** Starter flag *)

(** [assign_starter_flag], on the two values it reads. *)
Definition starter_of (mins : Z) (sub_in_out_ : string) : string :=
  let sub_info := lower sub_in_out_ in
  if (mins <? 90) && contains "out" sub_info then "yes"
  else if (mins <? 90) && contains "in" sub_info && negb (contains "out" sub_info) then "no"
  else if (90 <=? mins) && String.eqb sub_info "n/a" then "yes"
  else "no".

Definition assign_starter_flag (pv : pdict) : string :=
  starter_of (minutes pv) (sub_in_out pv).

(** Lines 532 to 535. *)
Definition assign_starters (pmap : gmap string pdict) : gmap string pdict :=
  (fun pv => set_starter (assign_starter_flag pv) pv) <$> pmap.

(** ** Team sums *)

(** Lines 361 to 364. *)
Definition init_team_sums : gmap string num :=
  foldl (fun ts db_col_ =>
           <["away_" +:+ db_col_ := NInt 0]> (<["home_" +:+ db_col_ := NInt 0]> ts))
        ∅ db_columns.

(** [team_sums[k]]; the keys read are those of [init_team_sums], see
    [init_team_sums_columns]. *)
Definition team_sum (ts : gmap string num) (k : string) : num :=
  default (NInt 0) (ts !! k).

(** The body of [sum_side]: [team_sums[f"{prefix}_{dbcol}"] += pv[dbcol]]. *)
Definition add_player (prefix : string) (ts : gmap string num) (pv : pdict)
  : gmap string num :=
  foldl (fun ts dbcol =>
           let k := prefix +:+ "_" +:+ dbcol in
           <[k := num_add (team_sum ts k) (stat pv dbcol)]> ts)
        ts db_columns.

Definition sum_side (pmap : gmap string pdict) (prefix : string)
    (ts : gmap string num) : gmap string num :=
  foldl (add_player prefix) ts (values pmap).

(** [sum(x["sca"] for x in pmap.values())], from the integer [0]: the
    exact sum, which is the floating-point sum, in the order of the
    dictionary or in any other, when the values are whole numbers and
    halves of bounded size. *)
Definition sca_sum (pmap : gmap string pdict) : num :=
  foldl (fun acc x => num_add acc (stat x "sca")) (NInt 0) (values pmap).

(** [int(round(sum(...)))], for a sum that is a number: on [nan] and
    [inf] the source raises here. *)
Definition sca_val (pmap : gmap string pdict) : Z := int_round (sca_sum pmap).

End Players.

(* ===================================================================== *)
(** * Storage: the three tables and the connection *)
(* ===================================================================== *)

Module Storage.
Import Data.

(** A parameter of a statement, a value of a stored column. *)
Inductive sql_value :=
| SqlNull
| SqlStr (s : string)
| SqlInt (z : Z)
| SqlReal (q : Qc).

Definition sql_value_to_sum (v : sql_value) : unit + (string + (Z + Qc)) :=
  match v with
  | SqlNull => inl tt
  | SqlStr s => inr (inl s)
  | SqlInt z => inr (inr (inl z))
  | SqlReal q => inr (inr (inr q))
  end.

Definition sql_value_of_sum (x : unit + (string + (Z + Qc))) : sql_value :=
  match x with
  | inl _ => SqlNull
  | inr (inl s) => SqlStr s
  | inr (inr (inl z)) => SqlInt z
  | inr (inr (inr q)) => SqlReal q
  end.

#[global] Instance sql_value_eq_dec : EqDecision sql_value.
Proof. solve_decision. Defined.

#[global] Instance sql_value_countable : Countable sql_value.
Proof.
  apply (inj_countable' sql_value_to_sum sql_value_of_sum).
  intros []; reflexivity.
Defined.

Definition sql_of_num (a : num) : sql_value :=
  match a with
  | NInt z => SqlInt z
  | NFloat q => SqlReal q
  end.

Definition sql_of_opt (o : option string) : sql_value :=
  match o with
  | Some s => SqlStr s
  | None => SqlNull
  end.

Inductive table_name := AllMatchupsTeams | AllMatchupsPlayers | MatchEvents.

(** An [INSERT] statement: the table, the columns of its [VALUES] tuple,
    and the columns of its [ON DUPLICATE KEY UPDATE col = VALUES(col)]
    clause (empty: the statement has no such clause). *)
Record insert_sql := {
  into : table_name;
  columns : list string;
  update_clause : list string
}.

(** [generate_insert_sql]: every column is in the update clause. *)
Definition generate_insert_sql (name : table_name) (cols : list string) : insert_sql :=
  {| into := name; columns := cols; update_clause := cols |}.

(** Modelled from the spec: the declarations of the tables are not in the
    repository; section 6 gives the natural key of the team table as
    (date, matchup, competition) and of the player table as (date, matchup,
    player identity, side). *)
Definition natural_key (name : table_name) : list string :=
  match name with
  | AllMatchupsTeams => ["date"; "matchup"; "comp"]
  | AllMatchupsPlayers => ["date"; "matchup"; "player_id"; "home_away"]
  | MatchEvents => []
  end.

(** The store. A keyed table holds one row per key; the shot-event table
    numbers its rows itself, the row ordinal being the position in the
    list. *)
Record DB := {
  all_matchups_teams : gmap (list sql_value) (gmap string sql_value);
  all_matchups_players : gmap (list sql_value) (gmap string sql_value);
  match_events : list (gmap string sql_value)
}.

Definition empty_db : DB :=
  {| all_matchups_teams := ∅; all_matchups_players := ∅; match_events := [] |}.

Definition key_of (key_cols : list string) (r : gmap string sql_value) : list sql_value :=
  (fun c => default SqlNull (r !! c)) <$> key_cols.

(** [col = VALUES(col)] for each column of the clause. *)
Definition overwrite (cols : list string) (new old : gmap string sql_value)
  : gmap string sql_value :=
  foldl (fun r c => match new !! c with Some v => <[c := v]> r | None => r end) old cols.

(** One row into a keyed table: inserted when its key is free; on a
    duplicate key the clause is applied, and a statement without clause
    fails. *)
Definition write_keyed (sql : insert_sql) (r : gmap string sql_value)
    (t : gmap (list sql_value) (gmap string sql_value))
  : option (gmap (list sql_value) (gmap string sql_value)) :=
  let k := key_of (natural_key (into sql)) r in
  match t !! k with
  | None => Some (<[k := r]> t)
  | Some old =>
      match update_clause sql with
      | [] => None
      | cols => Some (<[k := overwrite cols r old]> t)
      end
  end.

(** The row a statement writes; [None] when the tuple does not fit the
    placeholders. *)
Definition row_of (sql : insert_sql) (params : list sql_value)
  : option (gmap string sql_value) :=
  if Nat.eqb (length (columns sql)) (length params)
  then Some (list_to_map (zip (columns sql) params))
  else None.

(** The effect of one statement with one tuple; [None] is an error of the
    store. *)
Definition run_insert (sql : insert_sql) (params : list sql_value) (db : DB) : option DB :=
  match row_of sql params with
  | None => None
  | Some r =>
      match into sql with
      | AllMatchupsTeams =>
          match write_keyed sql r (all_matchups_teams db) with
          | Some t => Some {| all_matchups_teams := t;
                              all_matchups_players := all_matchups_players db;
                              match_events := match_events db |}
          | None => None
          end
      | AllMatchupsPlayers =>
          match write_keyed sql r (all_matchups_players db) with
          | Some t => Some {| all_matchups_teams := all_matchups_teams db;
                              all_matchups_players := t;
                              match_events := match_events db |}
          | None => None
          end
      | MatchEvents =>
          Some {| all_matchups_teams := all_matchups_teams db;
                  all_matchups_players := all_matchups_players db;
                  match_events := (match_events db ++ [r])%list |}
      end
  end.

Fixpoint run_insert_many (sql : insert_sql) (batch : list (list sql_value)) (db : DB)
  : option DB :=
  match batch with
  | [] => Some db
  | params :: batch' =>
      match run_insert sql params db with
      | Some db' => run_insert_many sql batch' db'
      | None => None
      end
  end.

(** ** The connection

    [server] is what is committed, [session] what this connection sees
    (the committed rows and its own uncommitted writes). Autocommit is off,
    the connector's default. [calls] numbers the calls made on the
    connection; the oracle [fault] tells which of them raise
    [mysql.connector.Error]. *)
Record connection := {
  server : DB;
  session : DB;
  calls : nat;
  is_connected : bool
}.

Inductive result (A : Type) :=
| Ok (a : A)
| Error.
Arguments Ok {A} a.
Arguments Error {A}.

(** A step of the [try] block: it reads and writes the connection and the
    log, and returns or raises. *)
Definition M (A : Type) : Type :=
  connection * list log_line -> result A * (connection * list log_line).

Definition ret {A} (a : A) : M A := fun s => (Ok a, s).

Definition bind {A B} (m : M A) (f : A -> M B) : M B :=
  fun s =>
    match m s with
    | (Ok a, s') => f a s'
    | (Error, s') => (Error, s')
    end.

Definition print (l : log_line) : M unit :=
  fun s => (Ok tt, (fst s, (snd s ++ [l])%list)).

Definition called (c : connection) : connection :=
  {| server := server c; session := session c; calls := S (calls c);
     is_connected := is_connected c |}.

Definition with_session (db : DB) (c : connection) : connection :=
  {| server := server c; session := db; calls := calls c;
     is_connected := is_connected c |}.

Section Faults.

Variable fault : nat -> bool.

(** [get_db_connection()], call number 0. *)
Definition get_db_connection (db : DB) : result connection :=
  if fault 0 then Error
  else Ok {| server := db; session := db; calls := 1; is_connected := true |}.

(** [cursor.execute(sql, params)]. *)
Definition cursor_execute (sql : insert_sql) (params : list sql_value) : M unit :=
  fun s =>
    let c := fst s in
    if fault (calls c) then (Error, (called c, snd s))
    else match run_insert sql params (session c) with
         | Some db' => (Ok tt, (with_session db' (called c), snd s))
         | None => (Error, (called c, snd s))
         end.

(** [cursor.executemany(sql, batch)]. *)
Definition cursor_executemany (sql : insert_sql) (batch : list (list sql_value)) : M unit :=
  fun s =>
    let c := fst s in
    if fault (calls c) then (Error, (called c, snd s))
    else match run_insert_many sql batch (session c) with
         | Some db' => (Ok tt, (with_session db' (called c), snd s))
         | None => (Error, (called c, snd s))
         end.

(** [conn.commit()]. *)
Definition commit : M unit :=
  fun s =>
    let c := fst s in
    if fault (calls c) then (Error, (called c, snd s))
    else (Ok tt, ({| server := session c; session := session c;
                     calls := S (calls c); is_connected := is_connected c |}, snd s)).

End Faults.

(** [conn.rollback()]. *)
Definition rollback (c : connection) : connection :=
  {| server := server c; session := server c; calls := calls c;
     is_connected := is_connected c |}.

(** [conn.close()]: what was not committed is gone. *)
Definition close (c : connection) : connection :=
  {| server := server c; session := server c; calls := calls c;
     is_connected := false |}.

End Storage.

(* ===================================================================== *)
(** * Shot events *)
(* ===================================================================== *)

Module Shots.
Import Text Data Storage.

(** [s.split(c)]. *)
Fixpoint split_on (c : ascii) (s : string) : list string :=
  match s with
  | EmptyString => [EmptyString]
  | String a s' =>
      if Ascii.eqb a c then EmptyString :: split_on c s'
      else match split_on c s' with
           | [] => [String a EmptyString]
           | p :: ps => String a p :: ps
           end
  end.

(** The first [td] or [th] of the row with this [data-stat]. *)
Fixpoint find_cell (data_stat : string) (cells : list (string * shot_cell))
  : option shot_cell :=
  match cells with
  | [] => None
  | (k, v) :: cells' => if String.eqb k data_stat then Some v else find_cell data_stat cells'
  end.

Definition get_value_from_td_or_th (row_ : shot_row) (data_stat : string) : option string :=
  cell_text <$> find_cell data_stat (shot_cells row_).

Definition get_player_id (row_ : shot_row) (data_stat : string) : option string :=
  match find_cell data_stat (shot_cells row_) with
  | None => None
  | Some tag_ =>
      match data_append_csv tag_ with
      | Some (String _ _ as append_csv_) => Some (strip append_csv_)
      | _ =>
          match cell_href tag_ with
          | Some href_val => split_on "/"%char href_val !! 3%nat
          | None => None
          end
      end
  end.

(** [not v] on a value that is [None] or a string. *)
Definition falsy (v : option string) : bool :=
  match v with
  | Some (String _ _) => false
  | _ => true
  end.

(** Lines 755 to 796: the tuple of one row of the shot log, when the row
    is kept. *)
Definition shot_params (match_url : string) (row__ : shot_row) : option (list sql_value) :=
  if bool_decide ("spacer" ∈ row_class row__) || bool_decide ("partial_table" ∈ row_class row__)
  then None
  else
    let minute_val := get_value_from_td_or_th row__ "minute" in
    let player_val := get_value_from_td_or_th row__ "player" in
    if falsy minute_val || falsy player_val then None
    else Some [ SqlStr match_url;
                sql_of_opt minute_val;
                sql_of_opt (get_player_id row__ "player");
                sql_of_opt player_val;
                sql_of_opt (get_value_from_td_or_th row__ "team");
                sql_of_opt (get_value_from_td_or_th row__ "outcome");
                sql_of_opt (get_value_from_td_or_th row__ "distance");
                sql_of_opt (get_value_from_td_or_th row__ "body_part");
                sql_of_opt (get_player_id row__ "sca_1_player");
                sql_of_opt (get_value_from_td_or_th row__ "sca_1_player");
                sql_of_opt (get_value_from_td_or_th row__ "sca_1_type");
                sql_of_opt (get_player_id row__ "sca_2_player");
                sql_of_opt (get_value_from_td_or_th row__ "sca_2_player");
                sql_of_opt (get_value_from_td_or_th row__ "sca_2_type") ].

(** What the shot log of the page gives. *)
Inductive shot_log :=
| ShotsNoTable
| ShotsNoTbody
| ShotsNoRows
| ShotsBatch (data_batch : list (list sql_value)).

Definition extract_shots (match_url : string) (doc : document) : shot_log :=
  match shots_all doc with
  | None => ShotsNoTable
  | Some None => ShotsNoTbody
  | Some (Some []) => ShotsNoRows
  | Some (Some rows__) => ShotsBatch (omap (shot_params match_url) rows__)
  end.

(** The literal statement of lines 734 to 751: no update clause. *)
Definition insert_events_sql : insert_sql :=
  {| into := MatchEvents;
     columns := [ "match_report_url"; "minute"; "player_id"; "player"; "squad";
                  "outcome"; "distance"; "body_part";
                  "sca_1_player_id"; "sca_1_player"; "sca_1_event";
                  "sca_2_player_id"; "sca_2_player"; "sca_2_event" ];
     update_clause := [] |}.

End Shots.

(* ===================================================================== *)
(** * One match: derivation and persistence *)
(* ===================================================================== *)

Module Match.
Import Text Data Resolver Metadata Players Storage Shots.

(** The schedule row handed to [scrape_and_insert_match_data]; the date is
    already the string [date_str]. *)
Record schedule_row := {
  date_str : string;
  home_team : string;
  away_team : string;
  comp : string;
  match_url : string
}.

Definition matchup_str (r : schedule_row) : string :=
  away_team r +:+ " @ " +:+ home_team r.

(** Lines 199 to 201. *)
Definition full_url (r : schedule_row) : string :=
  if starts_with "fbref.com" (match_url r) then "https://" +:+ match_url r
  else match_url r.

(** Everything the function derives from the page before it opens the
    connection. *)
Record derived := {
  home_team_id : string;
  away_team_id : string;
  score : string;
  home_formation : string;
  away_formation : string;
  home_pos : string;
  away_pos : string;
  squads : subs_state;
  team_sums : gmap string num;
  home_sca_val : Z;
  away_sca_val : Z;
  shots : shot_log
}.

Definition teams_columns : list string :=
  [ "date"; "matchup"; "comp";
    "home_squad"; "away_squad";
    "score";
    "home_formation"; "away_formation";
    "home_possession"; "away_possession";
    "home_subs"; "away_subs";
    "home_shots"; "away_shots";
    "home_shots_on_target"; "away_shots_on_target";
    "home_fouls"; "away_fouls";
    "home_corner_kicks"; "away_corner_kicks";
    "home_crosses"; "away_crosses";
    "home_touches"; "away_touches";
    "home_tackles"; "away_tackles";
    "home_interceptions"; "away_interceptions";
    "home_passes"; "away_passes";
    "home_shots_assisted"; "away_shots_assisted";
    "home_take_ons"; "away_take_ons";
    "home_progressive_carries"; "away_progressive_carries";
    "home_clearances"; "away_clearances";
    "home_tackles_def_3rd"; "away_tackles_def_3rd";
    "home_tackles_mid_3rd"; "away_tackles_mid_3rd";
    "home_tackles_att_3rd"; "away_tackles_att_3rd";
    "home_blocked_shots"; "away_blocked_shots";
    "home_blocked_passes"; "away_blocked_passes";
    "home_challenges"; "away_challenges";
    "home_carries_into_final_third"; "away_carries_into_final_third";
    "home_progressive_passes_received"; "away_progressive_passes_received";
    "home_passes_into_final_third"; "away_passes_into_final_third";
    "home_passes_into_penalty_area"; "away_passes_into_penalty_area";
    "home_touches_def_3rd"; "away_touches_def_3rd";
    "home_touches_mid_3rd"; "away_touches_mid_3rd";
    "home_touches_att_3rd"; "away_touches_att_3rd";
    "home_touches_att_pen_area"; "away_touches_att_pen_area";
    "match_report_url";
    "home_sca"; "away_sca";
    "home_team_id"; "away_team_id" ].

(** The statistic columns of the team row: all of [db_columns] but the
    fractional one, which the row takes from the rounded totals. *)
Definition count_columns : list string :=
  filter (fun c => c <> "sca") db_columns.

Definition teams_param (r : schedule_row) (d : derived) : list sql_value :=
  ([ SqlStr (date_str r); SqlStr (matchup_str r); SqlStr (comp r);
     SqlStr (home_team r); SqlStr (away_team r);
     SqlStr (score d);
     SqlStr (home_formation d); SqlStr (away_formation d);
     SqlStr (home_pos d); SqlStr (away_pos d);
     SqlInt (home_subs_val (squads d)); SqlInt (away_subs_val (squads d)) ]
   ++ flat_map (fun c => [ sql_of_num (team_sum (team_sums d) ("home_" +:+ c));
                           sql_of_num (team_sum (team_sums d) ("away_" +:+ c)) ])
               count_columns
   ++ [ SqlStr (full_url r);
        SqlInt (home_sca_val d); SqlInt (away_sca_val d);
        SqlStr (home_team_id d); SqlStr (away_team_id d) ])%list.

Definition players_columns : list string :=
  [ "date"; "matchup"; "comp";
    "player"; "player_id"; "position"; "squad"; "opponent"; "home_away";
    "minutes"; "starter";
    "shots"; "shots_on_target"; "fouls"; "corner_kicks"; "crosses";
    "touches"; "tackles"; "interceptions";
    "passes"; "shots_assisted"; "take_ons"; "progressive_carries";
    "clearances";
    "tackles_def_3rd"; "tackles_mid_3rd"; "tackles_att_3rd";
    "blocked_shots"; "blocked_passes"; "challenges";
    "carries_into_final_third"; "progressive_passes_received";
    "passes_into_final_third"; "passes_into_penalty_area";
    "touches_def_3rd"; "touches_mid_3rd"; "touches_att_3rd"; "touches_att_pen_area";
    "sca";
    "sub_in_out";
    "match_report_url" ].

Definition param_player (r : schedule_row) (squad_name opp_name home_away_val : string)
    (pv : pdict) : list sql_value :=
  ([ SqlStr (date_str r); SqlStr (matchup_str r); SqlStr (comp r);
     SqlStr (player pv); SqlStr (player_id pv); SqlStr (position pv);
     SqlStr squad_name; SqlStr opp_name; SqlStr home_away_val;
     SqlInt (minutes pv); SqlStr (starter pv) ]
   ++ ((fun c => sql_of_num (stat pv c)) <$> db_columns)
   ++ [ SqlStr (sub_in_out pv); SqlStr (full_url r) ])%list.

Definition insert_teams_sql : insert_sql :=
  generate_insert_sql AllMatchupsTeams teams_columns.

Definition insert_players_sql : insert_sql :=
  generate_insert_sql AllMatchupsPlayers players_columns.

Section Engine.

Variable py_int : string -> option Z.
Variable py_float : string -> option Qc.
Variable fault : nat -> bool.

(** Lines 219 to 547 and the extraction of the shot log: the page of a
    match that has a scorebox. The floats of the page are numbers: a page
    with an "sca" cell that [float] reads as [nan] or [inf], on which
    line 546 raises, is not a page of this function. *)
Definition derive (r : schedule_row) (doc : document) (sb : scorebox_div)
  : derived * list log_line :=
  let '(home_id, away_id, w_ids) := resolve_team_ids sb (home_team r) (away_team r) in
  let players0 := parse_stats_tables py_int py_float home_id away_id (stats_tables doc) in
  let '(subs, w_subs) := process_substitutions doc players0 in
  let home_players_ := assign_starters (home_players subs) in
  let away_players_ := assign_starters (away_players subs) in
  let sums := sum_side away_players_ "away" (sum_side home_players_ "home" init_team_sums) in
  ({| home_team_id := home_id;
      away_team_id := away_id;
      score := final_score sb;
      home_formation := fst (formations doc);
      away_formation := snd (formations doc);
      home_pos := fst (possession doc);
      away_pos := snd (possession doc);
      squads := {| home_players := home_players_; away_players := away_players_;
                   home_subs_val := home_subs_val subs;
                   away_subs_val := away_subs_val subs |};
      team_sums := sums;
      home_sca_val := sca_val home_players_;
      away_sca_val := sca_val away_players_;
      shots := extract_shots (full_url r) doc |},
   (w_ids ++ w_subs)%list).

(** [insert_players]: one [cursor.execute] per player of the side. *)
Fixpoint insert_players (rows : list (list sql_value)) : M unit :=
  match rows with
  | [] => ret tt
  | param_player_ :: rows' =>
      bind (cursor_execute fault insert_players_sql param_player_)
           (fun _ => insert_players rows')
  end.

Definition insert_shots (sh : shot_log) : M unit :=
  match sh with
  | ShotsNoTable => print NoShotsTable
  | ShotsNoTbody => print NoShotTbody
  | ShotsNoRows => print NoShotRows
  | ShotsBatch [] => print NoValidShotRows
  | ShotsBatch data_batch =>
      bind (cursor_executemany fault insert_events_sql data_batch)
           (fun _ => print (InsertedShotEvents (length data_batch)))
  end.

(** Lines 565 to 808 of the [try] block: the team row, the player rows of
    both sides and the shot events, on the open connection. *)
Definition write_rows (r : schedule_row) (d : derived) : M unit :=
  bind (cursor_execute fault insert_teams_sql (teams_param r d)) (fun _ =>
  bind (insert_players
          (param_player r (home_team r) (away_team r) "home"
             <$> values (home_players (squads d)))) (fun _ =>
  bind (insert_players
          (param_player r (away_team r) (home_team r) "away"
             <$> values (away_players (squads d)))) (fun _ =>
  insert_shots (shots d)))).

(** The body of the [try] block: the writes, then lines 810 to 815. *)
Definition insert_match (r : schedule_row) (d : derived) : M unit :=
  bind (write_rows r d) (fun _ =>
  bind (commit fault) (fun _ =>
  bind (fun s => (Ok tt, (close (fst s), snd s))) (fun _ =>
  print (Inserted (date_str r) (matchup_str r))))).

(** The [finally] clause. *)
Definition finally (c : connection) : connection :=
  if is_connected c then close c else c.

(** Lines 563 to 823: [try], [except Error], [finally]. The result is what
    the store holds afterwards, and the log. *)
Definition persist (r : schedule_row) (d : derived) (db : DB) : DB * list log_line :=
  match get_db_connection fault db with
  | Error => (db, [DbInsertError])
  | Ok conn =>
      match insert_match r d (conn, []) with
      | (Ok _, (conn', out)) => (server (finally conn'), out)
      | (Error, (conn', out)) =>
          let conn'' := if is_connected conn' then rollback conn' else conn' in
          (server (finally conn''), (out ++ [DbInsertError])%list)
      end
  end.

(** [scrape_and_insert_match_data]: [resp] is the page, [None] when the
    request raises. *)
Definition scrape_and_insert_match_data (r : schedule_row) (resp : option document)
    (db : DB) : DB * list log_line :=
  match resp with
  | None => (db, [RequestError])
  | Some doc =>
      match scorebox doc with
      | None => (db, [NoScorebox])
      | Some sb =>
          let '(d, w) := derive r doc sb in
          let '(db', out) := persist r d db in
          (db', (w ++ out)%list)
      end
  end.

End Engine.

End Match.

(* ===================================================================== *)
(** * What the specification says, and the inputs of the examples *)
(* ===================================================================== *)

Module Stated.
Import Text Halting Data Resolver Metadata Players Storage Shots Match.

(** ** Halting pattern *)

Fixpoint all_alnum (s : string) : bool :=
  match s with
  | EmptyString => true
  | String c s' => is_alnum c && all_alnum s'
  end.

Fixpoint all_space (s : string) : bool :=
  match s with
  | EmptyString => true
  | String c s' => is_space c && all_space s'
  end.

(** A slash, eight alphanumeric characters, a slash, eight alphanumeric
    characters and a slash, somewhere in the string. *)
Definition halting_shape (s : string) : Prop :=
  exists pre a b post : string,
    s = pre +:+ "/" +:+ a +:+ "/" +:+ b +:+ "/" +:+ post
    /\ String.length a = 8%nat /\ String.length b = 8%nat
    /\ all_alnum a = true /\ all_alnum b = true.

(** The part of [s] from its first slash on. *)
Fixpoint from_slash (s : string) : string :=
  match s with
  | EmptyString => EmptyString
  | String c s' => if Ascii.eqb c "/" then s else from_slash s'
  end.

(** What follows the first scheme separator of [s], when it has one. *)
Fixpoint skip_scheme (s : string) : option string :=
  match eat "://" s with
  | Some rest => Some rest
  | None =>
      match s with
      | EmptyString => None
      | String _ s' => skip_scheme s'
      end
  end.

Definition after_scheme (u : string) : string := default u (skip_scheme u).

(** The path of a URL: what follows the scheme and the host. *)
Definition url_path (u : string) : string := from_slash (after_scheme u).

(** The segments of the path, as the claim counts them. *)
Definition path_segments (u : string) : list string :=
  match split_on "/" (url_path u) with
  | EmptyString :: segs => segs
  | segs => segs
  end.

Definition is_segment8 (s : string) : bool :=
  Nat.eqb (String.length s) 8 && all_alnum s.

(** Two consecutive 8-character alphanumeric segments. *)
Fixpoint two_consecutive8 (segs : list string) : bool :=
  match segs with
  | a :: (b :: _) as rest => (is_segment8 a && is_segment8 b) || two_consecutive8 rest
  | _ => false
  end.

(** ** Starter classifier *)

(** The substitution tag of a player record, section 3. *)
Inductive SubstitutionTag :=
| TagNone
| TagIn (minute : string)
| TagOut (minute : string).

(** The string the substitution step stores for a tag. *)
Definition render (t : SubstitutionTag) : string :=
  match t with
  | TagNone => "n/a"
  | TagIn m => "In | " +:+ m +:+ prime_mark
  | TagOut m => "Out | " +:+ m +:+ prime_mark
  end.

Inductive lineup := Starter | NonStarter.

(** [classify] of section 4.5, in the order of its four cases. *)
Definition classify (minutesPlayed : Z) (t : SubstitutionTag) : lineup :=
  match t with
  | TagOut _ => if minutesPlayed <? 90 then Starter else NonStarter
  | TagIn _ => NonStarter
  | TagNone => if 90 <=? minutesPlayed then Starter else NonStarter
  end.

Definition flag (l : lineup) : string :=
  match l with
  | Starter => "yes"
  | NonStarter => "no"
  end.

Fixpoint all_digits (s : string) : bool :=
  match s with
  | EmptyString => true
  | String c s' => is_digit c && all_digits s'
  end.

Definition tag_minute_ok (t : SubstitutionTag) : Prop :=
  match t with
  | TagNone => True
  | TagIn m | TagOut m => all_digits m = true
  end.

(** ** Metadata *)

Fixpoint has_char (x : ascii) (s : string) : bool :=
  match s with
  | EmptyString => false
  | String c s' => Ascii.eqb c x || has_char x s'
  end.

(** ** Statistics tables *)

(** A table that carries the code of one of the two resolved sides. *)
Definition of_resolved_side (home_team_id away_team_id : string) (tbl : stats_table) : bool :=
  match table_code tbl with
  | Some code_ => String.eqb code_ home_team_id || String.eqb code_ away_team_id
  | None => false
  end.

(** The player code of a row, when the row has a player link. *)
Definition row_pid (row_ : stat_row) : option string :=
  (fun a_ => default UNRESOLVED (search_group "/en/players/" "/"%char (a_href a_)))
    <$> player_link row_.

(** [pid] is the player of a row of a table of [tables] that carries
    [code_]. *)
Definition listed_under (code_ : string) (tables : list stats_table) (pid : string) : Prop :=
  exists tbl rows_ row_,
    tbl ∈ tables /\ table_code tbl = Some code_ /\ table_tbody tbl = Some rows_
    /\ row_ ∈ rows_ /\ row_pid row_ = Some pid.

(** The key of a dictionary of players is the code stored in the record. *)
Definition well_keyed (pmap : gmap string pdict) : Prop :=
  forall pid pv, pmap !! pid = Some pv -> player_id pv = pid.

(** ** Substitutions *)

Definition players_of (s : side) (st : subs_state) : gmap string pdict :=
  match s with
  | Home => home_players st
  | Away => away_players st
  end.

Definition subs_of (s : side) (st : subs_state) : Z :=
  match s with
  | Home => home_subs_val st
  | Away => away_subs_val st
  end.

Definition other (s : side) : side :=
  match s with
  | Home => Away
  | Away => Home
  end.

(** What the code asks of an event to count it: a substitution icon, a
    side marker, and a detail block with both player links. *)
Definition counted (ev : event_div) : option (side * string * string) :=
  match icon_classes ev with
  | Some classes =>
      if bool_decide ("substitute_in" ∈ classes) then
        match event_info ev with
        | Some info_div =>
            match player_in_tag info_div, player_out_tag info_div, substitution_team ev with
            | Some href_in, Some href_out, Some s => Some (s, href_in, href_out)
            | _, _, _ => None
            end
        | None => None
        end
      else None
  | None => None
  end.

(** What the claim asks: both codes resolve and both are known players of
    the side. *)
Definition both_known (s : side) (href_in href_out : string) (st : subs_state) : Prop :=
  exists pin pout,
    player_code href_in = Some pin /\ player_code href_out = Some pout
    /\ is_Some (players_of s st !! pin) /\ is_Some (players_of s st !! pout).

(** ** Team sums *)

(** [sum(pv[dbcol] for pv in pmap.values())], from the integer [0]. *)
Definition column_total (pmap : gmap string pdict) (dbcol : string) : num :=
  foldl (fun acc pv => num_add acc (stat pv dbcol)) (NInt 0) (values pmap).

(** The sum of a column as a rational number. *)
Definition column_sum (pmap : gmap string pdict) (dbcol : string) : Qc :=
  foldr (fun pv acc => (num_to_Qc (stat pv dbcol) + acc)%Qc) 0%Qc (values pmap).

Definition sum_key (prefix dbcol : string) : string := prefix +:+ "_" +:+ dbcol.

(** ** Persistence *)

(** The writes of one match, applied one after the other to a store. *)
Definition staged (r : schedule_row) (d : derived) (db : DB) : option DB :=
  db1 ← run_insert insert_teams_sql (teams_param r d) db;
  db2 ← run_insert_many insert_players_sql
          (param_player r (home_team r) (away_team r) "home"
             <$> values (home_players (squads d))) db1;
  db3 ← run_insert_many insert_players_sql
          (param_player r (away_team r) (home_team r) "away"
             <$> values (away_players (squads d))) db2;
  match shots d with
  | ShotsBatch (p :: data_batch) => run_insert_many insert_events_sql (p :: data_batch) db3
  | _ => Some db3
  end.

Definition shots_pure (sh : shot_log) (db : DB) : option DB :=
  match sh with
  | ShotsBatch (p :: data_batch) => run_insert_many insert_events_sql (p :: data_batch) db
  | _ => Some db
  end.

Definition shots_calls (sh : shot_log) : nat :=
  match sh with
  | ShotsBatch (_ :: _) => 1
  | _ => 0
  end.

(** The number of calls a complete run makes on the connection: the
    connection itself, the team row, one per player, the shot batch when
    there is one, and the commit. *)
Definition n_calls (d : derived) : nat :=
  (1 + 1 + length (values (home_players (squads d)))
   + length (values (away_players (squads d)))
   + shots_calls (shots d) + 1)%nat.

(** What a step of the [try] block guarantees: the committed rows are
    untouched; when it returns, the session holds [pure] of what it held,
    [n] calls were made and none of them was a fault; when it raises,
    [pure] fails or one of its calls was a fault. *)
Definition step_ok (fault : nat -> bool) {A} (m : M A) (pure : DB -> option DB) (n : nat)
  : Prop :=
  forall s,
    server (fst (snd (m s))) = server (fst s)
    /\ is_connected (fst (snd (m s))) = is_connected (fst s)
    /\ match fst (m s) with
       | Ok _ =>
           pure (session (fst s)) = Some (session (fst (snd (m s))))
           /\ calls (fst (snd (m s))) = (calls (fst s) + n)%nat
           /\ (forall i, (calls (fst s) <= i < calls (fst s) + n)%nat -> fault i = false)
       | Error =>
           pure (session (fst s)) = None
           \/ exists i, (calls (fst s) <= i < calls (fst s) + n)%nat /\ fault i = true
       end.

(** The row [r] is in the table under its key, and the columns of the
    statement's clause hold the values of [r]. *)
Definition upserted (sql : insert_sql) (r : gmap string sql_value)
    (t : gmap (list sql_value) (gmap string sql_value)) : Prop :=
  exists x, t !! key_of (natural_key (into sql)) r = Some x
            /\ overwrite (update_clause sql) r x = x.

Definition players_row (p : list sql_value) : gmap string sql_value :=
  list_to_map (zip players_columns p).

Definition teams_row (p : list sql_value) : gmap string sql_value :=
  list_to_map (zip teams_columns p).

Definition player_key (r : schedule_row) (home_away_val : string) (pv : pdict)
  : list sql_value :=
  [SqlStr (date_str r); SqlStr (matchup_str r); SqlStr (player_id pv); SqlStr home_away_val].

(** The rows of a batch of tuples, when every tuple fits the statement. *)
Fixpoint rows_of (sql : insert_sql) (batch : list (list sql_value))
  : option (list (gmap string sql_value)) :=
  match batch with
  | [] => Some []
  | p :: batch' =>
      match row_of sql p, rows_of sql batch' with
      | Some r, Some rs => Some (r :: rs)
      | _, _ => None
      end
  end.

(** The rows a shot batch adds to the shot-event table. *)
Definition event_rows (data_batch : list (list sql_value)) : list (gmap string sql_value) :=
  default [] (rows_of insert_events_sql data_batch).

Definition new_events (d : derived) : list (gmap string sql_value) :=
  match shots d with
  | ShotsBatch data_batch => event_rows data_batch
  | _ => []
  end.

(** The rows a page adds to the shot-event table. *)
Definition page_events (py_int : string -> option Z) (py_float : string -> option Qc)
    (r : schedule_row) (doc : document) : list (gmap string sql_value) :=
  match scorebox doc with
  | Some sb => new_events (fst (derive py_int py_float r doc sb))
  | None => []
  end.

(** No call on the connection fails. *)
Definition no_fault : nat -> bool := fun _ => false.

End Stated.

(* ===================================================================== *)
(** * A page and a schedule row for the examples *)
(* ===================================================================== *)

Module Examples.
Import Text Data Resolver Metadata Players Storage Shots Match Stated.

(** The coercions of the examples: plain decimal numerals. *)
Fixpoint digits_value (acc : Z) (s : string) : option Z :=
  match s with
  | EmptyString => Some acc
  | String c s' =>
      if is_digit c then digits_value (10 * acc + Z.of_nat (code c - 48)) s' else None
  end.

Definition example_int (s : string) : option Z :=
  match s with
  | EmptyString => None
  | _ => digits_value 0 s
  end.

Definition example_float (s : string) : option Qc :=
  (fun z => Q2Qc (inject_Z z)) <$> example_int s.

Definition example_row : schedule_row :=
  {| date_str := "2024-03-09";
     home_team := "Arsenal";
     away_team := "Brentford";
     comp := "Premier League";
     match_url := "fbref.com/en/matches/0a1b2c3d/Arsenal-Brentford" |}.

Definition example_scorebox : scorebox_div :=
  {| squad_links :=
       [ {| a_text := "Arsenal"; a_href := "/en/squads/18bb7c10/Arsenal-Stats" |};
         {| a_text := "Brentford"; a_href := "/en/squads/cd051869/Brentford-Stats" |} ];
     score_divs := ["2"; "1"] |}.

Definition player_row (name pid mins shots_ sca_ : string) : stat_row :=
  {| player_link :=
       Some {| a_text := name; a_href := "/en/players/" +:+ pid +:+ "/" +:+ name |};
     stat_cells := [ ("position", "FW"); ("minutes", mins);
                     ("shots", shots_); ("sca", sca_) ] |}.

Definition example_tables : list stats_table :=
  [ {| table_id := "stats_18bb7c10_summary";
       table_tbody := Some [ player_row "Saka" "bc7dc64d" "90" "3" "4";
                             player_row "Jesus" "b66315ae" "67" "2" "3";
                             player_row "Trossard" "38ceb24a" "23" "1" "1" ] |};
    {| table_id := "stats_cd051869_summary";
       table_tbody := Some [ player_row "Toney" "db8b8fc0" "90" "4" "2" ] |};
    {| table_id := "stats_ffffffff_summary";
       table_tbody := Some [ player_row "Guest" "00000001" "90" "9" "9" ] |} ].

(** Trossard for Jesus after 67 minutes, on the home side. *)
Definition example_substitution : event_div :=
  {| icon_classes := Some ["event_icon"; "substitute_in"];
     event_class := ["event"; "a"];
     minute_divs := [" 67" +:+ prime_mark; ""];
     event_info :=
       Some {| player_in_tag := Some "/en/players/38ceb24a/Trossard";
               player_out_tag := Some "/en/players/b66315ae/Jesus" |} |}.

Definition shot_text (text : string) : shot_cell :=
  {| cell_text := text; data_append_csv := None; cell_href := None |}.

Definition example_shot : shot_row :=
  {| row_class := ["shots_a"];
     shot_cells :=
       [ ("minute", shot_text "12");
         ("player", {| cell_text := "Saka"; data_append_csv := Some "bc7dc64d";
                       cell_href := Some "/en/players/bc7dc64d/Saka" |});
         ("team", shot_text "Arsenal");
         ("outcome", shot_text "Goal");
         ("distance", shot_text "11");
         ("body_part", shot_text "Left Foot") ] |}.

Definition example_page : document :=
  {| scorebox := Some example_scorebox;
     possession_tds := Some [Some "61%"; Some "39%"];
     lineup_a := Some {| formation_th := Some "Arsenal (4-3-3)" |};
     lineup_b := Some {| formation_th := Some "Brentford (3-5-2)" |};
     stats_tables := example_tables;
     events_wrap := Some [example_substitution];
     shots_all := Some (Some [ {| row_class := ["spacer"]; shot_cells := [] |};
                               example_shot ]) |}.

(** A page with the scorebox and nothing else. *)
Definition bare_page : document :=
  {| scorebox := Some {| squad_links := []; score_divs := [] |};
     possession_tds := None;
     lineup_a := None;
     lineup_b := None;
     stats_tables := [];
     events_wrap := None;
     shots_all := None |}.

(** The example page without its scorebox. *)
Definition page_without_scorebox : document :=
  {| scorebox := None;
     possession_tds := possession_tds example_page;
     lineup_a := lineup_a example_page;
     lineup_b := lineup_b example_page;
     stats_tables := stats_tables example_page;
     events_wrap := events_wrap example_page;
     shots_all := shots_all example_page |}.

(** The example page with the home lineup only. *)
Definition page_home_lineup_only : document :=
  {| scorebox := scorebox example_page;
     possession_tds := possession_tds example_page;
     lineup_a := lineup_a example_page;
     lineup_b := None;
     stats_tables := stats_tables example_page;
     events_wrap := events_wrap example_page;
     shots_all := shots_all example_page |}.

(** What the example page derives to. *)
Definition example_derived : derived :=
  fst (derive example_int example_float example_row example_page example_scorebox).

(** The state before the substitutions of a page on which no team was
    resolved: no player is known. *)
Definition nobody : subs_state :=
  {| home_players := ∅; away_players := ∅; home_subs_val := 0; away_subs_val := 0 |}.

(** Two records with their shots and shot-creating actions. *)
Definition record (pid : string) (shots_ : Z) (sca_ : Qc) : pdict :=
  set_stat "sca" (NFloat sca_) (set_stat "shots" (NInt shots_) (init_player_dict pid pid)).

Definition two_records : gmap string pdict :=
  <["p1" := record "p1" 3 (Q2Qc (3 # 2))]> (<["p2" := record "p2" 2 (Q2Qc 1)]> ∅).

(** The call of the shot batch fails on the example page: the connection
    is call 0, the team row call 1, the four players calls 2 to 5. *)
Definition shot_insert_fails : nat -> bool := fun i => Nat.eqb i 6.

End Examples.

(* ===================================================================== *)
(** * The scan of the schedule: [main] of [all_matchup_stats.py] *)
(* ===================================================================== *)

Module Scan.
Import Text Halting Data Storage Match.

(** A row of the table [schedule]. The date is the day number of the
    [datetime.date] the connector gives for it; the report is [None] for
    [NULL]. *)
Record schedule_entry := {
  s_date : Z;
  s_home : string;
  s_away : string;
  s_comp : string;
  s_match_report : option string
}.

(** What the scan prints; [Engine] carries a line of
    [scrape_and_insert_match_data]. *)
Inductive scan_line :=
| DbErrorScrapedUrls
| DbErrorEarliestDate
| DbErrorSchedule
| NoUnscrapedMatches
| NoMatches
| EncounteredBadUrl (url_ : string)
| StoppingScript
| Processing (mdate : Z) (hteam ateam : string)
| Engine (l : log_line)
| AllDone.

(** The value of a text column as Python receives it: a [str], or [None]
    for [NULL]. The column [match_report_url] is a text column, so the two
    other kinds of value do not stand in it. *)
Definition text_of (v : sql_value) : option string :=
  match v with
  | SqlStr s => Some s
  | _ => None
  end.

(** [SELECT DISTINCT match_report_url FROM t]. *)
Definition select_match_report_url (t : gmap (list sql_value) (gmap string sql_value))
  : list sql_value :=
  remove_dups ((fun row => default SqlNull (row.2 !! "match_report_url")) <$> map_to_list t).

(** [for (url_val,) in rows: if url_val: scraped_set.add(url_val.strip())]. *)
Definition add_urls (rows : list sql_value) (scraped_set : gset string) : gset string :=
  foldl (fun acc url_val =>
           match text_of url_val with
           | Some (String _ _ as u) => {[strip u]} ∪ acc
           | _ => acc
           end)
        scraped_set rows.

(** [SELECT date, match_report FROM schedule WHERE match_report IS NOT NULL
    ORDER BY date ASC], on the table listed in the order of [ORDER BY date
    ASC]. *)
Definition select_reports (schedule : list schedule_entry) : list (Z * option string) :=
  (fun e => (s_date e, s_match_report e))
    <$> List.filter (fun e => bool_decide (is_Some (s_match_report e))) schedule.

(** [SELECT date, home, away, comp, match_report FROM schedule WHERE
    match_report IS NOT NULL AND date >= start_date ORDER BY date ASC]. *)
Definition select_since (start_date : Z) (schedule : list schedule_entry)
  : list schedule_entry :=
  List.filter (fun e => bool_decide (is_Some (s_match_report e)) && (start_date <=? s_date e))
              schedule.

(** Lines 92 to 108: the loop of [get_earliest_unscraped_date]. *)
Fixpoint earliest_unscraped (rows : list (Z * option string)) (scraped_urls : gset string)
  : option Z :=
  match rows with
  | [] => None
  | (dt, report_url) :: rows' =>
      match report_url with
      | Some (String _ _ as u) =>
          if bool_decide (strip u ∈ scraped_urls) then earliest_unscraped rows' scraped_urls
          else if BAD_URL_REGEX_search (strip u) then earliest_unscraped rows' scraped_urls
          else Some dt
      | _ => earliest_unscraped rows' scraped_urls
      end
  end.

(** Lines 145 to 150: the loop of [fetch_schedule_since_date]. *)
Fixpoint unscraped (rows : list schedule_entry) (scraped_urls : gset string)
  : list schedule_entry :=
  match rows with
  | [] => []
  | e :: rows' =>
      match s_match_report e with
      | Some (String _ _ as url_) =>
          if bool_decide (strip url_ ∈ scraped_urls) then unscraped rows' scraped_urls
          else e :: unscraped rows' scraped_urls
      | _ => unscraped rows' scraped_urls
      end
  end.

Section Reads.

(** The calls of one reading connection that raise
    [mysql.connector.Error]: call 0 is the connection, calls 1 and 2 are
    the queries. *)
Variable fault : nat -> bool.

(** [get_already_scraped_urls]: what was added before a call raises is
    returned. *)
Definition get_already_scraped_urls (db : DB) : gset string * list scan_line :=
  if fault 0 then (∅, [DbErrorScrapedUrls])
  else if fault 1 then (∅, [DbErrorScrapedUrls])
  else
    let scraped_set := add_urls (select_match_report_url (all_matchups_players db)) ∅ in
    if fault 2 then (scraped_set, [DbErrorScrapedUrls])
    else (add_urls (select_match_report_url (all_matchups_teams db)) scraped_set, []).

(** [get_earliest_unscraped_date]. *)
Definition get_earliest_unscraped_date (schedule : list schedule_entry)
    (scraped_urls : gset string) : option Z * list scan_line :=
  if fault 0 then (None, [DbErrorEarliestDate])
  else if fault 1 then (None, [DbErrorEarliestDate])
  else (earliest_unscraped (select_reports schedule) scraped_urls, []).

(** [fetch_schedule_since_date]; a date is never falsy, so [not start_date]
    is [start_date is None]. *)
Definition fetch_schedule_since_date (start_date : option Z)
    (schedule : list schedule_entry) (scraped_urls : gset string)
  : list schedule_entry * list scan_line :=
  match start_date with
  | None => ([], [])
  | Some start =>
      if fault 0 then ([], [DbErrorSchedule])
      else if fault 1 then ([], [DbErrorSchedule])
      else (unscraped (select_since start schedule) scraped_urls, [])
  end.

End Reads.

Section Run.

Variable py_int : string -> option Z.
Variable py_float : string -> option Qc.

(** [match_date.strftime("%Y-%m-%d")] or [str(match_date)]. *)
Variable date_str_of : Z -> string.

(** The answer to the request the loop makes for its [i]-th row: the
    parsed page, [None] when the request raises. *)
Variable web : nat -> string -> option document.

(** The failing calls of the connections of the run: connection 0 is the
    one of [get_already_scraped_urls], 1 the one of
    [get_earliest_unscraped_date], 2 the one of
    [fetch_schedule_since_date], and [3 + i] the one opened for the
    [i]-th row of the loop. *)
Variable fault : nat -> nat -> bool.

Definition row_of_entry (e : schedule_entry) (url_ : string) : schedule_row :=
  {| date_str := date_str_of (s_date e);
     home_team := s_home e;
     away_team := s_away e;
     comp := s_comp e;
     match_url := url_ |}.

(** Lines 852 to 866: the loop over the rows, from row [i]; the pause
    between two rows leaves no trace. *)
Fixpoint main_loop (i : nat) (rows : list schedule_entry) (st : DB * list scan_line)
  : DB * list scan_line :=
  match rows with
  | [] => st
  | e :: rows' =>
      match s_match_report e with
      | Some (String _ _ as url_) =>
          if BAD_URL_REGEX_search (strip url_)
          then (st.1, (st.2 ++ [EncounteredBadUrl url_; StoppingScript])%list)
          else
            let r := row_of_entry e url_ in
            let '(db', out) :=
              scrape_and_insert_match_data py_int py_float (fault (3 + i)) r
                (web i (full_url r)) st.1 in
            main_loop (S i) rows'
              (db', (st.2 ++ Processing (s_date e) (s_home e) (s_away e) :: (Engine <$> out))%list)
      | _ => main_loop (S i) rows' st
      end
  end.

(** [main]. *)
Definition main (schedule : list schedule_entry) (db : DB) : DB * list scan_line :=
  let '(scraped_urls, out0) := get_already_scraped_urls (fault 0) db in
  let '(earliest_date, out1) := get_earliest_unscraped_date (fault 1) schedule scraped_urls in
  match earliest_date with
  | None => (db, (out0 ++ out1 ++ [NoUnscrapedMatches])%list)
  | Some _ =>
      let '(rows, out2) :=
        fetch_schedule_since_date (fault 2) earliest_date schedule scraped_urls in
      match rows with
      | [] => (db, (out0 ++ out1 ++ out2 ++ [NoMatches])%list)
      | _ :: _ =>
          let '(db', out3) := main_loop 0 rows (db, (out0 ++ out1 ++ out2)%list) in
          (db', (out3 ++ [AllDone])%list)
      end
  end.

End Run.

End Scan.

(* ===================================================================== *)
(** * The refresh of the report addresses: [schedule_url.py] *)
(* ===================================================================== *)

Module ScheduleUrl.
Import Text Halting Data Storage Scan.

(** ** The page of a day *)

(** A [<tr>] of a fixture table: its classes (none when it has no [class]
    attribute), the texts of its [home_team] and [away_team] cells, and of
    its [match_report] cell the first anchor, and of the anchor the
    [href]. *)
Record fixture_tr := {
  tr_class : list string;
  home_team_cell : option string;
  away_team_cell : option string;
  match_report_cell : option (option (option string))
}.

(** A [div] whose id matches [sched_\d{4}-\d{4}_\d+]: its first table, the
    [tbody] of the table, the rows of the [tbody]. *)
Record sched_div := { inner_table : option (option (list fixture_tr)) }.

(** What the script prints. *)
Inductive url_line :=
| ErrorFetching (url : string)
| NoLeagueTables (date_str : Z)
| ErrorConnecting
| ConnectionFailedSkipping
| EncounteredBadUrl (new_url : string)
| Updated (rows_updated : nat) (date_str : Z)
| ProcessingDate (date_str : Z)
| NoFixtures (date_str : Z)
| StoppingScript
| Sleeping
| AllDone.

(** [fixtures_dict]: (home, away) to the address of the report, or
    [None]. *)
Definition fixtures := gmap (string * string) (option string).

(** Lines 145 to 166: one row. *)
Definition add_fixture (fixtures_dict : fixtures) (row : fixture_tr) : fixtures :=
  if bool_decide ("spacer" ∈ tr_class row) then fixtures_dict
  else
    match home_team_cell row, away_team_cell row with
    | Some home_team, Some away_team =>
        let match_report_url :=
          match match_report_cell row with
          | Some (Some (Some href)) => Some ("https://fbref.com" +:+ strip href)
          | _ => None
          end in
        <[(home_team, away_team) := match_report_url]> fixtures_dict
    | _, _ => fixtures_dict
    end.

(** Lines 134 to 166: one table. *)
Definition add_table (fixtures_dict : fixtures) (table_div : sched_div) : fixtures :=
  match inner_table table_div with
  | Some (Some rows) => foldl add_fixture fixtures_dict rows
  | _ => fixtures_dict
  end.

(** [scrape_fixture_urls_for_date], on the answer to its request: [None]
    when the request raises, else the tables of the page. *)
Definition scrape_fixture_urls_for_date (url : string) (date_str : Z)
    (resp : option (list sched_div)) : fixtures * list url_line :=
  match resp with
  | None => (∅, [ErrorFetching url])
  | Some [] => (∅, [NoLeagueTables date_str])
  | Some tables => (foldl add_table ∅ tables, [])
  end.

(** ** The table [schedule] *)

Definition set_match_report (v : option string) (e : schedule_entry) : schedule_entry :=
  {| s_date := s_date e; s_home := s_home e; s_away := s_away e; s_comp := s_comp e;
     s_match_report := v |}.

(** [SELECT home, away, match_report FROM schedule WHERE date = %s]. *)
Definition select_date (date_str : Z) (schedule : list schedule_entry)
  : list (string * string * option string) :=
  (fun e => (s_home e, s_away e, s_match_report e))
    <$> List.filter (fun e => s_date e =? date_str) schedule.

(** [UPDATE schedule SET match_report = %s WHERE date = %s AND home = %s
    AND away = %s]; the comparison of the store is taken to be the
    equality of strings. *)
Definition run_update (new_url : string) (date_str : Z) (home_team away_team : string)
    (schedule : list schedule_entry) : list schedule_entry :=
  (fun e =>
     if (s_date e =? date_str) && String.eqb (s_home e) home_team
        && String.eqb (s_away e) away_team
     then set_match_report (Some new_url) e
     else e) <$> schedule.

(** How [mysql.connector.connect] ends in [get_db_connection]. *)
Inductive connect_outcome := Connects | NotConnected | ConnectRaises.

(** [get_db_connection]: whether it returns a connection. *)
Definition get_db_connection (o : connect_outcome) : bool * list url_line :=
  match o with
  | Connects => (true, [])
  | NotConnected => (false, [])
  | ConnectRaises => (false, [ErrorConnecting])
  end.

Section Update.

(** The calls on the cursor and the connection that raise: call 0 is the
    [SELECT], call [k] the [k]-th [UPDATE], and the commit follows the
    last [UPDATE]. Nothing catches what they raise. *)
Variable fault : nat -> bool.

Variable date_str : Z.
Variable fixtures_dict : fixtures.

(** Lines 203 to 222: the loop over the rows of the day; the result is
    [(stop_script, working table, rows_updated, prints)]. *)
Fixpoint update_rows (rows : list (string * string * option string))
    (working : list schedule_entry) (rows_updated : nat)
  : result (bool * list schedule_entry * nat * list url_line) :=
  match rows with
  | [] => Ok (false, working, rows_updated, [])
  | (home_team, away_team, old_url) :: rows' =>
      match fixtures_dict !! (home_team, away_team) with
      | Some (Some (String _ _ as new_url)) =>
          if is_bad_url (Some new_url)
          then Ok (true, working, rows_updated, [EncounteredBadUrl new_url])
          else if fault (S rows_updated) then Error
          else update_rows rows'
                 (run_update new_url date_str home_team away_team working)
                 (S rows_updated)
      | _ => update_rows rows' working rows_updated
      end
  end.

(** [update_schedule_for_date]: what it returns, or that it raises, the
    committed table afterwards, and the prints. What was not committed is
    gone when the connection is closed or the script ends. *)
Definition update_schedule_for_date (o : connect_outcome) (schedule : list schedule_entry)
  : result bool * list schedule_entry * list url_line :=
  match get_db_connection o with
  | (false, out) => (Ok false, schedule, (out ++ [ConnectionFailedSkipping])%list)
  | (true, out) =>
      if fault 0 then (Error, schedule, out)
      else
        match update_rows (select_date date_str schedule) schedule 0 with
        | Error => (Error, schedule, out)
        | Ok (stop_script, working, rows_updated, out1) =>
            if stop_script
            then (Ok true, schedule, (out ++ out1 ++ [Updated rows_updated date_str])%list)
            else if fault (S rows_updated) then (Error, schedule, (out ++ out1)%list)
            else (Ok false, working, (out ++ out1 ++ [Updated rows_updated date_str])%list)
        end
  end.

End Update.

Section Run.

(** [str(date_str)] inside the address of the page of a day. *)
Variable date_str_of : Z -> string.

(** For the [i]-th date of the loop: the answer to the request, how the
    connection ends, and the calls that raise. *)
Variable web : nat -> string -> option (list sched_div).
Variable connect : nat -> connect_outcome.
Variable fault : nat -> nat -> bool.

(** Lines 248 to 267: the loop over the dates, from the [i]-th, and the
    last print. *)
Fixpoint main_loop (i : nat) (dates_to_update : list Z)
    (st : list schedule_entry * list url_line)
  : result unit * list schedule_entry * list url_line :=
  match dates_to_update with
  | [] => (Ok tt, st.1, (st.2 ++ [AllDone])%list)
  | date_str :: dates' =>
      let url := "https://fbref.com/en/matches/" +:+ date_str_of date_str in
      let '(fixtures_dict, out1) := scrape_fixture_urls_for_date url date_str (web i url) in
      let out := (st.2 ++ ProcessingDate date_str :: out1)%list in
      if bool_decide (fixtures_dict = ∅)
      then main_loop (S i) dates' (st.1, (out ++ [NoFixtures date_str; Sleeping])%list)
      else
        match update_schedule_for_date (fault i) date_str fixtures_dict (connect i) st.1 with
        | (Error, schedule', out2) => (Error, schedule', (out ++ out2)%list)
        | (Ok true, schedule', out2) =>
            (Ok tt, schedule', (out ++ out2 ++ [StoppingScript; AllDone])%list)
        | (Ok false, schedule', out2) =>
            main_loop (S i) dates' (schedule', (out ++ out2 ++ [Sleeping])%list)
        end
  end.

End Run.

End ScheduleUrl.

(* ===================================================================== *)
(** * Notions used to state the further properties *)
(* ===================================================================== *)

Module Notions.
Import Text Halting Data Resolver Metadata Players Storage Shots Match Scan ScheduleUrl
  Stated.

(** The loop over the squad links of the scorebox, from any dictionary. *)
Definition collect (d : list (string * string)) (links : list anchor)
  : list (string * string) :=
  foldl (fun d a_tag => dict_set (a_text a_tag) (extract_team_id (a_href a_tag)) d) d links.

(** Every record of a dictionary of players satisfies [P]. *)
Definition all_records (P : pdict -> Prop) (pmap : gmap string pdict) : Prop :=
  forall pid pv, pmap !! pid = Some pv -> P pv.

(** A record that holds every statistic column, the counts as [int]s. *)
Definition holds_columns (pv : pdict) : Prop :=
  forall c, c ∈ db_columns ->
    if String.eqb c "sca" then is_Some (stats pv !! c)
    else exists z, stats pv !! c = Some (NInt z).

(** The number a cell of the statistic [fbref_stat] is stored as: the
    coercion of its text, [0] when the coercion raises. *)
Definition coerced (py_int : string -> option Z) (py_float : string -> option Qc)
    (fbref_stat val_ : string) : num :=
  if String.eqb fbref_stat "sca" then NFloat (default 0%Qc (py_float val_))
  else NInt (default 0 (py_int val_)).

(** The integer a record holds in a column. *)
Definition count_of (pv : pdict) (dbcol : string) : Z :=
  match stat pv dbcol with
  | NInt z => z
  | NFloat _ => 0
  end.

Definition same_side (a b : side) : bool :=
  match a, b with
  | Home, Home | Away, Away => true
  | _, _ => false
  end.

(** The events of the list that the loop counts for a side. *)
Definition counted_for (s : side) (event_divs : list event_div) : list event_div :=
  List.filter (fun ev => match counted ev with
                         | Some (s', _, _) => same_side s' s
                         | None => false
                         end) event_divs.

(** The last character of [s] is a digit. *)
Fixpoint ends_with_digit (s : string) : bool :=
  match s with
  | EmptyString => false
  | String c s' =>
      match s' with
      | EmptyString => is_digit c
      | String _ _ => ends_with_digit s'
      end
  end.

(** ** The scan *)

(** A table holds the address [u]: a row of it has in the column
    [match_report_url] a string that is not empty and strips to [u]. *)
Definition stores_url (t : gmap (list sql_value) (gmap string sql_value)) (u : string)
  : Prop :=
  exists k row v,
    t !! k = Some row /\ row !! "match_report_url" = Some (SqlStr v)
    /\ v <> "" /\ strip v = u.

(** A report that is not empty and whose address is not in the set. *)
Definition unstored (scraped_urls : gset string) (report : option string) : bool :=
  match report with
  | Some (String _ _ as u) => negb (bool_decide (strip u ∈ scraped_urls))
  | _ => false
  end.

(** A report the scan starts from: unstored and not of the halting
    shape. *)
Definition wanted (scraped_urls : gset string) (report : option string) : bool :=
  unstored scraped_urls report && negb (is_bad_url report).

(** The table is listed by ascending date. *)
Definition listed_by_date (schedule : list schedule_entry) : Prop :=
  forall i j e e',
    (i <= j)%nat -> schedule !! i = Some e -> schedule !! j = Some e' ->
    s_date e <= s_date e'.

Definition no_faults : nat -> nat -> bool := fun _ _ => false.

(** ** The texts on which the built-ins are taken as they are modelled *)

(** Every byte is an ASCII character. On such a string [lower] is
    [str.lower]. *)
Fixpoint ascii_text (s : string) : bool :=
  match s with
  | EmptyString => true
  | String c s' => Nat.ltb (code c) 128 && ascii_text s'
  end.

(** ASCII characters and prime marks alone. In such a text the decimal
    digits of the class [\d] are the ASCII digits. *)
Fixpoint minute_text (s : string) : bool :=
  match s with
  | EmptyString => true
  | String a s1 =>
      if Nat.ltb (code a) 128 then minute_text s1
      else
        match s1 with
        | String b (String c s3) =>
            Ascii.eqb a "226" && Ascii.eqb b "128" && Ascii.eqb c "153" && minute_text s3
        | _ => false
        end
  end.

(** A numeral that [float] reads as a whole number or a half below
    [10^9]: one to nine ASCII digits, then nothing, [.0] or [.5]; or the
    empty text, on which [float] raises and the value is zero. *)
Definition sca_text (text : string) : bool :=
  String.eqb text ""
  || let '(run, rest) := span_digits text in
     negb (String.eqb run "") && Nat.leb (String.length run) 9
     && (String.eqb rest "" || String.eqb rest ".0" || String.eqb rest ".5").

(** The [sca] cells of the statistics tables hold such numerals, and the
    page has at most a thousand such tables of at most a thousand rows
    each. The floats of the records are then whole numbers and halves
    below [10^9], at most [10^6] of them: every sum of them is exact in
    binary floating point, in any order, and none is [nan] or [inf], so
    that [int(round(sum(...)))] at line 546 does not raise and is the
    rounding of the exact sum. *)
Definition plain_sca (doc : document) : bool :=
  Nat.leb (length (stats_tables doc)) 1000
  && forallb
       (fun tbl =>
          match table_tbody tbl with
          | Some rows_ =>
              Nat.leb (length rows_) 1000
              && forallb (fun row_ => match find_td "sca" (stat_cells row_) with
                                      | Some text => sca_text text
                                      | None => true
                                      end) rows_
          | None => true
          end)
       (stats_tables doc).

(** ** The rows of the shot log *)

(** The text of the first cell of the row with this [data-stat], when the
    row has such a cell and its text is not empty. *)
Definition filled_text (row__ : shot_row) (data_stat : string) : option string :=
  match find_cell data_stat (shot_cells row__) with
  | Some tag_ => if String.eqb (cell_text tag_) "" then None else Some (cell_text tag_)
  | None => None
  end.

(** A row that is no filler row and has a minute and a player. *)
Definition shot_kept (row__ : shot_row) : bool :=
  negb (bool_decide ("spacer" ∈ row_class row__))
  && negb (bool_decide ("partial_table" ∈ row_class row__))
  && bool_decide (is_Some (filled_text row__ "minute"))
  && bool_decide (is_Some (filled_text row__ "player")).

(** The tuple [p] is the tuple of the row: it fits the statement, and
    carries the address of the match, the minute and the player of the
    row. *)
Definition tuple_of_row (match_url : string) (row__ : shot_row) (p : list sql_value)
  : Prop :=
  length p = length (columns insert_events_sql)
  /\ p !! 0%nat = Some (SqlStr match_url)
  /\ p !! 1%nat = SqlStr <$> filled_text row__ "minute"
  /\ p !! 3%nat = SqlStr <$> filled_text row__ "player"
  /\ p !! 4%nat = Some (sql_of_opt (get_value_from_td_or_th row__ "team"))
  /\ p !! 5%nat = Some (sql_of_opt (get_value_from_td_or_th row__ "outcome")).

(** ** The refresh of the addresses *)

(** The address the dictionary gives for a fixture, when it gives one
    that is not empty. *)
Definition url_at (fixtures_dict : fixtures) (key : string * string) : option string :=
  match fixtures_dict !! key with
  | Some (Some (String _ _ as u)) => Some u
  | _ => None
  end.

(** The entry with the address the dictionary gives for it. *)
Definition refresh (fixtures_dict : fixtures) (e : schedule_entry) : schedule_entry :=
  match url_at fixtures_dict (s_home e, s_away e) with
  | Some u => set_match_report (Some u) e
  | None => e
  end.

(** The table after the refresh of a day. *)
Definition refreshed (date_str : Z) (fixtures_dict : fixtures)
    (schedule : list schedule_entry) : list schedule_entry :=
  (fun e => if s_date e =? date_str then refresh fixtures_dict e else e) <$> schedule.

(** The dictionary gives an address of the halting shape for a fixture of
    the day. *)
Definition halting_day (date_str : Z) (fixtures_dict : fixtures)
    (schedule : list schedule_entry) : Prop :=
  exists e u,
    e ∈ schedule /\ s_date e = date_str
    /\ url_at fixtures_dict (s_home e, s_away e) = Some u
    /\ is_bad_url (Some u) = true.

(** The entry after the updates for the fixtures [keys] of a day. *)
Definition refresh_keys (date_str : Z) (fixtures_dict : fixtures)
    (keys : list (string * string)) (e : schedule_entry) : schedule_entry :=
  if (s_date e =? date_str) && bool_decide ((s_home e, s_away e) ∈ keys)
  then refresh fixtures_dict e
  else e.

(** The fixtures of the rows of a query. *)
Definition keys_of (rows : list (string * string * option string))
  : list (string * string) :=
  (fun row => (row.1.1, row.1.2)) <$> rows.

(** An entry after the script: the same fixture, with the report it had
    or with an address of the site that has not the halting shape. *)
Definition kept_or_refreshed (e e' : schedule_entry) : Prop :=
  s_date e' = s_date e /\ s_home e' = s_home e /\ s_away e' = s_away e
  /\ s_comp e' = s_comp e
  /\ (s_match_report e' = s_match_report e
      \/ exists href,
           s_match_report e' = Some ("https://fbref.com" +:+ strip href)
           /\ is_bad_url (s_match_report e') = false).

(** The address a row of the page gives. *)
Definition row_url (row : fixture_tr) : option string :=
  match match_report_cell row with
  | Some (Some (Some href)) => Some ("https://fbref.com" +:+ strip href)
  | _ => None
  end.

(** A row of the tables that gives the dictionary the value [v] for the
    fixture [key]. *)
Definition sets_entry (tables : list sched_div) (key : string * string)
    (v : option string) : Prop :=
  exists table_div rows row,
    table_div ∈ tables /\ inner_table table_div = Some (Some rows) /\ row ∈ rows
    /\ ("spacer" ∉ tr_class row)
    /\ home_team_cell row = Some key.1 /\ away_team_cell row = Some key.2
    /\ v = row_url row.

(** The rows of a day for which the dictionary gives an address. *)
Definition rows_with_url (date_str : Z) (fixtures_dict : fixtures)
    (schedule : list schedule_entry) : nat :=
  length (List.filter (fun key => bool_decide (is_Some (url_at fixtures_dict key)))
            (keys_of (select_date date_str schedule))).

End Notions.

(* ===================================================================== *)
(** * Properties *)
(* ===================================================================== *)

(** ** Strings *)

Module TextFacts.
Import Text Stated.

Lemma append_cons (c : ascii) (s t : string) : String c s +:+ t = String c (s +:+ t).
Proof. reflexivity. Qed.

Lemma append_nil (t : string) : "" +:+ t = t.
Proof. reflexivity. Qed.

Ltac str := repeat first [rewrite append_cons in * | rewrite append_nil in *].

Lemma append_assoc (a b c : string) : (a +:+ b) +:+ c = a +:+ (b +:+ c).
Proof. induction a as [|x a IH]; str; [done | by f_equal]. Qed.

Lemma lower_app (a b : string) : lower (a +:+ b) = lower a +:+ lower b.
Proof. induction a as [|c a IH]; str; [done|]. cbn [lower]. str. by f_equal. Qed.

Lemma digit_lower (c : ascii) : is_digit c = true -> lower_char c = c.
Proof.
  intros H. unfold lower_char.
  destruct (is_upper c) eqn:Hu; [|done].
  unfold is_digit, is_upper, between in *.
  apply andb_prop in H as [_ H]. apply andb_prop in Hu as [Hu _].
  apply Nat.leb_le in H, Hu. lia.
Qed.

Lemma lower_digits (m : string) : all_digits m = true -> lower m = m.
Proof.
  induction m as [|c m IH]; [done|]. cbn [all_digits lower].
  intros [Hc Hm]%andb_prop. by rewrite (digit_lower c Hc), IH.
Qed.

Lemma contains_cons_ne (x c : ascii) (needle s : string) :
  Ascii.eqb x c = false ->
  contains (String x needle) (String c s) = contains (String x needle) s.
Proof. intros H. cbn [contains starts_with]. by rewrite H. Qed.

(** A needle that starts with a letter is not found inside the digits. *)
Lemma contains_skip_digits (x : ascii) (needle m rest : string) :
  is_digit x = false -> all_digits m = true ->
  contains (String x needle) (m +:+ rest) = contains (String x needle) rest.
Proof.
  intros Hx. induction m as [|c m IH]; str; [done|].
  cbn [all_digits]. intros [Hc Hm]%andb_prop.
  rewrite contains_cons_ne; [auto|].
  destruct (Ascii.eqb_spec x c) as [->|]; congruence.
Qed.

Lemma span_until_token (stop : ascii) (tok post : string) :
  has_char stop tok = false ->
  span_until stop (tok +:+ String stop post) = (tok, String stop post).
Proof.
  induction tok as [|c tok IH]; str; cbn [has_char span_until].
  - by rewrite Ascii.eqb_refl.
  - intros [Hc Ht]%orb_false_elim. by rewrite Hc, (IH Ht).
Qed.

Lemma group_here_token (open stop : ascii) (tok post : string) :
  tok <> "" -> has_char stop tok = false ->
  group_here (String open "") stop (String open (tok +:+ String stop post)) = Some tok.
Proof.
  intros Hne Ht. unfold group_here. cbn [eat]. rewrite Ascii.eqb_refl.
  rewrite (span_until_token stop tok post Ht). by destruct tok.
Qed.

(** The group of the leftmost match is the token between the first opening
    character and the stop character that closes it. *)
Lemma search_group_token (open stop : ascii) (pre tok post : string) :
  has_char open pre = false -> tok <> "" -> has_char stop tok = false ->
  search_group (String open "") stop (pre +:+ String open (tok +:+ String stop post))
  = Some tok.
Proof.
  intros Hpre Hne Ht. induction pre as [|c pre IH]; str.
  - destruct tok as [|t tok]; [done|].
    cbn [search_group]. by rewrite (group_here_token open stop (String t tok) post).
  - cbn [has_char] in Hpre. apply orb_false_elim in Hpre as [Hc Hpre].
    cbn [search_group]. unfold group_here at 1. cbn [eat].
    rewrite Ascii.eqb_sym, Hc. auto.
Qed.

Lemma search_group_without (open stop : ascii) (text : string) :
  has_char open text = false -> search_group (String open "") stop text = None.
Proof.
  induction text as [|c text IH]; [done|].
  cbn [has_char]. intros [Hc H]%orb_false_elim.
  cbn [search_group]. unfold group_here at 1. cbn [eat].
  rewrite Ascii.eqb_sym, Hc. auto.
Qed.

End TextFacts.

(** ** The halting pattern *)

Module HaltingFacts.
Import Text Halting Stated TextFacts.

Lemma eat_slash (s r : string) : eat "/" s = Some r <-> s = String "/" r.
Proof.
  destruct s as [|c s]; cbn [eat]; [split; discriminate|].
  destruct (Ascii.eqb_spec "/" c) as [<-|Hne]; split; intros H; congruence.
Qed.

Lemma alnum_run_spec (n : nat) (s r : string) :
  alnum_run n s = Some r <->
  exists a, s = a +:+ r /\ String.length a = n /\ all_alnum a = true.
Proof.
  revert s. induction n as [|n IH]; intros s; cbn [alnum_run].
  - split.
    + intros [= ->]. by exists "".
    + intros (a & -> & Hl & _). destruct a; [done | discriminate].
  - destruct s as [|c s].
    + split; [discriminate|]. intros (a & Ha & Hl & _).
      destruct a; str; discriminate.
    + destruct (is_alnum c) eqn:Hc.
      * rewrite IH. split.
        -- intros (a & -> & Hl & Ha). exists (String c a). str.
           cbn [String.length all_alnum]. by rewrite Hc, Ha, Hl.
        -- intros (a & Hs & Hl & Ha). destruct a as [|c' a]; [discriminate|].
           str. cbn [String.length all_alnum] in *. injection Hs as <- ->.
           apply andb_prop in Ha as [_ Ha].
           exists a. split_and!; [done | lia | done].
      * split; [discriminate|]. intros (a & Hs & Hl & Ha).
        destruct a as [|c' a]; [discriminate|]. str. cbn [all_alnum] in Ha.
        injection Hs as <- ->. rewrite Hc in Ha. discriminate.
Qed.

Lemma bad_url_here_spec (s : string) :
  bad_url_here s = true <->
  exists a b post : string,
    s = "/" +:+ a +:+ "/" +:+ b +:+ "/" +:+ post
    /\ String.length a = 8%nat /\ String.length b = 8%nat
    /\ all_alnum a = true /\ all_alnum b = true.
Proof.
  unfold bad_url_here. split.
  - destruct (eat "/" s) as [s1|] eqn:E1; [|discriminate].
    destruct (alnum_run 8 s1) as [s2|] eqn:E2; [|discriminate].
    destruct (eat "/" s2) as [s3|] eqn:E3; [|discriminate].
    destruct (alnum_run 8 s3) as [s4|] eqn:E4; [|discriminate].
    destruct (eat "/" s4) as [s5|] eqn:E5; [|discriminate].
    intros _.
    apply eat_slash in E1, E3, E5.
    apply alnum_run_spec in E2 as (a & -> & Hla & Ha).
    apply alnum_run_spec in E4 as (b & -> & Hlb & Hb).
    subst. by exists a, b, s5.
  - intros (a & b & post & -> & Hla & Hlb & Ha & Hb).
    assert (E1 : forall x, eat "/" ("/" +:+ x) = Some x) by reflexivity.
    assert (E2 : alnum_run 8 (a +:+ "/" +:+ b +:+ "/" +:+ post)
                 = Some ("/" +:+ b +:+ "/" +:+ post))
      by (apply alnum_run_spec; eauto).
    assert (E4 : alnum_run 8 (b +:+ "/" +:+ post) = Some ("/" +:+ post))
      by (apply alnum_run_spec; eauto).
    by rewrite E1, E2, E1, E4, E1.
Qed.

Lemma search_spec (s : string) : BAD_URL_REGEX_search s = true <-> halting_shape s.
Proof.
  unfold halting_shape. induction s as [|c s IH].
  - split; [discriminate|].
    intros (pre & a & b & post & H & _). destruct pre; discriminate.
  - cbn [BAD_URL_REGEX_search]. rewrite orb_true_iff, bad_url_here_spec, IH. split.
    + intros [(a & b & post & H & Hr) | (pre & a & b & post & H & Hr)].
      * by exists "", a, b, post.
      * exists (String c pre), a, b, post. split; [|done]. str. by rewrite H.
    + intros (pre & a & b & post & H & Hr). destruct pre as [|c' pre]; str.
      * left. by exists a, b, post.
      * right. injection H as <- ->. by exists pre, a, b, post.
Qed.

(** *** White space

    No byte of a white space character is a slash. *)

Lemma space_not_slash (c : ascii) : is_space c = true -> Ascii.eqb c "/" = false.
Proof.
  intros H. destruct (Ascii.eqb_spec c "/") as [->|]; [|done].
  vm_compute in H. discriminate.
Qed.

Lemma high_not_slash (c : ascii) : (128 <= code c)%nat -> Ascii.eqb c "/" = false.
Proof.
  intros H. destruct (Ascii.eqb_spec c "/") as [->|]; [|done].
  vm_compute in H. lia.
Qed.

Lemma space2_bytes (a b : ascii) :
  is_space2 a b = true -> (128 <= code a)%nat /\ (128 <= code b)%nat.
Proof.
  unfold is_space2. intros [Ha Hb]%andb_prop. apply Nat.eqb_eq in Ha.
  apply orb_prop in Hb as [Hb|Hb]; apply Nat.eqb_eq in Hb; lia.
Qed.

Lemma space3_bytes (a b c : ascii) :
  is_space3 a b c = true ->
  (128 <= code a)%nat /\ (128 <= code b)%nat /\ (128 <= code c)%nat.
Proof.
  unfold is_space3, between. intros H.
  repeat match goal with
         | H : (_ || _) = true |- _ => apply orb_prop in H as [H|H]
         | H : (_ && _) = true |- _ => let H' := fresh H in apply andb_prop in H as [H' H]
         | H : Nat.eqb _ _ = true |- _ => apply Nat.eqb_eq in H
         | H : Nat.leb _ _ = true |- _ => apply Nat.leb_le in H
         end; lia.
Qed.

(** What [lstrip] takes away holds no slash. *)
Lemma lstrip_split (s : string) :
  exists w, s = w +:+ lstrip s /\ has_char "/" w = false.
Proof.
  assert (H : forall n s, (String.length s <= n)%nat ->
                    exists w, s = w +:+ lstrip s /\ has_char "/" w = false).
  { clear s. induction n as [|n IH]; intros s Hn.
    - destruct s; [by exists ""|cbn in Hn; lia].
    - destruct s as [|a s1]; [by exists ""|]. cbn [String.length] in Hn.
      cbn [lstrip]. destruct (is_space a) eqn:Ha.
      { destruct (IH s1 ltac:(lia)) as (w & Hs & Hw). exists (String a w). str.
        split; [by f_equal|]. cbn [has_char]. by rewrite (space_not_slash a Ha). }
      destruct s1 as [|b s2]; [by exists ""|]. cbn [String.length] in Hn.
      destruct (is_space2 a b) eqn:Hab.
      { destruct (IH s2 ltac:(lia)) as (w & Hs & Hw).
        destruct (space2_bytes a b Hab) as [Ha' Hb'].
        exists (String a (String b w)). str. split; [by do 2 f_equal|].
        cbn [has_char]. by rewrite (high_not_slash a Ha'), (high_not_slash b Hb'). }
      destruct s2 as [|c s3]; [by exists ""|]. cbn [String.length] in Hn.
      destruct (is_space3 a b c) eqn:Habc; [|by exists ""].
      destruct (IH s3 ltac:(lia)) as (w & Hs & Hw).
      destruct (space3_bytes a b c Habc) as (Ha' & Hb' & Hc').
      exists (String a (String b (String c w))). str. split; [by do 3 f_equal|].
      cbn [has_char].
      by rewrite (high_not_slash a Ha'), (high_not_slash b Hb'), (high_not_slash c Hc'). }
  by apply (H (String.length s)).
Qed.

Lemma blank_no_slash (w : string) : blank w = true -> has_char "/" w = false.
Proof.
  unfold blank. destruct (lstrip_split w) as (w' & Hs & Hw).
  destruct (lstrip w); [|done]. intros _. rewrite Hs.
  replace (w' +:+ "") with w'; [done|]. clear. induction w' as [|c w' IH]; str; [done|].
  by rewrite <- IH.
Qed.

(** The ASCII white space is white space. *)
Lemma all_space_blank (w : string) : all_space w = true -> blank w = true.
Proof.
  unfold blank. induction w as [|c w IH]; [done|]. cbn [all_space lstrip].
  intros [Hc Hw]%andb_prop. rewrite Hc. by apply IH.
Qed.

Lemma search_without_slash (w s : string) :
  has_char "/" w = false -> BAD_URL_REGEX_search (w +:+ s) = BAD_URL_REGEX_search s.
Proof.
  induction w as [|c w IH]; str; [done|]. cbn [has_char].
  intros [Hc Hw]%orb_false_elim. rewrite <- (IH Hw). cbn [BAD_URL_REGEX_search].
  unfold bad_url_here at 1. cbn [eat]. by rewrite Ascii.eqb_sym, Hc.
Qed.

Lemma search_lstrip (s : string) :
  BAD_URL_REGEX_search (lstrip s) = BAD_URL_REGEX_search s.
Proof.
  destruct (lstrip_split s) as (w & Hs & Hw). rewrite Hs at 2.
  by rewrite search_without_slash.
Qed.

Lemma rstrip_decomp (s : string) :
  exists w, s = rstrip s +:+ w /\ blank w = true.
Proof.
  induction s as [|c s (w & Hs & Hw)]; [by exists ""|].
  cbn [rstrip]. destruct (blank (String c s)) eqn:Hb.
  - by exists (String c s).
  - exists w. split; [|done]. str. by f_equal.
Qed.

Lemma has_slash_app (p q : string) : has_char "/" (p +:+ "/" +:+ q) = true.
Proof.
  induction p as [|c p IH]; str; [done|].
  cbn [has_char]. rewrite IH. apply orb_true_r.
Qed.

(** Whitespace at the end never holds the closing slash of a match. *)
Lemma split_before_spaces (p x w post : string) :
  has_char "/" w = false ->
  x +:+ w = (p +:+ "/") +:+ post ->
  exists post', post = post' +:+ w /\ x = (p +:+ "/") +:+ post'.
Proof.
  intros Hw. revert x. induction p as [|c p IH]; intros x H.
  - destruct x as [|c' x]; str.
    + subst w. discriminate.
    + injection H as -> <-. by exists x.
  - destruct x as [|c' x]; str.
    + subst w. cbn [has_char] in Hw. rewrite append_assoc, has_slash_app in Hw.
      by rewrite orb_true_r in Hw.
    + injection H as -> Hx. destruct (IH x Hx) as (post' & -> & ->).
      by exists post'.
Qed.

Lemma halting_shape_trailing (x w : string) :
  blank w = true -> halting_shape (x +:+ w) <-> halting_shape x.
Proof.
  intros Hw%blank_no_slash. unfold halting_shape. split.
  - intros (pre & a & b & post & H & Hr).
    assert (H' : x +:+ w = ((pre +:+ "/" +:+ a +:+ "/" +:+ b) +:+ "/") +:+ post)
      by (rewrite H; by rewrite !append_assoc).
    destruct (split_before_spaces _ _ _ _ Hw H') as (post' & -> & ->).
    exists pre, a, b, post'. split; [|done]. by rewrite !append_assoc.
  - intros (pre & a & b & post & -> & Hr).
    exists pre, a, b, (post +:+ w). split; [|done]. by rewrite !append_assoc.
Qed.

(** Trimming the URL does not change the verdict. *)
Lemma search_strip (s : string) :
  BAD_URL_REGEX_search (strip s) = true <-> halting_shape s.
Proof.
  unfold strip. rewrite search_spec.
  destruct (rstrip_decomp (lstrip s)) as (w & Hs & Hw).
  rewrite <- (halting_shape_trailing _ w Hw), <- Hs.
  by rewrite <- search_spec, search_lstrip, search_spec.
Qed.

(** [strip] on the white space of one, two and three bytes: the space,
    U+00A0, U+2003 and U+3000 around a code. *)
Example strip_examples :
  strip "  bc7dc64d  " = "bc7dc64d"
  /\ strip (String "194" (String "160" ("bc7dc64d" +:+ String "194" (String "160" ""))))
     = "bc7dc64d"
  /\ strip (String "226" (String "128" (String "131" ("a b"
              +:+ String "227" (String "128" (String "128" " "))))))
     = "a b"
  /\ strip (String "226" (String "128" (String "153" "x")))
     = String "226" (String "128" (String "153" "x")).
Proof. by vm_compute. Qed.

(** C8, as amended. [is_bad_url] holds of a URL exactly when the string
    contains a slash, eight alphanumeric characters, a slash, eight
    alphanumeric characters and a closing slash: two consecutive
    8-character alphanumeric segments, each of them between two slashes.
    [None] and the empty string are not halting. *)
Theorem is_bad_url_shape (url_text : option string) :
  is_bad_url url_text = true <->
  exists u, url_text = Some u /\ halting_shape u.
Proof.
  destruct url_text as [u|]; cbn [is_bad_url].
  - destruct u as [|c u].
    + split; [discriminate|]. intros (u & [= <-] & pre & a & b & post & H & _).
      destruct pre; discriminate.
    + rewrite search_strip. split; [eauto|]. by intros (u' & [= <-] & H).
  - split; [discriminate|]. by intros (u & H & _).
Qed.

(** C8, as stated, fails. The path of the first URL has two consecutive
    8-character alphanumeric segments, and the URL is not halting: no slash
    closes the second segment. The path of the second URL has only one such
    segment, and the URL is halting: the search is over the whole string,
    and the host is between two slashes. *)
Lemma is_bad_url_not_path_segments :
  (two_consecutive8 (path_segments "https://fbref.com/en/matches/AbCdEfGh/IjKlMnOp") = true
   /\ is_bad_url (Some "https://fbref.com/en/matches/AbCdEfGh/IjKlMnOp") = false)
  /\ (two_consecutive8 (path_segments "https://abcdefgh/ijklmnop/x") = false
      /\ is_bad_url (Some "https://abcdefgh/ijklmnop/x") = true).
Proof. by vm_compute. Qed.

(** The examples of section 8. *)
Example is_bad_url_examples :
  is_bad_url (Some "https://fbref.com/en/stathead/matchup/teams/AbCdEfGh/IjKlMnOp/x") = true
  /\ is_bad_url (Some "https://fbref.com/en/matches/AbCdEfGh/Home-Away") = false
  /\ is_bad_url (Some "https://fbref.com/en/matches/AbCdEfGh/IjKlMnO/x") = false
  /\ is_bad_url (Some "") = false
  /\ is_bad_url None = false.
Proof. by vm_compute. Qed.

End HaltingFacts.

(** ** The starter classifier *)

Module StarterFacts.
Import Text Data Players Stated TextFacts.

(** C1. [assign_starter_flag] returns for every record one of the two
    flags, decided by the minutes and the lowered tag alone: "yes" below 90
    minutes with "out" in the tag; "no" below 90 minutes with "in" and no
    "out" in the tag; "yes" from 90 minutes on with the tag "n/a"; "no" in
    every other case, that is from 90 minutes on with any other tag, and
    below 90 minutes with no "out" in the tag. *)
Theorem assign_starter_flag_cases (pv : pdict) :
  let mins := minutes pv in
  let sub_info := lower (sub_in_out pv) in
  (assign_starter_flag pv = "yes" \/ assign_starter_flag pv = "no")
  /\ (mins < 90 -> contains "out" sub_info = true -> assign_starter_flag pv = "yes")
  /\ (mins < 90 -> contains "in" sub_info = true -> contains "out" sub_info = false ->
      assign_starter_flag pv = "no")
  /\ (90 <= mins -> sub_info = "n/a" -> assign_starter_flag pv = "yes")
  /\ (90 <= mins -> sub_info <> "n/a" -> assign_starter_flag pv = "no")
  /\ (mins < 90 -> contains "out" sub_info = false -> assign_starter_flag pv = "no").
Proof.
  unfold assign_starter_flag, starter_of. cbv zeta.
  destruct (contains "out" (lower (sub_in_out pv))) eqn:Hout;
  destruct (contains "in" (lower (sub_in_out pv))) eqn:Hin;
  destruct (Z.ltb_spec (minutes pv) 90); destruct (Z.leb_spec 90 (minutes pv)); try lia;
  destruct (String.eqb_spec (lower (sub_in_out pv)) "n/a");
  cbn [andb negb]; repeat split; intros; try lia; try congruence; auto.
Qed.

Lemma lower_render (t : SubstitutionTag) :
  tag_minute_ok t ->
  lower (render t) =
  match t with
  | TagNone => "n/a"
  | TagIn m => "in | " +:+ m +:+ prime_mark
  | TagOut m => "out | " +:+ m +:+ prime_mark
  end.
Proof.
  destruct t as [|m|m]; [done|..]; intros Hm; unfold render;
    rewrite !lower_app, (lower_digits m Hm); reflexivity.
Qed.

(** On the three tags the substitution step writes, the flag is the one of
    [classify]. *)
Lemma starter_of_render (mins : Z) (t : SubstitutionTag) :
  tag_minute_ok t -> starter_of mins (render t) = flag (classify mins t).
Proof.
  intros Hm. unfold starter_of. cbv zeta. rewrite (lower_render t Hm).
  destruct t as [|m|m]; unfold classify, flag.
  - change (contains "out" "n/a") with false. change (contains "in" "n/a") with false.
    rewrite !andb_false_r. cbn [andb]. change ("n/a" =? "n/a")%string with true.
    rewrite andb_true_r. by destruct (90 <=? mins).
  - str. rewrite !contains_cons_ne by reflexivity.
    rewrite (contains_skip_digits "o" "ut" m prime_mark) by done.
    change (contains "out" prime_mark) with false.
    rewrite andb_false_r. cbn [negb]. rewrite andb_true_r.
    assert (Hin : forall s, contains "in" (String "i" (String "n" s)) = true) by reflexivity.
    rewrite Hin, andb_true_r.
    destruct (Z.ltb_spec mins 90); [done|].
    assert (Hne : forall s, (String "i" s =? "n/a")%string = false) by reflexivity.
    by rewrite Hne, andb_false_r.
  - str.
    assert (Hout : forall s, contains "out" (String "o" (String "u" (String "t" s))) = true)
      by reflexivity.
    rewrite Hout, andb_true_r. cbn [negb]. rewrite !andb_false_r.
    by destruct (Z.ltb_spec mins 90).
Qed.

(** The examples of section 8. *)
Example starter_of_examples :
  starter_of 67 (render (TagOut "72")) = "yes"
  /\ starter_of 90 (render TagNone) = "yes"
  /\ starter_of 23 (render (TagIn "70")) = "no"
  /\ starter_of 90 (render (TagIn "80")) = "no"
  /\ starter_of 0 (render TagNone) = "no".
Proof. by vm_compute. Qed.

End StarterFacts.

(** ** Team identity and metadata *)

Module ResolverFacts.
Import Text Data Resolver Metadata Stated TextFacts.

Lemma elements_one (X : gset string) (x : string) : elements X = [x] -> X = {[x]}.
Proof.
  intros H. apply set_eq. intros y.
  rewrite <- elem_of_elements, H, list_elem_of_singleton. by rewrite elem_of_singleton.
Qed.

Lemma size_one_elements (X : gset string) :
  size X = 1%nat -> exists x, elements X = [x].
Proof.
  unfold size, set_size. cbn.
  destruct (elements X) as [|x [|y l]]; cbn; intros H; try discriminate.
  by exists x.
Qed.

Lemma size_not_one_elements (X : gset string) :
  size X <> 1%nat -> match elements X with [_] => False | _ => True end.
Proof.
  unfold size, set_size. cbn.
  by destruct (elements X) as [|x [|y l]].
Qed.

(** C5. When the home code is resolved and the away code is not: if the
    discovered codes without the home code are exactly one code, that code
    becomes the away code and nothing is logged; if they are not exactly
    one, the away code stays the sentinel and the warning is logged. The
    same with the sides exchanged. When both codes or neither are resolved
    the step changes nothing. *)
Theorem fallback_complementary (ids : gset string) (home_id away_id : string) :
  (home_id <> UNRESOLVED -> away_id = UNRESOLVED ->
     (size (ids ∖ {[home_id]}) = 1%nat ->
        exists x, ids ∖ {[home_id]} = {[x]}
                  /\ fallback ids home_id away_id = (home_id, x, []))
     /\ (size (ids ∖ {[home_id]}) <> 1%nat ->
        fallback ids home_id away_id
        = (home_id, UNRESOLVED, [FallbackNotPossibleAway (ids ∖ {[home_id]})])))
  /\ (away_id <> UNRESOLVED -> home_id = UNRESOLVED ->
     (size (ids ∖ {[away_id]}) = 1%nat ->
        exists x, ids ∖ {[away_id]} = {[x]}
                  /\ fallback ids home_id away_id = (x, away_id, []))
     /\ (size (ids ∖ {[away_id]}) <> 1%nat ->
        fallback ids home_id away_id
        = (UNRESOLVED, away_id, [FallbackNotPossibleHome (ids ∖ {[away_id]})])))
  /\ ((home_id = UNRESOLVED <-> away_id = UNRESOLVED) ->
        fallback ids home_id away_id = (home_id, away_id, [])).
Proof.
  unfold fallback. split_and!.
  - intros Hh ->. rewrite bool_decide_true by done. rewrite bool_decide_true by done.
    cbn [andb]. split.
    + intros [x Hx]%size_one_elements. exists x. rewrite Hx.
      split; [by apply elements_one | done].
    + intros Hs%size_not_one_elements.
      by destruct (elements (ids ∖ {[home_id]})) as [|x [|y l]].
  - intros Ha ->. rewrite (bool_decide_false (UNRESOLVED <> UNRESOLVED)) by tauto.
    cbn [andb]. rewrite bool_decide_true by done. rewrite bool_decide_true by done.
    cbn [andb]. split.
    + intros [x Hx]%size_one_elements. exists x. rewrite Hx.
      split; [by apply elements_one | done].
    + intros Hs%size_not_one_elements.
      by destruct (elements (ids ∖ {[away_id]})) as [|x [|y l]].
  - intros Hiff. destruct (decide (home_id = UNRESOLVED)) as [Hh|Hh].
    + rewrite (bool_decide_false (home_id <> _)) by tauto. cbn [andb].
      rewrite (bool_decide_false (away_id <> _)) by tauto. done.
    + rewrite (bool_decide_false (away_id = _)) by tauto.
      rewrite andb_false_r.
      rewrite (bool_decide_false (home_id = _)) by tauto.
      by rewrite andb_false_r.
Qed.

(** The two examples of section 8: codes A and B with the home side
    resolved to A give B to the away side; codes A, B and C leave the
    sentinel and log the warning. *)
Lemma fallback_complementary_witness :
  (exists x, ({[ "A"; "B" ]} : gset string) ∖ {[ "A" ]} = {[x]}
             /\ fallback {[ "A"; "B" ]} "A" UNRESOLVED = ("A", x, []))
  /\ fallback {[ "A"; "B"; "C" ]} "A" UNRESOLVED
     = ("A", UNRESOLVED, [FallbackNotPossibleAway ({[ "A"; "B"; "C" ]} ∖ {[ "A" ]})]).
Proof.
  split.
  - apply (proj1 (fallback_complementary {[ "A"; "B" ]} "A" UNRESOLVED));
      [by vm_compute | reflexivity | by vm_compute].
  - apply (proj1 (fallback_complementary {[ "A"; "B"; "C" ]} "A" UNRESOLVED));
      [by vm_compute | reflexivity | by vm_compute].
Defined.

Example fallback_examples :
  fallback {[ "A"; "B" ]} "A" UNRESOLVED = ("A", "B", [])
  /\ fallback {[ "A"; "B" ]} UNRESOLVED "B" = ("A", "B", [])
  /\ snd (fallback {[ "A"; "B"; "C" ]} "A" UNRESOLVED)
     = [FallbackNotPossibleAway {[ "B"; "C" ]}]
  /\ snd (fallback {[ "A" ]} "A" UNRESOLVED) = [FallbackNotPossibleAway ∅].
Proof. by vm_compute. Qed.

Lemma formation_of_token (pre tok post : string) :
  has_char "(" pre = false -> tok <> "" -> has_char ")" tok = false ->
  formation_of (pre +:+ "(" +:+ tok +:+ ")" +:+ post) = tok.
Proof.
  intros. unfold formation_of. str.
  by rewrite (search_group_token "(" ")" pre tok post).
Qed.

Lemma formation_of_plain (text : string) :
  has_char "(" text = false -> formation_of text = "Unknown".
Proof.
  intros H. unfold formation_of. by rewrite (search_group_without "(" ")" text H).
Qed.

(** C9, as amended. The score is "H : A" from the two score elements when
    exactly two are found, and "0 : 0" otherwise. A side's possession is
    the text of its emphasised element in the two-cell possession row, and
    "0%" without that element or without such a row. The formations are
    read only when both lineup headers are there: each is then the first
    parenthesised token of its header, or "Unknown" without one; when
    either header is missing both formations are "Unknown". *)
Theorem metadata_defaults (doc : document) (sb : scorebox_div) :
  (forall h a, score_divs sb = [h; a] -> final_score sb = h +:+ " : " +:+ a)
  /\ (length (score_divs sb) <> 2%nat -> final_score sb = "0 : 0")
  /\ (forall s_home s_away, possession_tds doc = Some [s_home; s_away] ->
        possession doc = (default "0%" s_home, default "0%" s_away))
  /\ ((forall tds, possession_tds doc = Some tds -> length tds <> 2%nat) ->
        possession doc = ("0%", "0%"))
  /\ (forall home_text away_text,
        lineup_a doc ≫= formation_th = Some home_text ->
        lineup_b doc ≫= formation_th = Some away_text ->
        formations doc = (formation_of home_text, formation_of away_text))
  /\ (lineup_a doc ≫= formation_th = None \/ lineup_b doc ≫= formation_th = None ->
        formations doc = ("Unknown", "Unknown"))
  /\ (forall pre tok post,
        has_char "(" pre = false -> tok <> "" -> has_char ")" tok = false ->
        formation_of (pre +:+ "(" +:+ tok +:+ ")" +:+ post) = tok)
  /\ (forall text, has_char "(" text = false -> formation_of text = "Unknown").
Proof.
  split_and!.
  - intros h a H. unfold final_score. by rewrite H.
  - intros H. unfold final_score.
    by destruct (score_divs sb) as [|h [|a [|x l]]].
  - intros s_home s_away H. unfold possession. by rewrite H.
  - intros H. unfold possession.
    destruct (possession_tds doc) as [[|h [|a [|x l]]]|]; try done.
    by destruct (H _ eq_refl).
  - intros home_text away_text Ha Hb. unfold formations.
    destruct (lineup_a doc) as [la|]; [|done]. destruct (lineup_b doc) as [lb|]; [|done].
    cbn in Ha, Hb. by rewrite Ha, Hb.
  - intros H. unfold formations.
    destruct (lineup_a doc) as [la|]; [|done]. destruct (lineup_b doc) as [lb|]; [|done].
    cbn in H. destruct (formation_th la), (formation_th lb); try done; by destruct H.
  - apply formation_of_token.
  - apply formation_of_plain.
Qed.

End ResolverFacts.

(** ** Statistics tables *)

Module TablesFacts.
Import Text Data Resolver Players Stated.

Section Tables.

Variable py_int : string -> option Z.
Variable py_float : string -> option Qc.
Variables home_team_id away_team_id : string.

Lemma process_table_foreign (st : gmap string pdict * gmap string pdict) (tbl : stats_table) :
  of_resolved_side home_team_id away_team_id tbl = false ->
  process_table py_int py_float home_team_id away_team_id st tbl = st.
Proof.
  unfold of_resolved_side, process_table.
  destruct (table_code tbl) as [code_|]; [|done].
  by intros [-> ->]%orb_false_elim.
Qed.

Lemma rows_home_frame (rows_ : list stat_row) (st : gmap string pdict * gmap string pdict) :
  snd (foldl (process_row py_int py_float true) st rows_) = snd st.
Proof.
  revert st. induction rows_ as [|row_ rows_ IH]; intros st; [done|].
  cbn [foldl]. rewrite IH. unfold process_row.
  by destruct (player_link row_).
Qed.

Lemma rows_away_frame (rows_ : list stat_row) (st : gmap string pdict * gmap string pdict) :
  fst (foldl (process_row py_int py_float false) st rows_) = fst st.
Proof.
  revert st. induction rows_ as [|row_ rows_ IH]; intros st; [done|].
  cbn [foldl]. rewrite IH. unfold process_row.
  by destruct (player_link row_).
Qed.

(** A table changes the dictionary of one side only. *)
Lemma process_table_one_side (st : gmap string pdict * gmap string pdict) (tbl : stats_table) :
  (table_code tbl = Some home_team_id ->
     snd (process_table py_int py_float home_team_id away_team_id st tbl) = snd st)
  /\ (table_code tbl <> Some home_team_id ->
     fst (process_table py_int py_float home_team_id away_team_id st tbl) = fst st).
Proof.
  unfold process_table. destruct (table_code tbl) as [code_|]; [|done].
  destruct (String.eqb_spec code_ home_team_id) as [->|Hne].
  - split; [|done]. intros _. destruct (table_tbody tbl); [apply rows_home_frame | done].
  - split; [congruence|]. intros _.
    destruct (String.eqb code_ away_team_id); [|done].
    destruct (table_tbody tbl); [apply rows_away_frame | done].
Qed.

Lemma tables_filter (tables : list stats_table) (st : gmap string pdict * gmap string pdict) :
  foldl (process_table py_int py_float home_team_id away_team_id) st tables
  = foldl (process_table py_int py_float home_team_id away_team_id) st
      (List.filter (of_resolved_side home_team_id away_team_id) tables).
Proof.
  revert st. induction tables as [|tbl tables IH]; intros st; [done|].
  cbn [foldl List.filter].
  destruct (of_resolved_side home_team_id away_team_id tbl) eqn:H.
  - cbn [foldl]. apply IH.
  - rewrite (process_table_foreign st tbl H). apply IH.
Qed.

Lemma update_player_dom (row_ : stat_row) (pidv pname_ pid : string) (pmap : gmap string pdict) :
  is_Some (update_player py_int py_float row_ pidv pname_ pmap !! pid)
  <-> pid = pidv \/ is_Some (pmap !! pid).
Proof.
  unfold update_player. rewrite lookup_alter_is_Some.
  destruct (pmap !! pidv) eqn:E.
  - split; [auto|]. intros [->|H]; [by rewrite E | done].
  - rewrite lookup_insert_is_Some. destruct (decide (pidv = pid)); naive_solver.
Qed.

Lemma rows_dom (is_home : bool) (rows_ : list stat_row)
    (st : gmap string pdict * gmap string pdict) (pid : string) :
  is_Some ((if is_home then fst else snd)
             (foldl (process_row py_int py_float is_home) st rows_) !! pid) ->
  is_Some ((if is_home then fst else snd) st !! pid)
  \/ exists row_, row_ ∈ rows_ /\ row_pid row_ = Some pid.
Proof.
  revert st. induction rows_ as [|row_ rows_ IH]; intros st; [by left|].
  cbn [foldl]. intros [H|(r & Hr & Hp)]%IH.
  - assert (Hin : row_ ∈ row_ :: rows_) by apply list_elem_of_here.
    unfold process_row in H. unfold row_pid.
    destruct (player_link row_) as [a_|] eqn:Ha; [|by left].
    destruct is_home; cbn [fst snd] in H;
      apply update_player_dom in H as [->|H]; auto;
      right; exists row_; by rewrite Ha.
  - right. exists r. split; [by apply list_elem_of_further | done].
Qed.

Lemma listed_under_further (c p : string) (tbl : stats_table) (tables : list stats_table) :
  listed_under c tables p -> listed_under c (tbl :: tables) p.
Proof.
  intros (t & rs & r & Ht & Hrest). exists t, rs, r.
  split; [by apply list_elem_of_further | done].
Qed.

Lemma tables_dom (tables : list stats_table)
    (st : gmap string pdict * gmap string pdict) (pid : string) :
  (is_Some (fst (foldl (process_table py_int py_float home_team_id away_team_id) st tables)
              !! pid) ->
     is_Some (fst st !! pid) \/ listed_under home_team_id tables pid)
  /\ (is_Some (snd (foldl (process_table py_int py_float home_team_id away_team_id) st tables)
              !! pid) ->
     is_Some (snd st !! pid)
     \/ (away_team_id <> home_team_id /\ listed_under away_team_id tables pid)).
Proof.
  revert st. induction tables as [|tbl tables IH]; intros st; [by split; left|].
  cbn [foldl].
  destruct (IH (process_table py_int py_float home_team_id away_team_id st tbl))
    as [IHh IHa].
  assert (Hin : tbl ∈ tbl :: tables) by apply list_elem_of_here.
  split.
  - intros [H|H]%IHh; [|right; by apply listed_under_further].
    unfold process_table in H.
    destruct (table_code tbl) as [code_|] eqn:Hc; [|by left].
    destruct (String.eqb_spec code_ home_team_id) as [->|Hne].
    + destruct (table_tbody tbl) as [rows_|] eqn:Hb; [|by left].
      apply (rows_dom true) in H as [H|(r & Hr & Hp)]; [by left|].
      right. by exists tbl, rows_, r.
    + destruct (String.eqb code_ away_team_id); [|by left].
      destruct (table_tbody tbl) as [rows_|]; [|by left].
      rewrite rows_away_frame in H. by left.
  - intros [H|[Hne H]]%IHa; [|right; split; [done | by apply listed_under_further]].
    unfold process_table in H.
    destruct (table_code tbl) as [code_|] eqn:Hc; [|by left].
    destruct (String.eqb_spec code_ home_team_id) as [->|Hne].
    + destruct (table_tbody tbl) as [rows_|]; [|by left].
      rewrite rows_home_frame in H. by left.
    + destruct (String.eqb_spec code_ away_team_id) as [->|Hna]; [|by left].
      destruct (table_tbody tbl) as [rows_|] eqn:Hb; [|by left].
      apply (rows_dom false) in H as [H|(r & Hr & Hp)]; [by left|].
      right. split; [done|]. by exists tbl, rows_, r.
Qed.

(** C10. A table whose code is neither the home code nor the away code
    leaves both dictionaries as they are, so the result of the loop is the
    result over the tables of the two resolved sides alone; a table changes
    the dictionary of one side only; and every record of the result is the
    player of a row of a table that carries the code of its side, a record
    of the away dictionary only when the away code is not the home code. *)
Theorem foreign_tables_ignored (tables : list stats_table) :
  (forall st tbl, table_code tbl <> Some home_team_id ->
                  table_code tbl <> Some away_team_id ->
                  process_table py_int py_float home_team_id away_team_id st tbl = st)
  /\ parse_stats_tables py_int py_float home_team_id away_team_id tables
     = parse_stats_tables py_int py_float home_team_id away_team_id
         (List.filter (of_resolved_side home_team_id away_team_id) tables)
  /\ (forall st tbl,
        (table_code tbl = Some home_team_id ->
           snd (process_table py_int py_float home_team_id away_team_id st tbl) = snd st)
        /\ (table_code tbl <> Some home_team_id ->
           fst (process_table py_int py_float home_team_id away_team_id st tbl) = fst st))
  /\ (forall pid,
        (is_Some (fst (parse_stats_tables py_int py_float home_team_id away_team_id tables)
                    !! pid) ->
           listed_under home_team_id tables pid)
        /\ (is_Some (snd (parse_stats_tables py_int py_float home_team_id away_team_id tables)
                    !! pid) ->
           away_team_id <> home_team_id /\ listed_under away_team_id tables pid)).
Proof.
  split_and!.
  - intros st tbl Hh Ha. apply process_table_foreign. unfold of_resolved_side.
    destruct (table_code tbl) as [code_|]; [|done].
    destruct (String.eqb_spec code_ home_team_id); [congruence|].
    by destruct (String.eqb_spec code_ away_team_id); [congruence|].
  - unfold parse_stats_tables. apply tables_filter.
  - apply process_table_one_side.
  - intros pid. unfold parse_stats_tables.
    destruct (tables_dom tables (∅, ∅) pid) as [Hh Ha]. split.
    + intros [H|H]%Hh; [|done]. cbn [fst] in H. rewrite lookup_empty in H.
      by destruct H.
    + intros [H|H]%Ha; [|done]. cbn [snd] in H. rewrite lookup_empty in H.
      by destruct H.
Qed.

(** *** The code of a record is its key *)

Lemma populate_stats_id (row_ : stat_row) (pv : pdict) :
  player_id (populate_stats py_int py_float row_ pv) = player_id pv.
Proof.
  unfold populate_stats. generalize player_stat_map as l. intros l.
  revert pv. induction l as [|[fbref_stat dbcol] l IH]; intros pv; [done|].
  cbn [foldl]. rewrite IH.
  destruct (find_td fbref_stat (stat_cells row_)); [|done].
  by destruct (String.eqb fbref_stat "sca").
Qed.

Lemma populate_position_id (row_ : stat_row) (pv : pdict) :
  player_id (populate_position row_ pv) = player_id pv.
Proof.
  unfold populate_position.
  by destruct (find_td "position" (stat_cells row_)) as [[|c s]|].
Qed.

Lemma populate_minutes_id (row_ : stat_row) (pv : pdict) :
  player_id (populate_minutes py_int row_ pv) = player_id pv.
Proof.
  unfold populate_minutes. by destruct (find_td "minutes" (stat_cells row_)).
Qed.

Lemma well_keyed_alter (f : pdict -> pdict) (pid : string) (pmap : gmap string pdict) :
  (forall pv, player_id (f pv) = player_id pv) ->
  well_keyed pmap -> well_keyed (alter f pid pmap).
Proof.
  intros Hf Hk p pv. rewrite lookup_alter. case_decide as Hp.
  - subst p. destruct (pmap !! pid) as [pv0|] eqn:E; [|done].
    intros [= <-]. rewrite Hf. by apply Hk.
  - apply Hk.
Qed.

Lemma well_keyed_update_player (row_ : stat_row) (pidv pname_ : string)
    (pmap : gmap string pdict) :
  well_keyed pmap -> well_keyed (update_player py_int py_float row_ pidv pname_ pmap).
Proof.
  intros Hk. unfold update_player. apply well_keyed_alter.
  - intros pv. by rewrite populate_minutes_id, populate_position_id, populate_stats_id.
  - destruct (pmap !! pidv); [done|].
    intros p pv. rewrite lookup_insert. case_decide; [|apply Hk].
    by intros [= <-]; subst.
Qed.

Lemma well_keyed_tables (tables : list stats_table) :
  well_keyed (fst (parse_stats_tables py_int py_float home_team_id away_team_id tables))
  /\ well_keyed (snd (parse_stats_tables py_int py_float home_team_id away_team_id tables)).
Proof.
  unfold parse_stats_tables.
  assert (Hrows : forall is_home rows_ st,
             well_keyed (fst st) /\ well_keyed (snd st) ->
             well_keyed (fst (foldl (process_row py_int py_float is_home) st rows_))
             /\ well_keyed (snd (foldl (process_row py_int py_float is_home) st rows_))).
  { intros is_home rows_. induction rows_ as [|row_ rows_ IH]; intros st [H1 H2]; [done|].
    cbn [foldl]. apply IH. unfold process_row.
    destruct (player_link row_); [|done].
    destruct is_home; cbn [fst snd]; split; try done;
      by apply well_keyed_update_player. }
  assert (Htables : forall st,
             well_keyed (fst st) /\ well_keyed (snd st) ->
             well_keyed (fst (foldl (process_table py_int py_float home_team_id away_team_id)
                                    st tables))
             /\ well_keyed (snd (foldl (process_table py_int py_float home_team_id
                                          away_team_id) st tables))).
  { induction tables as [|tbl tables IH]; intros st Hst; [done|].
    cbn [foldl]. apply IH. unfold process_table.
    destruct (table_code tbl); [|done].
    destruct (String.eqb _ home_team_id).
    - destruct (table_tbody tbl); [by apply Hrows | done].
    - destruct (String.eqb _ away_team_id); [|done].
      destruct (table_tbody tbl); [by apply Hrows | done]. }
  apply Htables. cbn [fst snd]. by split; intros p pv H; rewrite lookup_empty in H.
Qed.

End Tables.

End TablesFacts.

(** ** Substitutions *)

Module SubstitutionFacts.
Import Text Data Resolver Players Stated.

Lemma tag_player_lookup (pid : option string) (tag : string) (pmap : gmap string pdict)
    (p : string) :
  tag_player pid tag pmap !! p
  = if bool_decide (pid = Some p) then set_sub_in_out tag <$> pmap !! p else pmap !! p.
Proof.
  unfold tag_player. destruct pid as [id|].
  - rewrite lookup_alter. case_decide; subst.
    + by rewrite bool_decide_true.
    + rewrite bool_decide_false; [done | congruence].
  - by rewrite bool_decide_false.
Qed.

(** C6, as amended. An event that is a substitution with a side marker
    and a detail block that has both player links adds one to the counter
    of that side and leaves the other side alone; a player of that side is
    tagged "Out | minute" when the outgoing link resolves to its code,
    else "In | minute" when the incoming link does, each link on its own:
    the counter does not wait for either code to resolve or to be a known
    player. Every other event leaves the state as it is. *)
Theorem substitution_event_effect (st : subs_state) (ev : event_div) :
  (counted ev = None -> process_event st ev = st)
  /\ (forall s href_in href_out,
        counted ev = Some (s, href_in, href_out) ->
        let st' := process_event st ev in
        let tag_in := "In | " +:+ event_minute ev +:+ prime_mark in
        let tag_out := "Out | " +:+ event_minute ev +:+ prime_mark in
        subs_of s st' = subs_of s st + 1
        /\ subs_of (other s) st' = subs_of (other s) st
        /\ players_of (other s) st' = players_of (other s) st
        /\ forall p,
             players_of s st' !! p
             = if bool_decide (player_code href_out = Some p)
               then set_sub_in_out tag_out <$> players_of s st !! p
               else if bool_decide (player_code href_in = Some p)
                    then set_sub_in_out tag_in <$> players_of s st !! p
                    else players_of s st !! p).
Proof.
  unfold counted, process_event.
  destruct (icon_classes ev) as [classes|]; [|by split].
  destruct (bool_decide ("substitute_in" ∈ classes)); [|by split].
  destruct (event_info ev) as [info_div|]; [|by split].
  destruct (player_in_tag info_div) as [href_in|]; [|by split].
  destruct (player_out_tag info_div) as [href_out|]; [|by split].
  destruct (substitution_team ev) as [[]|]; [| |by split].
  - split; [done|]. intros s hi ho [= <- <- <-]. cbv zeta. cbn.
    split_and!; try done. intros p. rewrite !tag_player_lookup.
    repeat case_bool_decide; try done.
    by destruct (home_players st !! p).
  - split; [done|]. intros s hi ho [= <- <- <-]. cbv zeta. cbn.
    split_and!; try done. intros p. rewrite !tag_player_lookup.
    repeat case_bool_decide; try done.
    by destruct (away_players st !! p).
Qed.

Lemma well_keyed_event (st : subs_state) (ev : event_div) :
  well_keyed (home_players st) /\ well_keyed (away_players st) ->
  well_keyed (home_players (process_event st ev))
  /\ well_keyed (away_players (process_event st ev)).
Proof.
  intros [Hh Ha].
  assert (Htag : forall pid tag pmap, well_keyed pmap -> well_keyed (tag_player pid tag pmap)).
  { intros [pid|] tag pmap Hk; [|done]. by apply TablesFacts.well_keyed_alter. }
  unfold process_event.
  destruct (icon_classes ev) as [classes|]; [|done].
  destruct (bool_decide ("substitute_in" ∈ classes)); [|done].
  destruct (event_info ev) as [info_div|]; [|done].
  destruct (player_in_tag info_div) as [href_in|]; [|done].
  destruct (player_out_tag info_div) as [href_out|]; [|done].
  destruct (substitution_team ev) as [[]|]; [| |done]; cbn; auto.
Qed.

Lemma well_keyed_substitutions (doc : document)
    (players : gmap string pdict * gmap string pdict) :
  well_keyed (fst players) /\ well_keyed (snd players) ->
  well_keyed (home_players (fst (process_substitutions doc players)))
  /\ well_keyed (away_players (fst (process_substitutions doc players))).
Proof.
  intros H. unfold process_substitutions.
  destruct (events_wrap doc) as [event_divs|]; [|done]. cbn [fst].
  set (st0 := {| home_players := fst players; away_players := snd players;
                 home_subs_val := 0; away_subs_val := 0 |}).
  assert (H0 : well_keyed (home_players st0) /\ well_keyed (away_players st0)) by done.
  clearbody st0. revert st0 H0.
  induction event_divs as [|ev evs IH]; intros st0 H0; [done|].
  cbn [foldl]. by apply IH, well_keyed_event.
Qed.

Lemma well_keyed_starters (pmap : gmap string pdict) :
  well_keyed pmap -> well_keyed (assign_starters pmap).
Proof.
  intros Hk p pv. unfold assign_starters. rewrite lookup_fmap.
  destruct (pmap !! p) as [pv0|] eqn:E; [|done].
  intros [= <-]. cbn [set_starter player_id]. by apply Hk.
Qed.

End SubstitutionFacts.

(** ** Team sums *)

Module SumFacts.
Import Text Data Resolver Players Stated TextFacts.






(** The total of a column of integers is the integer sum. *)
Lemma column_total_int (pmap : gmap string pdict) (c : string) (f : pdict -> Z) :
  (forall pv, pv ∈ values pmap -> stat pv c = NInt (f pv)) ->
  column_total pmap c = NInt (foldr (fun pv acc => f pv + acc) 0 (values pmap)).
Proof.
  unfold column_total. generalize (values pmap) as pvs. intros pvs H.
  assert (Hg : forall a, foldl (fun acc pv => num_add acc (stat pv c)) (NInt a) pvs
                         = NInt (a + foldr (fun pv acc => f pv + acc) 0 pvs)).
  { induction pvs as [|pv pvs IH]; intros a; cbn [foldl foldr].
    - by rewrite Z.add_0_r.
    - rewrite (H pv) by apply list_elem_of_here. cbn [num_add].
      rewrite IH by (intros; apply H; by apply list_elem_of_further).
      f_equal. lia. }
  apply Hg.
Qed.

Lemma db_columns_NoDup : NoDup db_columns.
Proof. apply (bool_decide_unpack _). by vm_compute. Qed.

Lemma sum_key_inj (prefix : string) : Inj (=) (=) (sum_key prefix).
Proof.
  intros c1 c2 H. unfold sum_key in H.
  apply (inj (String.append prefix)) in H. by apply (inj (String.append "_")) in H.
Qed.

Lemma team_sum_insert (ts : gmap string num) (k k' : string) (v : num) :
  team_sum (<[k := v]> ts) k' = if decide (k = k') then v else team_sum ts k'.
Proof. unfold team_sum. rewrite lookup_insert. by case_decide. Qed.

Lemma add_player_cols (prefix : string) (pv : pdict) (cols : list string)
    (ts : gmap string num) (k : string) :
  NoDup cols ->
  team_sum (foldl (fun ts dbcol =>
                     let k := prefix +:+ "_" +:+ dbcol in
                     <[k := num_add (team_sum ts k) (stat pv dbcol)]> ts) ts cols) k
  = match list_find (fun c => sum_key prefix c = k) cols with
    | Some (_, c) => num_add (team_sum ts k) (stat pv c)
    | None => team_sum ts k
    end.
Proof.
  intros Hnd. revert ts. induction Hnd as [|c cols Hc Hnd IH]; intros ts; [done|].
  cbn [foldl list_find]. rewrite IH. cbv zeta. fold (sum_key prefix c).
  rewrite team_sum_insert. case_decide as Hk.
  - subst k.
    destruct (list_find _ cols) as [[i c']|] eqn:Hf; [|done]. cbn.
    apply list_find_Some in Hf as (Hin & Heq & _).
    apply sum_key_inj in Heq. subst c'.
    destruct Hc. by eapply list_elem_of_lookup_2.
  - by destruct (list_find _ cols) as [[i c']|].
Qed.

Lemma add_player_column (prefix : string) (pv : pdict) (ts : gmap string num) (c : string) :
  c ∈ db_columns ->
  team_sum (add_player prefix ts pv) (sum_key prefix c)
  = num_add (team_sum ts (sum_key prefix c)) (stat pv c).
Proof.
  intros Hc. unfold add_player. rewrite add_player_cols by apply db_columns_NoDup.
  destruct (list_find _ db_columns) as [[i c']|] eqn:Hf.
  - apply list_find_Some in Hf as (_ & Heq & _). apply sum_key_inj in Heq. by subst.
  - apply list_find_None in Hf. rewrite Forall_forall in Hf. by destruct (Hf c Hc).
Qed.

Lemma add_player_other (prefix : string) (pv : pdict) (ts : gmap string num) (k : string) :
  (forall c, c ∈ db_columns -> sum_key prefix c <> k) ->
  team_sum (add_player prefix ts pv) k = team_sum ts k.
Proof.
  intros Hk. unfold add_player. rewrite add_player_cols by apply db_columns_NoDup.
  destruct (list_find _ db_columns) as [[i c']|] eqn:Hf; [|done].
  apply list_find_Some in Hf as (Hin & Heq & _).
  destruct (Hk c'); [by eapply list_elem_of_lookup_2 | done].
Qed.

Lemma sum_side_column (pmap : gmap string pdict) (prefix : string)
    (ts : gmap string num) (c : string) :
  c ∈ db_columns ->
  team_sum (sum_side pmap prefix ts) (sum_key prefix c)
  = foldl (fun acc pv => num_add acc (stat pv c)) (team_sum ts (sum_key prefix c))
      (values pmap).
Proof.
  intros Hc. unfold sum_side. generalize (values pmap) as pvs. intros pvs.
  revert ts. induction pvs as [|pv pvs IH]; intros ts; [done|].
  cbn [foldl]. by rewrite IH, add_player_column.
Qed.

Lemma sum_side_other (pmap : gmap string pdict) (prefix : string)
    (ts : gmap string num) (k : string) :
  (forall c, c ∈ db_columns -> sum_key prefix c <> k) ->
  team_sum (sum_side pmap prefix ts) k = team_sum ts k.
Proof.
  intros Hk. unfold sum_side. generalize (values pmap) as pvs. intros pvs.
  revert ts. induction pvs as [|pv pvs IH]; intros ts; [done|].
  cbn [foldl]. by rewrite IH, add_player_other.
Qed.

Lemma init_team_sums_zero (k : string) : team_sum init_team_sums k = NInt 0.
Proof.
  unfold team_sum. destruct (init_team_sums !! k) as [v|] eqn:E; [|done].
  cbn. revert E. unfold init_team_sums.
  generalize db_columns as cols. intros cols.
  assert (H : forall (ts : gmap string num),
             (forall v', ts !! k = Some v' -> v' = NInt 0) ->
             foldl (fun ts db_col_ =>
                      <["away_" +:+ db_col_ := NInt 0]> (<["home_" +:+ db_col_ := NInt 0]> ts))
                   ts cols !! k = Some v -> v = NInt 0).
  { induction cols as [|c cols IH]; intros ts Hts; cbn [foldl]; [apply Hts|].
    apply IH. intros v'. rewrite !lookup_insert. repeat case_decide; naive_solver. }
  apply H. intros v'. by rewrite lookup_empty.
Qed.

(** Every key the sums read is set by the initial loop, and every column a
    record is read at is set by [init_player_dict]. *)
Lemma init_team_sums_columns (c : string) :
  c ∈ db_columns ->
  is_Some (init_team_sums !! ("home_" +:+ c)) /\ is_Some (init_team_sums !! ("away_" +:+ c)).
Proof.
  revert c. apply Forall_forall. apply (bool_decide_unpack _). by vm_compute.
Qed.

Lemma init_player_dict_columns (pid_ pname_ c : string) :
  c ∈ db_columns -> is_Some (stats (init_player_dict pid_ pname_) !! c).
Proof.
  revert c. apply Forall_forall. apply (bool_decide_unpack _). by vm_compute.
Qed.

Lemma sums_of_both_sides (home_ps away_ps : gmap string pdict) (c : string) :
  c ∈ db_columns ->
  team_sum (sum_side away_ps "away" (sum_side home_ps "home" init_team_sums))
    ("home_" +:+ c) = column_total home_ps c
  /\ team_sum (sum_side away_ps "away" (sum_side home_ps "home" init_team_sums))
       ("away_" +:+ c) = column_total away_ps c.
Proof.
  intros Hc. unfold column_total. split.
  - rewrite sum_side_other.
    + change ("home_" +:+ c) with (sum_key "home" c).
      by rewrite sum_side_column, init_team_sums_zero.
    + intros c' _. unfold sum_key. str. discriminate.
  - change ("away_" +:+ c) with (sum_key "away" c).
    rewrite sum_side_column by done. rewrite sum_side_other.
    + by rewrite init_team_sums_zero.
    + intros c' _. unfold sum_key. str. discriminate.
Qed.

End SumFacts.

(** ** Persistence: one transaction *)

Module PersistFacts.
Import Text Data Resolver Players Storage Shots Match Stated.

Lemma server_finally (c : connection) : server (finally c) = server c.
Proof. unfold finally. by destruct (is_connected c). Qed.

Section Run.

Variable fault : nat -> bool.

Lemma step_ok_execute (sql : insert_sql) (params : list sql_value) :
  step_ok fault (cursor_execute fault sql params) (run_insert sql params) 1.
Proof.
  intros [c out]. unfold cursor_execute. cbn [fst snd].
  destruct (fault (calls c)) eqn:Hf.
  - cbn. repeat split. right. exists (calls c). split; [lia | done].
  - destruct (run_insert sql params (session c)) as [db'|]; cbn.
    + repeat split; try done; try lia. intros i Hi.
      by replace i with (calls c) by lia.
    + repeat split. by left.
Qed.

Lemma step_ok_executemany (sql : insert_sql) (batch : list (list sql_value)) :
  step_ok fault (cursor_executemany fault sql batch) (run_insert_many sql batch) 1.
Proof.
  intros [c out]. unfold cursor_executemany. cbn [fst snd].
  destruct (fault (calls c)) eqn:Hf.
  - cbn. repeat split. right. exists (calls c). split; [lia | done].
  - destruct (run_insert_many sql batch (session c)) as [db'|]; cbn.
    + repeat split; try done; try lia. intros i Hi.
      by replace i with (calls c) by lia.
    + repeat split. by left.
Qed.

Lemma step_ok_print (l : log_line) : step_ok fault (print l) Some 0.
Proof. intros [c out]. cbn. repeat split; try done; try lia. Qed.

Lemma step_ok_ret {A} (a : A) : step_ok fault (ret a) Some 0.
Proof. intros [c out]. cbn. repeat split; try done; try lia. Qed.

Lemma step_ok_bind {A B} (m : M A) (f : A -> M B) (p1 p2 : DB -> option DB) (n1 n2 : nat) :
  step_ok fault m p1 n1 -> (forall a, step_ok fault (f a) p2 n2) ->
  step_ok fault (bind m f) (fun db => p1 db ≫= p2) (n1 + n2).
Proof.
  intros Hm Hf s. unfold bind. specialize (Hm s).
  destruct (m s) as [[a|] s1]; cbn [fst snd] in *.
  - destruct Hm as (Hs & Hc & Hp & Hn & Hfault).
    specialize (Hf a s1).
    destruct (f a s1) as [[b|] s2]; cbn [fst snd] in *.
    + destruct Hf as (Hs2 & Hc2 & Hp2 & Hn2 & Hfault2).
      repeat split; try congruence.
      * by rewrite Hp.
      * lia.
      * intros i Hi. destruct (decide (i < calls (fst s) + n1)%nat).
        -- apply Hfault. lia.
        -- apply Hfault2. lia.
    + destruct Hf as (Hs2 & Hc2 & [Hnone|(i & Hi & Hfi)]).
      * repeat split; try congruence. left. by rewrite Hp.
      * repeat split; try congruence. right. exists i. split; [lia | done].
  - destruct Hm as (Hs & Hc & [Hnone|(i & Hi & Hfi)]).
    + repeat split; try done. left. by rewrite Hnone.
    + repeat split; try done. right. exists i. split; [lia | done].
Qed.

Lemma step_ok_ext {A} (m : M A) (p p' : DB -> option DB) (n n' : nat) :
  step_ok fault m p n -> (forall db, p db = p' db) -> n = n' -> step_ok fault m p' n'.
Proof. intros H Hp <- s. specialize (H s). rewrite <- Hp. exact H. Qed.

Lemma step_ok_insert_players (rows : list (list sql_value)) :
  step_ok fault (insert_players fault rows) (run_insert_many insert_players_sql rows)
    (length rows).
Proof.
  induction rows as [|p rows IH]; cbn [insert_players].
  - apply step_ok_ret.
  - eapply step_ok_ext.
    + apply step_ok_bind; [apply step_ok_execute | intros _; apply IH].
    + intros db. cbv beta. cbn [run_insert_many].
      by destruct (run_insert insert_players_sql p db).
    + done.
Qed.

Lemma step_ok_insert_shots (sh : shot_log) :
  step_ok fault (insert_shots fault sh) (shots_pure sh) (shots_calls sh).
Proof.
  destruct sh as [| | |[|p batch]]; cbn [insert_shots shots_pure shots_calls];
    try apply step_ok_print.
  eapply step_ok_ext.
  - apply step_ok_bind; [apply step_ok_executemany | intros _; apply step_ok_print].
  - intros db. cbv beta. cbn [shots_pure].
    by destruct (run_insert_many insert_events_sql (p :: batch) db).
  - done.
Qed.

(** The writes up to the commit stage the rows of [staged] in the session
    and leave the committed rows alone. *)
Lemma step_ok_write_rows (r : schedule_row) (d : derived) :
  step_ok fault (write_rows fault r d) (staged r d) (n_calls d - 2).
Proof.
  unfold write_rows. eapply step_ok_ext.
  - apply step_ok_bind; [apply step_ok_execute | intros _].
    apply step_ok_bind; [apply step_ok_insert_players | intros _].
    apply step_ok_bind; [apply step_ok_insert_players | intros _].
    apply step_ok_insert_shots.
  - intros db. cbv beta. unfold staged.
    destruct (run_insert _ _ db) as [db1|]; [|done]. cbn.
    destruct (run_insert_many _ _ db1) as [db2|]; [|done]. cbn.
    destruct (run_insert_many _ _ db2) as [db3|]; [|done]. cbn.
    by destruct (shots d) as [| | |[|]].
  - unfold n_calls. rewrite !length_fmap. lia.
Qed.

(** The two outcomes of [persist]. *)
Lemma persist_outcome (r : schedule_row) (d : derived) (db : DB) :
  (fst (persist fault r d db) = db
   /\ last (snd (persist fault r d db)) = Some DbInsertError
   /\ (staged r d db = None \/ exists i, (i < n_calls d)%nat /\ fault i = true))
  \/ (staged r d db = Some (fst (persist fault r d db))
      /\ last (snd (persist fault r d db)) = Some (Inserted (date_str r) (matchup_str r))
      /\ forall i, (i < n_calls d)%nat -> fault i = false).
Proof.
  remember (persist fault r d db) as res eqn:E.
  unfold persist, get_db_connection in E.
  assert (Hn3 : (3 <= n_calls d)%nat) by (unfold n_calls; lia).
  destruct (fault 0) eqn:H0.
  { subst res. left. repeat split. right. exists 0%nat. split; [lia | done]. }
  unfold insert_match, bind at 1 in E.
  pose proof (step_ok_write_rows r d
                ({| server := db; session := db; calls := 1; is_connected := true |}, []))
    as (Hs & Hc & Hok).
  destruct (write_rows fault r d _) as [[[]|] [c1 out1]]; cbn [fst snd] in *.
  - destruct Hok as (Hp & Hn & Hfault). cbn [calls] in Hn, Hfault.
    unfold bind at 1, commit in E. cbn [fst snd] in E.
    destruct (fault (calls c1)) eqn:Hfc.
    + left. unfold called in E. cbn [is_connected] in E. rewrite Hc in E.
      cbn in E. subst res. cbn [fst snd]. rewrite last_snoc.
      repeat split; [done|]. right. exists (calls c1). split; [lia | done].
    + right. cbn in E. unfold finally in E. cbn in E. subst res. cbn [fst snd].
      rewrite last_snoc. split_and!; [done | done |].
      intros i Hi. destruct (decide (i = 0%nat)) as [->|]; [done|].
      destruct (decide (i = calls c1)) as [->|]; [done|].
      apply Hfault. lia.
  - left. rewrite Hc in E. cbn in E. subst res. cbn [fst snd].
    rewrite last_snoc, server_finally. cbn [rollback server].
    repeat split; [by rewrite Hs|].
    cbn [session calls] in Hok. destruct Hok as [Hnone|(i & Hi & Hfi)]; [by left|].
    right. exists i. split; [lia | done].
Qed.

(** C2. Whatever calls fail, the store after [persist] is either the store
    before it, with the error logged last, or the store with the team row,
    every player row and the shot batch written, with the insertion logged
    last: nothing in between. The first is the outcome as soon as one call
    of the run fails, the connection, a write or the commit; it is the
    outcome only if a call fails or the store refuses a row. *)
Theorem persist_all_or_nothing (r : schedule_row) (d : derived) (db : DB) :
  let res := persist fault r d db in
  ((fst res = db /\ last (snd res) = Some DbInsertError
    /\ (staged r d db = None \/ exists i, (i < n_calls d)%nat /\ fault i = true))
   \/ (staged r d db = Some (fst res)
       /\ last (snd res) = Some (Inserted (date_str r) (matchup_str r))
       /\ forall i, (i < n_calls d)%nat -> fault i = false))
  /\ ((exists i, (i < n_calls d)%nat /\ fault i = true) -> fst res = db).
Proof.
  cbv zeta. split; [apply persist_outcome|].
  intros (i & Hi & Hf).
  destruct (persist_outcome r d db) as [[H _]|(_ & _ & H)]; [done|].
  rewrite (H i Hi) in Hf. discriminate.
Qed.

End Run.

End PersistFacts.

(** ** Persistence: running a match again *)

Module RerunFacts.
Import Text Data Resolver Players Storage Shots Match Stated.
Local Open Scope list_scope.

Lemma overwrite_lookup (cols : list string) (new old : gmap string sql_value) (c : string) :
  overwrite cols new old !! c
  = match (if bool_decide (c ∈ cols) then new !! c else None) with
    | Some v => Some v
    | None => old !! c
    end.
Proof.
  unfold overwrite. revert old. induction cols as [|c0 cols IH]; intros old; [done|].
  cbn [foldl]. rewrite IH.
  destruct (decide (c = c0)) as [->|Hne].
  - rewrite (bool_decide_true (c0 ∈ c0 :: cols)) by apply list_elem_of_here.
    destruct (new !! c0) as [v|] eqn:E.
    + rewrite lookup_insert_eq. by case_bool_decide.
    + by case_bool_decide.
  - assert (Hiff : c ∈ c0 :: cols <-> c ∈ cols)
      by (rewrite elem_of_cons; naive_solver).
    rewrite (bool_decide_ext _ _ Hiff).
    assert (Hold : (match new !! c0 with Some v => <[c0:=v]> old | None => old end) !! c
                   = old !! c)
      by (destruct (new !! c0); [by rewrite lookup_insert_ne | done]).
    by rewrite Hold.
Qed.

(** Applying the clause of a row twice is applying it once. *)
Lemma overwrite_idem (cols : list string) (new old : gmap string sql_value) :
  overwrite cols new (overwrite cols new old) = overwrite cols new old.
Proof.
  apply map_eq. intros c. rewrite !overwrite_lookup.
  by destruct (if bool_decide (c ∈ cols) then new !! c else None).
Qed.

Lemma overwrite_self (cols : list string) (new : gmap string sql_value) :
  overwrite cols new new = new.
Proof.
  apply map_eq. intros c. rewrite overwrite_lookup.
  case_bool_decide; [|done]. by destruct (new !! c).
Qed.

Lemma write_keyed_upserts (sql : insert_sql) (r : gmap string sql_value)
    (t : gmap (list sql_value) (gmap string sql_value)) :
  update_clause sql <> [] ->
  exists t', write_keyed sql r t = Some t'
             /\ upserted sql r t'
             /\ forall k, k <> key_of (natural_key (into sql)) r -> t' !! k = t !! k.
Proof.
  intros Hc. unfold write_keyed, upserted.
  destruct (t !! key_of (natural_key (into sql)) r) as [old|] eqn:E.
  - destruct (update_clause sql) as [|c cols] eqn:Hu; [done|].
    eexists. split; [done|]. split.
    + eexists. rewrite lookup_insert_eq. split; [done|]. apply overwrite_idem.
    + intros k Hk. by rewrite lookup_insert_ne.
  - eexists. split; [done|]. split.
    + eexists. rewrite lookup_insert_eq. split; [done|]. apply overwrite_self.
    + intros k Hk. by rewrite lookup_insert_ne.
Qed.

(** An upsert of a row that is already there changes nothing. *)
Lemma write_keyed_again (sql : insert_sql) (r : gmap string sql_value)
    (t : gmap (list sql_value) (gmap string sql_value)) :
  update_clause sql <> [] -> upserted sql r t -> write_keyed sql r t = Some t.
Proof.
  intros Hc (x & Hx & Ho). unfold write_keyed. rewrite Hx.
  destruct (update_clause sql) as [|c cols] eqn:Hu; [done|].
  by rewrite Ho, insert_id.
Qed.

Lemma DB_eta (db : DB) :
  {| all_matchups_teams := all_matchups_teams db;
     all_matchups_players := all_matchups_players db;
     match_events := match_events db |} = db.
Proof. by destruct db. Qed.

(** *** The player rows *)

Lemma param_player_length (r : schedule_row) (sq op ha : string) (pv : pdict) :
  length (param_player r sq op ha pv) = length players_columns.
Proof. reflexivity. Qed.

Lemma teams_param_length (r : schedule_row) (d : derived) :
  length (teams_param r d) = length teams_columns.
Proof. reflexivity. Qed.

Lemma player_row_key (r : schedule_row) (sq op ha : string) (pv : pdict) :
  key_of (natural_key AllMatchupsPlayers) (players_row (param_player r sq op ha pv))
  = player_key r ha pv.
Proof. vm_compute. reflexivity. Qed.

Lemma run_insert_player (p : list sql_value) (db : DB) :
  length p = length players_columns ->
  exists t', write_keyed insert_players_sql (players_row p) (all_matchups_players db) = Some t'
    /\ run_insert insert_players_sql p db
       = Some {| all_matchups_teams := all_matchups_teams db;
                 all_matchups_players := t';
                 match_events := match_events db |}.
Proof.
  intros Hl. unfold run_insert, row_of.
  change (columns insert_players_sql) with players_columns.
  rewrite <- Hl, Nat.eqb_refl. change (into insert_players_sql) with AllMatchupsPlayers.
  cbv iota.
  destruct (write_keyed_upserts insert_players_sql (players_row p) (all_matchups_players db))
    as (t' & Ht & _); [done|].
  exists t'. split; [done|]. unfold players_row in Ht. by rewrite Ht.
Qed.

Lemma run_players_first (ps : list (list sql_value)) (db : DB) :
  Forall (fun p => length p = length players_columns) ps ->
  NoDup ((fun p => key_of (natural_key AllMatchupsPlayers) (players_row p)) <$> ps) ->
  exists db', run_insert_many insert_players_sql ps db = Some db'
    /\ all_matchups_teams db' = all_matchups_teams db
    /\ match_events db' = match_events db
    /\ forall p, p ∈ ps ->
         upserted insert_players_sql (players_row p) (all_matchups_players db').
Proof.
  intros Hl Hnd.
  assert (H : exists db', run_insert_many insert_players_sql ps db = Some db'
    /\ all_matchups_teams db' = all_matchups_teams db
    /\ match_events db' = match_events db
    /\ (forall p, p ∈ ps ->
          upserted insert_players_sql (players_row p) (all_matchups_players db'))
    /\ (forall k,
          k ∉ ((fun p => key_of (natural_key AllMatchupsPlayers) (players_row p)) <$> ps) ->
          all_matchups_players db' !! k = all_matchups_players db !! k)).
  { revert db Hnd. induction Hl as [|p ps Hp Hl IH]; intros db Hnd.
    - exists db. repeat split; try done. intros p Hp. by apply elem_of_nil in Hp.
    - rewrite fmap_cons in Hnd. apply NoDup_cons in Hnd as [Hk Hnd].
      cbn [run_insert_many].
      destruct (run_insert_player p db Hp) as (t' & Ht & ->).
      destruct (write_keyed_upserts insert_players_sql (players_row p)
                  (all_matchups_players db)) as (t'' & Ht'' & Hup & Hother); [done|].
      rewrite Ht in Ht''. injection Ht'' as <-.
      destruct (IH {| all_matchups_teams := all_matchups_teams db;
                      all_matchups_players := t';
                      match_events := match_events db |} Hnd)
        as (db' & Hrun & Hteams & Hev & Hall & Hkeep).
      exists db'. cbn [all_matchups_teams all_matchups_players match_events] in *.
      repeat split; try done.
      + intros q [->|Hq]%elem_of_cons; [|by apply Hall].
        destruct Hup as (x & Hx & Ho). exists x. split; [|done].
        by rewrite Hkeep.
      + intros k Hk'. rewrite fmap_cons in Hk'. apply not_elem_of_cons in Hk' as [Hne Hk'].
        rewrite Hkeep by done. by apply Hother. }
  destruct H as (db' & H1 & H2 & H3 & H4 & _). by exists db'.
Qed.

Lemma run_players_again (ps : list (list sql_value)) (db : DB) :
  Forall (fun p => length p = length players_columns) ps ->
  (forall p, p ∈ ps ->
     upserted insert_players_sql (players_row p) (all_matchups_players db)) ->
  run_insert_many insert_players_sql ps db = Some db.
Proof.
  intros Hl. induction Hl as [|p ps Hp Hl IH]; intros Hall; [done|].
  cbn [run_insert_many].
  destruct (run_insert_player p db Hp) as (t' & Ht & ->).
  rewrite write_keyed_again in Ht; [|done|apply Hall, list_elem_of_here].
  injection Ht as <-. rewrite DB_eta. apply IH.
  intros q Hq. by apply Hall, list_elem_of_further.
Qed.

Lemma run_insert_many_app (sql : insert_sql) (ps qs : list (list sql_value)) (db : DB) :
  run_insert_many sql (ps ++ qs) db
  = run_insert_many sql ps db ≫= run_insert_many sql qs.
Proof.
  revert db. induction ps as [|p ps IH]; intros db; [done|].
  cbn [app run_insert_many]. destruct (run_insert sql p db); [apply IH | done].
Qed.

(** The codes of the records of a well-keyed dictionary are pairwise
    distinct. *)
Lemma well_keyed_NoDup (pmap : gmap string pdict) :
  well_keyed pmap -> NoDup (player_id <$> values pmap).
Proof.
  intros Hk. unfold values.
  assert (H : player_id <$> (snd <$> map_to_list pmap) = fst <$> map_to_list pmap).
  { rewrite <- list_fmap_compose. apply list_fmap_ext. intros i [k v] Hi.
    cbn. apply Hk. apply elem_of_map_to_list. by eapply list_elem_of_lookup_2. }
  rewrite H. apply NoDup_fst_map_to_list.
Qed.

Lemma player_keys_NoDup (r : schedule_row) (home_ps away_ps : gmap string pdict) :
  well_keyed home_ps -> well_keyed away_ps ->
  NoDup ((player_key r "home" <$> values home_ps) ++ (player_key r "away" <$> values away_ps)).
Proof.
  intros Hh Ha.
  assert (Hside : forall ha pmap, well_keyed pmap -> NoDup (player_key r ha <$> values pmap)).
  { intros ha pmap Hk.
    assert (Hc : player_key r ha <$> values pmap
                 = (fun pid => [SqlStr (date_str r); SqlStr (matchup_str r);
                                SqlStr pid; SqlStr ha]) <$> (player_id <$> values pmap))
      by by rewrite <- list_fmap_compose.
    rewrite Hc. apply NoDup_fmap_2; [|by apply well_keyed_NoDup].
    by intros x y [= ->]. }
  apply NoDup_app. split_and!; [by apply Hside | | by apply Hside].
  intros k (pv & -> & _)%list_elem_of_fmap (pv' & Heq & _)%list_elem_of_fmap.
  discriminate.
Qed.

(** *** The team row and the shot events *)

Lemma run_insert_team (p : list sql_value) (db : DB) :
  length p = length teams_columns ->
  exists t', write_keyed insert_teams_sql (teams_row p) (all_matchups_teams db) = Some t'
    /\ upserted insert_teams_sql (teams_row p) t'
    /\ run_insert insert_teams_sql p db
       = Some {| all_matchups_teams := t';
                 all_matchups_players := all_matchups_players db;
                 match_events := match_events db |}.
Proof.
  intros Hl. unfold run_insert, row_of.
  change (columns insert_teams_sql) with teams_columns.
  rewrite <- Hl, Nat.eqb_refl. change (into insert_teams_sql) with AllMatchupsTeams.
  cbv iota.
  destruct (write_keyed_upserts insert_teams_sql (teams_row p) (all_matchups_teams db))
    as (t' & Ht & Hup & _); [done|].
  exists t'. split; [done|]. split; [done|]. unfold teams_row in Ht. by rewrite Ht.
Qed.

Lemma run_insert_team_again (p : list sql_value) (db : DB) :
  length p = length teams_columns ->
  upserted insert_teams_sql (teams_row p) (all_matchups_teams db) ->
  run_insert insert_teams_sql p db = Some db.
Proof.
  intros Hl Hup. destruct (run_insert_team p db Hl) as (t' & Ht & _ & ->).
  rewrite write_keyed_again in Ht by done. injection Ht as <-. by rewrite DB_eta.
Qed.

(** The plain insert appends its rows, whatever the table holds. *)
Lemma run_insert_events (batch : list (list sql_value)) (db : DB) :
  run_insert_many insert_events_sql batch db
  = (fun rows => {| all_matchups_teams := all_matchups_teams db;
                    all_matchups_players := all_matchups_players db;
                    match_events := match_events db ++ rows |})
      <$> rows_of insert_events_sql batch.
Proof.
  revert db. induction batch as [|p batch IH]; intros db.
  - cbn. by rewrite app_nil_r, DB_eta.
  - cbn [run_insert_many]. unfold run_insert at 1.
    change (into insert_events_sql) with MatchEvents.
    cbn [rows_of].
    destruct (row_of insert_events_sql p) as [row|]; [|done]. cbv iota.
    rewrite IH. cbn [all_matchups_teams all_matchups_players match_events].
    destruct (rows_of insert_events_sql batch) as [rows|]; [|done].
    cbn. by rewrite <- app_assoc.
Qed.

Lemma shots_pure_events (d : derived) (db db' : DB) :
  shots_pure (shots d) db = Some db' ->
  all_matchups_teams db' = all_matchups_teams db
  /\ all_matchups_players db' = all_matchups_players db
  /\ match_events db' = match_events db ++ new_events d
  /\ forall db2, shots_pure (shots d) db2
                 = Some {| all_matchups_teams := all_matchups_teams db2;
                           all_matchups_players := all_matchups_players db2;
                           match_events := match_events db2 ++ new_events d |}.
Proof.
  unfold shots_pure, new_events, event_rows.
  assert (Hid : forall x : DB,
             Some x = Some {| all_matchups_teams := all_matchups_teams x;
                              all_matchups_players := all_matchups_players x;
                              match_events := match_events x ++ [] |})
    by (intros x; by rewrite app_nil_r, DB_eta).
  destruct (shots d) as [| | |[|p batch]];
    try (intros [= <-]; rewrite ?app_nil_r; by repeat split).
  rewrite run_insert_events.
  destruct (rows_of insert_events_sql (p :: batch)) as [rows|] eqn:E; [|done].
  cbn [fmap option_fmap option_map]. intros [= <-].
  cbn [all_matchups_teams all_matchups_players match_events default]. repeat split.
  intros db2. by rewrite (run_insert_events (p :: batch) db2), E.
Qed.

(** A second run of the writes of a match on the store the first run
    left: the two keyed tables are as they were, the shot events are there
    once more. *)
Lemma staged_again (r : schedule_row) (d : derived) (db db1 : DB) :
  well_keyed (home_players (squads d)) -> well_keyed (away_players (squads d)) ->
  staged r d db = Some db1 ->
  match_events db1 = match_events db ++ new_events d
  /\ upserted insert_teams_sql (teams_row (teams_param r d)) (all_matchups_teams db1)
  /\ staged r d db1
     = Some {| all_matchups_teams := all_matchups_teams db1;
               all_matchups_players := all_matchups_players db1;
               match_events := match_events db1 ++ new_events d |}.
Proof.
  intros Hh Ha Hst.
  set (hs := param_player r (home_team r) (away_team r) "home"
               <$> values (home_players (squads d))) in *.
  set (aws := param_player r (away_team r) (home_team r) "away"
                <$> values (away_players (squads d))) in *.
  assert (Hlen : Forall (fun p => length p = length players_columns) (hs ++ aws)).
  { apply Forall_app. split; apply Forall_fmap, Forall_true; intros pv;
      apply param_player_length. }
  assert (Hnd : NoDup ((fun p => key_of (natural_key AllMatchupsPlayers) (players_row p))
                         <$> (hs ++ aws))).
  { rewrite fmap_app. unfold hs, aws. rewrite <- !list_fmap_compose.
    erewrite (list_fmap_ext _ (player_key r "home"));
      [|intros i pv _; apply player_row_key].
    erewrite (list_fmap_ext _ (player_key r "away") (values (away_players (squads d))));
      [|intros i pv _; apply player_row_key].
    by apply player_keys_NoDup. }
  assert (Hshape : forall x, staged r d x
            = run_insert insert_teams_sql (teams_param r d) x
              ≫= fun x1 => run_insert_many insert_players_sql (hs ++ aws) x1
              ≫= shots_pure (shots d)).
  { intros x. unfold staged. fold hs aws.
    destruct (run_insert insert_teams_sql (teams_param r d) x) as [x1|]; [|done]. cbn.
    rewrite run_insert_many_app.
    destruct (run_insert_many insert_players_sql hs x1) as [x2|]; [|done]. cbn.
    destruct (run_insert_many insert_players_sql aws x2) as [x3|]; [|done]. cbn.
    unfold shots_pure. by destruct (shots d) as [| | |[|]]. }
  rewrite Hshape in Hst.
  destruct (run_insert_team (teams_param r d) db (teams_param_length r d))
    as (t' & _ & Hteam & Hrun1).
  rewrite Hrun1 in Hst. cbn [mbind option_bind] in Hst.
  destruct (run_players_first (hs ++ aws)
              {| all_matchups_teams := t';
                 all_matchups_players := all_matchups_players db;
                 match_events := match_events db |} Hlen Hnd)
    as (db_c & Hrun2 & Hteams2 & Hev2 & Hall).
  rewrite Hrun2 in Hst. cbn [mbind option_bind] in Hst.
  destruct (shots_pure_events d db_c db1 Hst) as (Hteams3 & Hplayers3 & Hev3 & Hagain).
  cbn [all_matchups_teams match_events] in *.
  split; [by rewrite Hev3, Hev2|].
  split; [by rewrite Hteams3, Hteams2|].
  rewrite Hshape.
  rewrite run_insert_team_again;
    [|apply teams_param_length | by rewrite Hteams3, Hteams2].
  cbn [mbind option_bind].
  rewrite run_players_again; [|done|intros p Hp; rewrite Hplayers3; by apply Hall].
  cbn [mbind option_bind]. apply Hagain.
Qed.

(** The writes of a match go through when the codes of its records are
    their keys and every tuple of the shot batch fits the statement. *)
Lemma staged_goes_through (r : schedule_row) (d : derived) (db : DB) :
  well_keyed (home_players (squads d)) -> well_keyed (away_players (squads d)) ->
  (forall b, shots d = ShotsBatch b -> is_Some (rows_of insert_events_sql b)) ->
  is_Some (staged r d db).
Proof.
  intros Hh Ha Hfit. unfold staged.
  destruct (run_insert_team (teams_param r d) db (teams_param_length r d))
    as (t' & _ & _ & ->). cbn [mbind option_bind].
  set (hs := param_player r (home_team r) (away_team r) "home"
               <$> values (home_players (squads d))).
  set (aws := param_player r (away_team r) (home_team r) "away"
                <$> values (away_players (squads d))).
  assert (Hlen : Forall (fun p => length p = length players_columns) (hs ++ aws)).
  { apply Forall_app. split; apply Forall_fmap, Forall_true; intros pv;
      apply param_player_length. }
  assert (Hnd : NoDup ((fun p => key_of (natural_key AllMatchupsPlayers) (players_row p))
                         <$> (hs ++ aws))).
  { rewrite fmap_app. unfold hs, aws. rewrite <- !list_fmap_compose.
    erewrite (list_fmap_ext _ (player_key r "home"));
      [|intros i pv _; apply player_row_key].
    erewrite (list_fmap_ext _ (player_key r "away") (values (away_players (squads d))));
      [|intros i pv _; apply player_row_key].
    by apply player_keys_NoDup. }
  destruct (run_players_first (hs ++ aws)
              {| all_matchups_teams := t';
                 all_matchups_players := all_matchups_players db;
                 match_events := match_events db |} Hlen Hnd)
    as (db_c & Hrun & _).
  rewrite run_insert_many_app in Hrun.
  destruct (run_insert_many insert_players_sql hs _) as [x2|]; [|done].
  cbn [mbind option_bind] in *. rewrite Hrun. cbn [mbind option_bind].
  destruct (shots d) as [| | |[|p batch]] eqn:Hs; try done.
  rewrite run_insert_events.
  destruct (Hfit (p :: batch) eq_refl) as [rows ->]. done.
Qed.

Lemma rows_of_length (sql : insert_sql) (batch : list (list sql_value))
    (rows : list (gmap string sql_value)) :
  rows_of sql batch = Some rows -> length rows = length batch.
Proof.
  revert rows. induction batch as [|p batch IH]; intros rows; cbn [rows_of].
  - by intros [= <-].
  - destruct (row_of sql p); [|done]. destruct (rows_of sql batch) as [rs|]; [|done].
    intros [= <-]. cbn [length]. by rewrite (IH rs).
Qed.

End RerunFacts.

(** ** One match, from the page to the store *)

Module MatchFacts.
Import Text Data Resolver Metadata Players Storage Shots Match Stated Examples.
Local Open Scope list_scope.

Section Engine.

Variable py_int : string -> option Z.
Variable py_float : string -> option Qc.

Lemma derive_well_keyed (r : schedule_row) (doc : document) (sb : scorebox_div) :
  well_keyed (home_players (squads (fst (derive py_int py_float r doc sb))))
  /\ well_keyed (away_players (squads (fst (derive py_int py_float r doc sb)))).
Proof.
  unfold derive.
  destruct (resolve_team_ids sb (home_team r) (away_team r)) as [[home_id away_id] w_ids].
  pose proof (TablesFacts.well_keyed_tables py_int py_float home_id away_id
                (stats_tables doc)) as Ht.
  pose proof (SubstitutionFacts.well_keyed_substitutions doc _ Ht) as Hs.
  destruct (process_substitutions doc _) as [subs w_subs].
  cbn [fst snd squads home_players away_players] in *.
  destruct Hs as [Hh Ha]. split; by apply SubstitutionFacts.well_keyed_starters.
Qed.

Lemma shot_params_fit (url : string) (rows__ : list shot_row) :
  is_Some (rows_of insert_events_sql (omap (shot_params url) rows__)).
Proof.
  induction rows__ as [|row__ rows__ [rs IH]]; [by eexists|].
  cbn [omap list_omap]. unfold shot_params at 1.
  destruct (_ || _); [by eexists|].
  destruct (_ || _); [by eexists|].
  cbn [rows_of]. rewrite IH.
  unfold row_of. cbn [length columns insert_events_sql Nat.eqb]. by eexists.
Qed.

Lemma derive_shots_fit (r : schedule_row) (doc : document) (sb : scorebox_div)
    (b : list (list sql_value)) :
  shots (fst (derive py_int py_float r doc sb)) = ShotsBatch b ->
  is_Some (rows_of insert_events_sql b).
Proof.
  unfold derive.
  destruct (resolve_team_ids sb (home_team r) (away_team r)) as [[home_id away_id] w_ids].
  destruct (process_substitutions doc _) as [subs w_subs].
  cbn [fst shots]. unfold extract_shots.
  destruct (shots_all doc) as [[[|row__ rows__]|]|]; try done.
  intros [= <-]. apply (shot_params_fit (full_url r) (row__ :: rows__)).
Qed.

Lemma derive_sums (r : schedule_row) (doc : document) (sb : scorebox_div) :
  let d := fst (derive py_int py_float r doc sb) in
  team_sums d = sum_side (away_players (squads d)) "away"
                  (sum_side (home_players (squads d)) "home" init_team_sums)
  /\ home_sca_val d = sca_val (home_players (squads d))
  /\ away_sca_val d = sca_val (away_players (squads d)).
Proof.
  cbv zeta. unfold derive.
  destruct (resolve_team_ids sb (home_team r) (away_team r)) as [[home_id away_id] w_ids].
  by destruct (process_substitutions doc _) as [subs w_subs].
Qed.



(** Without a failing call the writes of a derived match are committed. *)
Lemma persist_derived (fault : nat -> bool) (r : schedule_row) (doc : document)
    (sb : scorebox_div) (db : DB) :
  let d := fst (derive py_int py_float r doc sb) in
  (forall i, (i < n_calls d)%nat -> fault i = false) ->
  staged r d db = Some (fst (persist fault r d db))
  /\ last (snd (persist fault r d db)) = Some (Inserted (date_str r) (matchup_str r)).
Proof.
  cbv zeta. intros Hnf.
  destruct (derive_well_keyed r doc sb) as [Hh Ha].
  destruct (RerunFacts.staged_goes_through r _ db Hh Ha (derive_shots_fit r doc sb))
    as [db1 Hst].
  destruct (PersistFacts.persist_outcome fault r
              (fst (derive py_int py_float r doc sb)) db)
    as [(_ & _ & [Hnone|(i & Hi & Hf)])|(H1 & H2 & _)]; [| |done].
  - congruence.
  - rewrite (Hnf i Hi) in Hf. discriminate.
Qed.

Lemma run_without_scorebox (fault : nat -> bool) (r : schedule_row) (doc : document)
    (db : DB) :
  scorebox doc = None ->
  scrape_and_insert_match_data py_int py_float fault r (Some doc) db = (db, [NoScorebox]).
Proof. intros H. unfold scrape_and_insert_match_data. by rewrite H. Qed.

Lemma run_with_scorebox (fault : nat -> bool) (r : schedule_row) (doc : document)
    (sb : scorebox_div) (db : DB) :
  scorebox doc = Some sb ->
  scrape_and_insert_match_data py_int py_float fault r (Some doc) db
  = (fst (persist fault r (fst (derive py_int py_float r doc sb)) db),
     snd (derive py_int py_float r doc sb)
     ++ snd (persist fault r (fst (derive py_int py_float r doc sb)) db)).
Proof.
  intros Hsb. unfold scrape_and_insert_match_data. rewrite Hsb.
  destruct (derive py_int py_float r doc sb) as [d w]. cbn [fst snd].
  by destruct (persist fault r d db).
Qed.

(** C7. A page without the scorebox leaves the store as it is, whatever
    else the page holds and whatever the connection would do, and logs
    that alone: nothing is derived and nothing is written. A page with the
    scorebox is derived and persisted whatever else it lacks: the run is
    [persist] of what [derive] gives, and when no call fails the team row
    of the match is in the store and the insertion is logged last. This
    second part is said of the pages whose "sca" cells are plain numerals:
    on a cell that [float] reads as [nan] or [inf] line 546 raises, before
    the connection is opened. *)
Theorem scorebox_is_required (fault : nat -> bool) (r : schedule_row) (doc : document)
    (db : DB) :
  scrape_and_insert_match_data py_int py_float fault r None db = (db, [RequestError])
  /\ (scorebox doc = None ->
      scrape_and_insert_match_data py_int py_float fault r (Some doc) db
      = (db, [NoScorebox]))
  /\ (forall sb, scorebox doc = Some sb -> Notions.plain_sca doc = true ->
        let d := fst (derive py_int py_float r doc sb) in
        let run := scrape_and_insert_match_data py_int py_float fault r (Some doc) db in
        run = (fst (persist fault r d db),
               snd (derive py_int py_float r doc sb) ++ snd (persist fault r d db))
        /\ ((forall i, (i < n_calls d)%nat -> fault i = false) ->
            staged r d db = Some (fst run)
            /\ last (snd run) = Some (Inserted (date_str r) (matchup_str r))
            /\ upserted insert_teams_sql (teams_row (teams_param r d))
                 (all_matchups_teams (fst run)))).
Proof.
  split_and!; [done | apply run_without_scorebox |].
  intros sb Hsb _. cbv zeta.
  split; [by apply run_with_scorebox|]. intros Hnf.
  rewrite (run_with_scorebox fault r doc sb db Hsb). cbn [fst snd].
  destruct (persist_derived fault r doc sb db Hnf) as [Hst Hlast].
  destruct (derive_well_keyed r doc sb) as [Hh Ha].
  destruct (RerunFacts.staged_again r _ db _ Hh Ha Hst) as (_ & Hup & _).
  split_and!; [done | | done].
  by rewrite last_app, Hlast.
Qed.

(** C3, as amended. Running the same page a second time on the store the
    first run left, with no failing call, leaves the team table and the
    player table as the first run left them: the upserts overwrite
    themselves. The shot events are written by a plain insert that carries
    no row ordinal, so the second run appends the rows of the page once
    more. *)
Theorem rerun_keeps_keyed_rows (r : schedule_row) (doc : document) (db : DB) :
  let run := scrape_and_insert_match_data py_int py_float no_fault r (Some doc) in
  let db1 := fst (run db) in
  let db2 := fst (run db1) in
  all_matchups_teams db2 = all_matchups_teams db1
  /\ all_matchups_players db2 = all_matchups_players db1
  /\ match_events db1 = match_events db ++ page_events py_int py_float r doc
  /\ match_events db2 = match_events db1 ++ page_events py_int py_float r doc.
Proof.
  cbv zeta. unfold page_events.
  destruct (scorebox doc) as [sb|] eqn:Hsb.
  - destruct (derive_well_keyed r doc sb) as [Hh Ha].
    assert (Hrun : forall x,
               staged r (fst (derive py_int py_float r doc sb)) x
               = Some (fst (scrape_and_insert_match_data py_int py_float no_fault r
                              (Some doc) x))).
    { intros x. rewrite (run_with_scorebox no_fault r doc sb x Hsb). cbn [fst].
      by apply persist_derived. }
    pose proof (Hrun db) as H1.
    destruct (RerunFacts.staged_again r _ db _ Hh Ha H1) as (Hev & _ & H2).
    rewrite Hrun in H2. apply (inj Some) in H2. rewrite H2.
    by cbn [all_matchups_teams all_matchups_players match_events].
  - assert (Hrun : forall x,
               scrape_and_insert_match_data py_int py_float no_fault r (Some doc) x
               = (x, [NoScorebox]))
      by (intros x; by apply run_without_scorebox).
    rewrite !Hrun. cbn [fst]. by rewrite app_nil_r.
Qed.

End Engine.



Example team_aggregates_example :
  team_sum (team_sums example_derived) "home_shots" = NInt 6
  /\ team_sum (team_sums example_derived) "away_shots" = NInt 4
  /\ home_sca_val example_derived = 8
  /\ sca_val two_records = 2
  /\ column_total two_records "shots" = NInt 5
  /\ column_sum two_records "sca" = Q2Qc (5 # 2).
Proof. by vm_compute. Qed.

End MatchFacts.

(** ** The example page, and where the stated claims fail *)

Module Cases.
Import Text Data Resolver Metadata Players Storage Shots Match Stated Examples.
Local Open Scope list_scope.

(** The example page derives to what section 4 describes. *)
Example example_page_derived :
  (home_team_id example_derived, away_team_id example_derived) = ("18bb7c10", "cd051869")
  /\ score example_derived = "2 : 1"
  /\ (home_formation example_derived, away_formation example_derived) = ("4-3-3", "3-5-2")
  /\ (home_pos example_derived, away_pos example_derived) = ("61%", "39%")
  /\ (fun pv => (player pv, minutes pv, sub_in_out pv, starter pv))
       <$> values (home_players (squads example_derived))
     = [ ("Trossard", 23, render (TagIn "67"), "no");
         ("Saka", 90, render TagNone, "yes");
         ("Jesus", 67, render (TagOut "67"), "yes") ]
  /\ player <$> values (away_players (squads example_derived)) = ["Toney"]
  /\ (home_subs_val (squads example_derived), away_subs_val (squads example_derived)) = (1, 0).
Proof. by vm_compute. Qed.

(** C9, as stated, fails. Without score elements the score is "0 : 0",
    not "0:0"; and with the home lineup header alone, which has the token
    (4-3-3), the home formation is "Unknown". *)
Lemma metadata_defaults_differ :
  (score_divs {| squad_links := []; score_divs := [] |} = []
   /\ final_score {| squad_links := []; score_divs := [] |} = "0 : 0"
   /\ final_score {| squad_links := []; score_divs := [] |} <> "0:0")
  /\ (lineup_a page_home_lineup_only = Some {| formation_th := Some "Arsenal (4-3-3)" |}
      /\ formation_of "Arsenal (4-3-3)" = "4-3-3"
      /\ fst (formations page_home_lineup_only) = "Unknown").
Proof. by vm_compute. Qed.

(** C6, as stated, fails. On a page where no player is known, a
    substitution event of the home side whose two links resolve adds one to
    the home counter, although neither player is in the home dictionary. *)
Lemma substitution_counted_without_players :
  counted example_substitution
  = Some (Home, "/en/players/38ceb24a/Trossard", "/en/players/b66315ae/Jesus")
  /\ ~ both_known Home "/en/players/38ceb24a/Trossard" "/en/players/b66315ae/Jesus" nobody
  /\ home_subs_val (process_event nobody example_substitution) = home_subs_val nobody + 1
  /\ home_players (process_event nobody example_substitution) = ∅.
Proof.
  split_and!; [by vm_compute | | by vm_compute | by vm_compute].
  intros (pin & pout & _ & _ & [x Hx] & _). cbn in Hx. by rewrite lookup_empty in Hx.
Qed.

(** C2, on the example page: the team row and the four player rows are
    staged, the insert of the shot batch fails, and the store is the empty
    store it was. *)
Lemma persist_all_or_nothing_witness :
  fst (persist shot_insert_fails example_row example_derived empty_db) = empty_db.
Proof.
  apply (proj2 (PersistFacts.persist_all_or_nothing shot_insert_fails example_row
                  example_derived empty_db)).
  exists 6%nat. split; [vm_compute; lia | reflexivity].
Defined.

Example shot_insert_failure_is_logged :
  scrape_and_insert_match_data example_int example_float shot_insert_fails example_row
    (Some example_page) empty_db
  = (empty_db, [DbInsertError]).
Proof. by vm_compute. Qed.

(** C3, as stated, fails. The second run of the example page leaves two
    copies of its shot event in the shot-event table. *)
Lemma rerun_duplicates_shot_events :
  let run := scrape_and_insert_match_data example_int example_float no_fault example_row
               (Some example_page) in
  length (match_events (fst (run empty_db))) = 1%nat
  /\ length (match_events (fst (run (fst (run empty_db))))) = 2%nat
  /\ size (all_matchups_players (fst (run (fst (run empty_db))))) = 4%nat.
Proof. by vm_compute. Qed.

(** C7, on three pages: without the scorebox nothing is written; with the
    scorebox the insertion is logged last; with the scorebox and nothing
    else the team row is written with the defaults. *)
Lemma scorebox_is_required_witness :
  scrape_and_insert_match_data example_int example_float no_fault example_row
    (Some page_without_scorebox) empty_db
  = (empty_db, [NoScorebox])
  /\ last (snd (scrape_and_insert_match_data example_int example_float no_fault example_row
                  (Some example_page) empty_db))
     = Some (Inserted "2024-03-09" "Brentford @ Arsenal").
Proof.
  split.
  - exact (proj1 (proj2 (MatchFacts.scorebox_is_required example_int example_float no_fault
                           example_row page_without_scorebox empty_db)) eq_refl).
  - exact (proj1 (proj2 (proj2 (proj2 (proj2
             (MatchFacts.scorebox_is_required example_int example_float no_fault
                example_row example_page empty_db))
             example_scorebox eq_refl eq_refl) (fun i _ => eq_refl)))).
Defined.

Example bare_page_is_recorded :
  let db := fst (scrape_and_insert_match_data example_int example_float no_fault example_row
                   (Some bare_page) empty_db) in
  (fun row => (row !! "score", row !! "home_formation", row !! "home_possession",
               row !! "home_team_id", row !! "home_shots", row !! "home_sca"))
    <$> all_matchups_teams db
          !! [SqlStr "2024-03-09"; SqlStr "Brentford @ Arsenal"; SqlStr "Premier League"]
  = Some (Some (SqlStr "0 : 0"), Some (SqlStr "Unknown"), Some (SqlStr "0%"),
          Some (SqlStr UNRESOLVED), Some (SqlInt 0), Some (SqlInt 0)).
Proof. by vm_compute. Qed.

(** C10, on the example page: the third table carries a code that is
    neither side's, and its player is in neither dictionary. *)
Example foreign_table_example :
  let players := parse_stats_tables example_int example_float "18bb7c10" "cd051869"
                   example_tables in
  of_resolved_side "18bb7c10" "cd051869" <$> example_tables = [true; true; false]
  /\ fst players !! "00000001" = None
  /\ snd players !! "00000001" = None
  /\ (size (fst players), size (snd players)) = (3%nat, 1%nat).
Proof. by vm_compute. Qed.

(** The tuples are laid out as the column lists are. *)
Example columns_layout :
  teams_columns
  = [ "date"; "matchup"; "comp"; "home_squad"; "away_squad"; "score";
      "home_formation"; "away_formation"; "home_possession"; "away_possession";
      "home_subs"; "away_subs" ]
    ++ flat_map (fun c => ["home_" +:+ c; "away_" +:+ c]) count_columns
    ++ [ "match_report_url"; "home_sca"; "away_sca"; "home_team_id"; "away_team_id" ]
  /\ players_columns
     = [ "date"; "matchup"; "comp"; "player"; "player_id"; "position"; "squad";
         "opponent"; "home_away"; "minutes"; "starter" ]
       ++ db_columns ++ [ "sub_in_out"; "match_report_url" ]
  /\ (length teams_columns, length players_columns, length (columns insert_events_sql))
     = (71%nat, 41%nat, 14%nat).
Proof. by vm_compute. Qed.

End Cases.

(* ===================================================================== *)
(** * Further properties of the engine *)
(* ===================================================================== *)

(** ** Codes read from links *)

Module CodeFacts.
Import Text Data Resolver Players Shots Stated TextFacts.

Lemma eat_app (p r : string) : eat p (p +:+ r) = Some r.
Proof. induction p as [|c p IH]; str; cbn [eat]; [done|]. by rewrite Ascii.eqb_refl. Qed.

Lemma eat_inv (p s r : string) : eat p s = Some r -> s = p +:+ r.
Proof.
  revert s. induction p as [|c p IH]; intros s; cbn [eat]; str.
  - by intros [= ->].
  - destruct s as [|b s]; [done|].
    destruct (Ascii.eqb_spec c b) as [->|]; [|done]. intros H. by rewrite (IH _ H).
Qed.

Lemma span_until_inv (stop : ascii) (s run rest : string) :
  span_until stop s = (run, rest) ->
  s = run +:+ rest /\ has_char stop run = false
  /\ (rest = "" \/ exists r, rest = String stop r).
Proof.
  revert run rest. induction s as [|c s IH]; intros run rest; cbn [span_until].
  - intros [= <- <-]. auto.
  - destruct (Ascii.eqb_spec c stop) as [->|Hne].
    + intros [= <- <-]. str. split_and!; [done..|]. right. by eexists.
    + destruct (span_until stop s) as [run' rest'] eqn:E. intros [= <- <-].
      destruct (IH run' rest' eq_refl) as (-> & Hrun & Hrest). str.
      split_and!; [done | | done]. cbn [has_char]. rewrite Hrun.
      destruct (Ascii.eqb_spec c stop); [done | done].
Qed.

(** A match of the pattern at the head of the text: the group is not
    empty, it holds no stop character, and the stop character follows it. *)
Lemma group_here_inv (p : string) (stop : ascii) (s g : string) :
  group_here p stop s = Some g ->
  g <> "" /\ has_char stop g = false /\ exists post, s = p +:+ g +:+ String stop post.
Proof.
  unfold group_here. destruct (eat p s) as [s1|] eqn:E; [|done].
  apply eat_inv in E as ->.
  destruct (span_until stop s1) as [run rest] eqn:Es.
  apply span_until_inv in Es as (-> & Hrun & Hrest).
  destruct run as [|c run]; [done|]. destruct rest as [|b rest]; [done|].
  intros [= <-]. split_and!; [done | done |].
  destruct Hrest as [|[r [= -> ->]]]; [done|]. by eexists.
Qed.

Lemma group_here_at (p : string) (stop : ascii) (g post : string) :
  g <> "" -> has_char stop g = false ->
  group_here p stop (p +:+ g +:+ String stop post) = Some g.
Proof.
  intros Hne Hg. unfold group_here. rewrite eat_app, (span_until_token stop g post Hg).
  by destruct g.
Qed.

(** The group of a search is a run of the text between the prefix of
    the pattern and the stop character. *)
Lemma search_group_inv (p : string) (stop : ascii) (s g : string) :
  search_group p stop s = Some g ->
  g <> "" /\ has_char stop g = false
  /\ exists pre post, s = pre +:+ p +:+ g +:+ String stop post.
Proof.
  induction s as [|c s IH]; cbn [search_group].
  - destruct (group_here p stop "") as [g'|] eqn:E; [|done].
    intros [= ->]. apply group_here_inv in E as (? & ? & post & E).
    split_and!; [done..|]. by exists "", post.
  - destruct (group_here p stop (String c s)) as [g'|] eqn:E.
    + intros [= ->]. apply group_here_inv in E as (? & ? & post & E).
      split_and!; [done..|]. by exists "", post.
    + intros (? & ? & pre & post & ->)%IH. split_and!; [done..|].
      by exists (String c pre), post.
Qed.

Lemma search_group_at (p : string) (stop : ascii) (g post : string) :
  g <> "" -> has_char stop g = false ->
  search_group p stop (p +:+ g +:+ String stop post) = Some g.
Proof.
  intros Hne Hg.
  assert (H : forall s, group_here p stop s = Some g -> search_group p stop s = Some g)
    by (intros [|c s] E; cbn [search_group]; by rewrite E).
  by apply H, group_here_at.
Qed.

(** X1. The code [extract_team_id] reads from a link is the sentinel, or a
    non-empty run without slash that stands in the link between
    [/en/squads/] and a slash; on a link that starts with [/en/squads/],
    as every link of the scorebox loop does, it is the segment that
    follows. *)
Theorem extract_team_id_code (hval : string) :
  (extract_team_id hval = UNRESOLVED
   \/ (extract_team_id hval <> "" /\ has_char "/" (extract_team_id hval) = false
       /\ exists pre post,
            hval = pre +:+ "/en/squads/" +:+ extract_team_id hval +:+ "/" +:+ post))
  /\ (forall id post, id <> "" -> has_char "/" id = false ->
        extract_team_id ("/en/squads/" +:+ id +:+ "/" +:+ post) = id).
Proof.
  split.
  - unfold extract_team_id.
    destruct (search_group "/en/squads/" "/" hval) as [g|] eqn:E; [|by left].
    right. cbn [default]. by apply search_group_inv in E.
  - intros id post Hne Hid. unfold extract_team_id.
    change ("/" +:+ post) with (String "/" post).
    by rewrite (search_group_at "/en/squads/" "/" id post Hne Hid).
Qed.

(** [tok] has no [c]: the split at [c] cuts right after it. *)
Lemma split_on_token (c : ascii) (tok rest : string) :
  has_char c tok = false ->
  split_on c (tok +:+ String c rest) = tok :: split_on c rest.
Proof.
  induction tok as [|a tok IH]; str; cbn [has_char split_on].
  - by rewrite Ascii.eqb_refl.
  - intros [Ha Ht]%orb_false_elim. by rewrite Ha, (IH Ht).
Qed.

Lemma split_on_head (c : ascii) (s : string) :
  exists p ps, split_on c s = p :: ps.
Proof.
  induction s as [|a s (p & ps & IH)]; cbn [split_on]; [by eexists _, _|].
  destruct (Ascii.eqb a c); [by eexists _, _|]. rewrite IH. by eexists _, _.
Qed.

(** The fourth part of a player link is the code that follows
    [/en/players/]. *)
Lemma split_player_href (id name_ : string) :
  has_char "/" id = false ->
  split_on "/" ("/en/players/" +:+ id +:+ "/" +:+ name_) !! 3%nat = Some id.
Proof.
  intros Hid.
  change ("/en/players/" +:+ id +:+ "/" +:+ name_)
    with ("" +:+ String "/" ("en" +:+ String "/" ("players" +:+ String "/"
            (id +:+ String "/" name_)))).
  rewrite !split_on_token by done. done.
Qed.

(** X2. The three places that identify a player agree on a link of the
    form [/en/players/<code>/<name>]: the rows of the statistics tables
    and the substitution events, which search the link for the pattern,
    and the shot log, which takes the fourth part of the link when the
    cell has no [data-append-csv]; a cell that has one is identified by
    it, stripped as [str.strip] strips it: of the white space of
    [str.isspace] at both ends, the characters of two and three bytes
    included. *)
Theorem player_codes_agree (id name_ data_stat : string) (row__ : shot_row)
    (row_ : stat_row) (tag_ : shot_cell) :
  id <> "" -> has_char "/" id = false ->
  let href := "/en/players/" +:+ id +:+ "/" +:+ name_ in
  player_code href = Some id
  /\ (a_href <$> player_link row_ = Some href -> row_pid row_ = Some id)
  /\ (find_cell data_stat (shot_cells row__) = Some tag_ ->
      (falsy (data_append_csv tag_) = true -> cell_href tag_ = Some href ->
         get_player_id row__ data_stat = Some id)
      /\ (forall csv, data_append_csv tag_ = Some csv -> csv <> "" ->
            get_player_id row__ data_stat = Some (strip csv))).
Proof.
  intros Hne Hid href.
  assert (Hcode : search_group "/en/players/" "/" href = Some id)
    by by apply search_group_at.
  split_and!.
  - exact Hcode.
  - unfold row_pid. destruct (player_link row_) as [a_|]; [|done].
    cbn. intros [= ->]. by rewrite Hcode.
  - intros Hcell. unfold get_player_id. rewrite Hcell. split.
    + intros Hcsv ->. unfold href. rewrite (split_player_href id name_ Hid).
      by destruct (data_append_csv tag_) as [[|]|].
    + intros csv -> Hcsv. by destruct csv.
Qed.

Lemma player_codes_agree_witness :
  player_code "/en/players/bc7dc64d/Saka" = Some "bc7dc64d"
  /\ get_player_id
       {| row_class := [];
          shot_cells := [("player", {| cell_text := "Saka"; data_append_csv := None;
                                       cell_href := Some "/en/players/bc7dc64d/Saka" |})] |}
       "player" = Some "bc7dc64d"
  /\ get_player_id
       {| row_class := [];
          shot_cells :=
            [("player",
              {| cell_text := "Saka";
                 data_append_csv :=
                   Some (String "194" (String "160"
                           ("bc7dc64d" +:+ String "194" (String "160" " "))));
                 cell_href := Some "/en/players/00000000/Saka" |})] |}
       "player" = Some "bc7dc64d".
Proof.
  pose proof (player_codes_agree "bc7dc64d" "Saka" "player"
    {| row_class := [];
       shot_cells := [("player", {| cell_text := "Saka"; data_append_csv := None;
                                    cell_href := Some "/en/players/bc7dc64d/Saka" |})] |}
    {| player_link := None; stat_cells := [] |}
    {| cell_text := "Saka"; data_append_csv := None;
       cell_href := Some "/en/players/bc7dc64d/Saka" |}
    ltac:(discriminate) ltac:(reflexivity)) as (H1 & _ & H3).
  pose proof (player_codes_agree "bc7dc64d" "Saka" "player"
    {| row_class := [];
       shot_cells :=
         [("player",
           {| cell_text := "Saka";
              data_append_csv :=
                Some (String "194" (String "160"
                        ("bc7dc64d" +:+ String "194" (String "160" " "))));
              cell_href := Some "/en/players/00000000/Saka" |})] |}
    {| player_link := None; stat_cells := [] |}
    {| cell_text := "Saka";
       data_append_csv :=
         Some (String "194" (String "160"
                 ("bc7dc64d" +:+ String "194" (String "160" " "))));
       cell_href := Some "/en/players/00000000/Saka" |}
    ltac:(discriminate) ltac:(reflexivity)) as (_ & _ & H4).
  split; [exact H1|]. split; [apply H3; reflexivity|].
  exact (proj2 (H4 eq_refl) _ eq_refl ltac:(discriminate)).
Defined.

End CodeFacts.

(** ** Team identity: the dictionary of the scorebox and the lookup *)

Module LookupFacts.
Import Text Data Resolver Stated Notions TextFacts.
Local Open Scope list_scope.

Lemma dict_get_set (k v : string) (d : list (string * string)) :
  dict_get k (dict_set k v d) = Some v.
Proof.
  induction d as [|[k' v'] d IH]; cbn [dict_set dict_get].
  - by rewrite String.eqb_refl.
  - destruct (String.eqb_spec k k') as [->|Hne]; cbn [dict_get].
    + by rewrite String.eqb_refl.
    + by rewrite (proj2 (String.eqb_neq k k') Hne).
Qed.

Lemma dict_get_set_ne (k k' v : string) (d : list (string * string)) :
  k <> k' -> dict_get k' (dict_set k v d) = dict_get k' d.
Proof.
  intros Hne. induction d as [|[k0 v0] d IH]; cbn [dict_set dict_get].
  - by rewrite (proj2 (String.eqb_neq k' k)).
  - destruct (String.eqb_spec k k0) as [->|Hk]; cbn [dict_get].
    + by rewrite !(proj2 (String.eqb_neq k' k0)).
    + by rewrite IH.
Qed.

Lemma dict_get_elem (k v : string) (d : list (string * string)) :
  dict_get k d = Some v -> (k, v) ∈ d.
Proof.
  induction d as [|[k' v'] d IH]; cbn [dict_get]; [done|].
  destruct (String.eqb_spec k k') as [->|Hne].
  - intros [= ->]. apply list_elem_of_here.
  - intros H. by apply list_elem_of_further, IH.
Qed.

Lemma dict_set_elem (k v : string) (d : list (string * string)) (kv : string * string) :
  kv ∈ dict_set k v d -> kv = (k, v) \/ kv ∈ d.
Proof.
  induction d as [|[k' v'] d IH]; cbn [dict_set].
  - intros ->%list_elem_of_singleton. by left.
  - destruct (String.eqb k k').
    + intros [->|H]%elem_of_cons; [by left|]. right. by apply list_elem_of_further.
    + intros [->|H]%elem_of_cons; [right; apply list_elem_of_here|].
      destruct (IH H) as [->|H']; [by left|]. right. by apply list_elem_of_further.
Qed.

Lemma collect_elem (links : list anchor) (d : list (string * string))
    (kv : string * string) :
  kv ∈ collect d links ->
  kv ∈ d \/ exists a_tag, a_tag ∈ links /\ kv = (a_text a_tag, extract_team_id (a_href a_tag)).
Proof.
  revert d. induction links as [|b links IH]; intros d; cbn [collect foldl]; [by left|].
  intros [[->|H]%dict_set_elem|(a_tag & Ha & ->)]%IH.
  - right. exists b. split; [apply list_elem_of_here | done].
  - by left.
  - right. exists a_tag. split; [by apply list_elem_of_further | done].
Qed.

Lemma collect_keeps (links : list anchor) (d : list (string * string)) (k : string) :
  (forall b, b ∈ links -> a_text b <> k) -> dict_get k (collect d links) = dict_get k d.
Proof.
  revert d. induction links as [|b links IH]; intros d Hk; cbn [collect foldl]; [done|].
  change (dict_get k (collect (dict_set (a_text b) (extract_team_id (a_href b)) d) links)
          = dict_get k d).
  rewrite IH by (intros c Hc; by apply Hk, list_elem_of_further).
  apply dict_get_set_ne, Hk, list_elem_of_here.
Qed.

(** X3. The dictionary of the scorebox: every entry is the text of a squad
    link with the code read from that link, and a text that stands on
    several links keeps the code of the last of them. *)
Theorem found_team_map_entries (sb : scorebox_div) :
  (forall k v, dict_get k (found_team_map sb) = Some v ->
     exists a_tag, a_tag ∈ squad_links sb
                   /\ a_text a_tag = k /\ extract_team_id (a_href a_tag) = v)
  /\ (forall before a_tag after,
        squad_links sb = before ++ a_tag :: after ->
        (forall b, b ∈ after -> a_text b <> a_text a_tag) ->
        dict_get (a_text a_tag) (found_team_map sb)
        = Some (extract_team_id (a_href a_tag))).
Proof.
  split.
  - intros k v H%dict_get_elem.
    destruct (collect_elem (squad_links sb) [] (k, v) H) as [H0|(a_tag & Ha & [= -> ->])].
    + by apply elem_of_nil in H0.
    + by exists a_tag.
  - intros before a_tag after Hl Hafter. unfold found_team_map. rewrite Hl.
    rewrite foldl_app. cbn [foldl].
    change (dict_get (a_text a_tag)
              (collect (dict_set (a_text a_tag) (extract_team_id (a_href a_tag))
                          (collect [] before)) after)
            = Some (extract_team_id (a_href a_tag))).
    rewrite collect_keeps by done. apply dict_get_set.
Qed.

Lemma starts_with_refl (s : string) : starts_with s s = true.
Proof. induction s as [|c s IH]; [done|]. cbn [starts_with]. by rewrite Ascii.eqb_refl. Qed.

Lemma contains_refl (s : string) : contains s s = true.
Proof. destruct s; cbn [contains]; by rewrite starts_with_refl. Qed.

Lemma safe_lookup_found (found : list (string * string)) (name_ : string) :
  safe_lookup found name_ = UNRESOLVED
  \/ exists k, (k, safe_lookup found name_) ∈ found
               /\ contains (lower name_) (lower k) = true.
Proof.
  unfold safe_lookup. destruct (dict_get name_ found) as [v|] eqn:E.
  - right. exists name_. split; [by apply dict_get_elem | apply contains_refl].
  - destruct (List.find _ found) as [[k v]|] eqn:F; [|by left].
    right. apply find_some in F as [Hin Hc]. exists k. split; [|done].
    by apply list_elem_of_In.
Qed.

(** X4. [safe_lookup] gives the code of the schedule name itself when
    that name was discovered, and in every case the sentinel or a code
    that was discovered. For ASCII names, the schedule name and the
    discovered ones, on which [lower] is [str.lower]: the code it gives
    is the sentinel or the code of a discovered name that contains the
    schedule name whatever the case, and it is the sentinel when no
    discovered name does. *)
Theorem safe_lookup_matches (found : list (string * string)) (name_ : string) :
  (forall v, dict_get name_ found = Some v -> safe_lookup found name_ = v)
  /\ (safe_lookup found name_ = UNRESOLVED
      \/ exists k, (k, safe_lookup found name_) ∈ found)
  /\ (ascii_text name_ = true -> forallb (fun kv => ascii_text kv.1) found = true ->
      (safe_lookup found name_ = UNRESOLVED
       \/ exists k, (k, safe_lookup found name_) ∈ found
                    /\ contains (lower name_) (lower k) = true)
      /\ ((forall kv, kv ∈ found -> contains (lower name_) (lower kv.1) = false) ->
          safe_lookup found name_ = UNRESOLVED)).
Proof.
  split_and!.
  - unfold safe_lookup. by intros v ->.
  - destruct (safe_lookup_found found name_) as [H|(k & H & _)]; [by left|].
    right. by exists k.
  - intros _ _. split; [apply safe_lookup_found|].
    intros Hnone. unfold safe_lookup. destruct (dict_get name_ found) as [v|] eqn:E.
    + apply dict_get_elem, Hnone in E. cbn in E. by rewrite contains_refl in E.
    + destruct (List.find _ found) as [[k v]|] eqn:F; [|done].
      apply find_some in F as [Hin Hc]. apply list_elem_of_In, Hnone in Hin.
      cbn in *. congruence.
Qed.

Lemma safe_lookup_matches_witness :
  safe_lookup [("Arsenal FC", "18bb7c10"); ("Brentford", "cd051869")] "arsenal" = UNRESOLVED
  \/ exists k,
       (k, safe_lookup [("Arsenal FC", "18bb7c10"); ("Brentford", "cd051869")] "arsenal")
         ∈ [("Arsenal FC", "18bb7c10"); ("Brentford", "cd051869")]
       /\ contains (lower "arsenal") (lower k) = true.
Proof.
  exact (proj1 (proj2 (proj2 (safe_lookup_matches
                                [("Arsenal FC", "18bb7c10"); ("Brentford", "cd051869")]
                                "arsenal")) eq_refl eq_refl)).
Defined.

Lemma safe_lookup_range (found : list (string * string)) (name_ : string) :
  safe_lookup found name_ = UNRESOLVED \/ safe_lookup found name_ ∈ team_ids_found found.
Proof.
  destruct (safe_lookup_found found name_) as [H|(k & Hk & _)]; [by left|].
  right. unfold team_ids_found. rewrite elem_of_list_to_set, list_elem_of_fmap.
  by exists (k, safe_lookup found name_).
Qed.

Lemma forced_id_cases (team id : string) :
  forced_id team id = id
  \/ (forced_id team id = forced_id team UNRESOLVED
      /\ forced_id team UNRESOLVED <> UNRESOLVED).
Proof.
  unfold forced_id.
  destruct (String.eqb team "Wolves"); [by right|].
  destruct (String.eqb team "Manchester Utd"); [by right|].
  destruct (String.eqb team "Newcastle Utd"); [by right|]. by left.
Qed.

(** What the fallback gives for a side is what it was given, or a code of
    the set; a resolved code is not replaced. *)
Lemma fallback_range (ids : gset string) (home_id away_id : string) :
  let res := fallback ids home_id away_id in
  (res.1.1 = home_id \/ (home_id = UNRESOLVED /\ res.1.1 ∈ ids))
  /\ (res.1.2 = away_id \/ (away_id = UNRESOLVED /\ res.1.2 ∈ ids)).
Proof.
  unfold fallback.
  destruct (bool_decide (home_id <> UNRESOLVED) && bool_decide (away_id = UNRESOLVED)) eqn:C1.
  - apply andb_prop in C1 as [_ Ha%bool_decide_eq_true].
    destruct (elements (ids ∖ {[home_id]})) as [|x [|y l]] eqn:E; cbn; try by auto.
    split; [by left|]. right. split; [done|].
    assert (Hx : x ∈ elements (ids ∖ {[home_id]})) by (rewrite E; apply list_elem_of_here).
    apply elem_of_elements in Hx. set_solver.
  - destruct (bool_decide (away_id <> UNRESOLVED) && bool_decide (home_id = UNRESOLVED)) eqn:C2.
    + apply andb_prop in C2 as [_ Hh%bool_decide_eq_true].
      destruct (elements (ids ∖ {[away_id]})) as [|x [|y l]] eqn:E; cbn; try by auto.
      split; [|by left]. right. split; [done|].
      assert (Hx : x ∈ elements (ids ∖ {[away_id]})) by (rewrite E; apply list_elem_of_here).
      apply elem_of_elements in Hx. set_solver.
    + cbn. auto.
Qed.

Lemma resolve_team_ids_fst (sb : scorebox_div) (home_team away_team : string) :
  (resolve_team_ids sb home_team away_team).1
  = (fallback (team_ids_found (found_team_map sb))
       (forced_id home_team (safe_lookup (found_team_map sb) home_team))
       (forced_id away_team (safe_lookup (found_team_map sb) away_team))).1.
Proof.
  unfold resolve_team_ids. cbv zeta.
  by destruct (fallback _ _ _) as [[h a] w].
Qed.

(** X5. The resolver invents no code: the code of a side is the sentinel,
    the forced code of the team, or one of the codes of the scorebox, each
    of which was read from a squad link. *)
Theorem resolve_team_ids_range (sb : scorebox_div) (home_team away_team : string) :
  let ids := team_ids_found (found_team_map sb) in
  let res := resolve_team_ids sb home_team away_team in
  (res.1.1 = UNRESOLVED \/ res.1.1 = forced_id home_team UNRESOLVED \/ res.1.1 ∈ ids)
  /\ (res.1.2 = UNRESOLVED \/ res.1.2 = forced_id away_team UNRESOLVED \/ res.1.2 ∈ ids)
  /\ (forall x, x ∈ ids ->
        exists a_tag, a_tag ∈ squad_links sb /\ x = extract_team_id (a_href a_tag)).
Proof.
  intros ids res. unfold res. rewrite resolve_team_ids_fst. fold ids.
  set (found := found_team_map sb).
  destruct (fallback_range ids (forced_id home_team (safe_lookup found home_team))
              (forced_id away_team (safe_lookup found away_team))) as [Hh Ha].
  cbv zeta in Hh, Ha.
  assert (Hside : forall team, forced_id team (safe_lookup found team) = UNRESOLVED
            \/ forced_id team (safe_lookup found team) = forced_id team UNRESOLVED
            \/ forced_id team (safe_lookup found team) ∈ ids).
  { intros team. destruct (forced_id_cases team (safe_lookup found team)) as [->|[-> _]].
    - destruct (safe_lookup_range found team); auto.
    - auto. }
  split_and!.
  - destruct Hh as [->|[_ Hh]]; [apply Hside | auto].
  - destruct Ha as [->|[_ Ha]]; [apply Hside | auto].
  - intros x Hx. unfold ids, team_ids_found in Hx.
    apply elem_of_list_to_set, list_elem_of_fmap in Hx as ([k v] & -> & Hkv).
    destruct (collect_elem (squad_links sb) [] (k, v) Hkv) as [H0|(a_tag & Ha' & [= -> ->])].
    + by apply elem_of_nil in H0.
    + by exists a_tag.
Qed.

(** X6. A code that is resolved before the fallback is final: the fallback
    fills the side that is missing and never replaces the other. So a
    forced team has its forced code whatever the page holds. *)
Theorem resolved_codes_are_final (sb : scorebox_div) (home_team away_team : string) :
  let found := found_team_map sb in
  let res := resolve_team_ids sb home_team away_team in
  (forced_id home_team (safe_lookup found home_team) <> UNRESOLVED ->
     res.1.1 = forced_id home_team (safe_lookup found home_team))
  /\ (forced_id away_team (safe_lookup found away_team) <> UNRESOLVED ->
     res.1.2 = forced_id away_team (safe_lookup found away_team))
  /\ (home_team ∈ ["Wolves"; "Manchester Utd"; "Newcastle Utd"] ->
     res.1.1 = forced_id home_team UNRESOLVED /\ res.1.1 <> UNRESOLVED)
  /\ (away_team ∈ ["Wolves"; "Manchester Utd"; "Newcastle Utd"] ->
     res.1.2 = forced_id away_team UNRESOLVED /\ res.1.2 <> UNRESOLVED).
Proof.
  intros found res. unfold res. rewrite resolve_team_ids_fst. fold found.
  destruct (fallback_range (team_ids_found found)
              (forced_id home_team (safe_lookup found home_team))
              (forced_id away_team (safe_lookup found away_team))) as [Hh Ha].
  cbv zeta in Hh, Ha.
  assert (Hforced : forall team x, team ∈ ["Wolves"; "Manchester Utd"; "Newcastle Utd"] ->
            forced_id team x = forced_id team UNRESOLVED
            /\ forced_id team UNRESOLVED <> UNRESOLVED).
  { intros team x Ht. rewrite !elem_of_cons, elem_of_nil in Ht.
    destruct Ht as [->|[->|[->|[]]]]; by vm_compute. }
  split_and!.
  - intros Hne. by destruct Hh as [->|[? _]].
  - intros Hne. by destruct Ha as [->|[? _]].
  - intros Ht. destruct (Hforced home_team (safe_lookup found home_team) Ht) as [E Hne].
    destruct Hh as [Hh|[? _]]; [|congruence]. rewrite Hh, E. done.
  - intros Ht. destruct (Hforced away_team (safe_lookup found away_team) Ht) as [E Hne].
    destruct Ha as [Ha|[? _]]; [|congruence]. rewrite Ha, E. done.
Qed.

End LookupFacts.

(** ** Player records: what the tables leave in them *)

Module RecordFacts.
Import Text Data Resolver Metadata Players Storage Shots Match Stated Notions.
Local Open Scope list_scope.

Section Records.

Variable py_int : string -> option Z.
Variable py_float : string -> option Qc.

(** *** Every listed player has a record *)

Lemma rows_dom_grows (is_home : bool) (rows_ : list stat_row)
    (st : gmap string pdict * gmap string pdict) (pid : string) :
  is_Some ((if is_home then fst else snd) st !! pid)
  \/ (exists row_, row_ ∈ rows_ /\ row_pid row_ = Some pid) ->
  is_Some ((if is_home then fst else snd)
             (foldl (process_row py_int py_float is_home) st rows_) !! pid).
Proof.
  revert st. induction rows_ as [|row_ rows_ IH]; intros st.
  - intros [H|(r & Hr & _)]; [done | by apply elem_of_nil in Hr].
  - intros H. cbn [foldl]. apply IH.
    unfold process_row, row_pid in *.
    destruct H as [H|(r & [->|Hr]%elem_of_cons & Hp)].
    + left. destruct (player_link row_) as [a_|]; [|done].
      destruct is_home; cbn [fst snd] in *;
        apply TablesFacts.update_player_dom; by right.
    + left. destruct (player_link row_) as [a_|]; [|done].
      cbn in Hp. injection Hp as <-.
      destruct is_home; cbn [fst snd] in *;
        apply TablesFacts.update_player_dom; by left.
    + right. by exists r.
Qed.

Lemma tables_dom_grows (home_team_id away_team_id : string) (tables : list stats_table)
    (st : gmap string pdict * gmap string pdict) (pid : string) :
  (is_Some (fst st !! pid) \/ listed_under home_team_id tables pid ->
   is_Some (fst (foldl (process_table py_int py_float home_team_id away_team_id) st tables)
              !! pid))
  /\ (is_Some (snd st !! pid)
      \/ (away_team_id <> home_team_id /\ listed_under away_team_id tables pid) ->
      is_Some (snd (foldl (process_table py_int py_float home_team_id away_team_id) st tables)
                 !! pid)).
Proof.
  revert st. induction tables as [|tbl tables IH]; intros st.
  - split.
    + intros [H|(t & rs & r & Ht & _)]; [done | by apply elem_of_nil in Ht].
    + intros [H|[_ (t & rs & r & Ht & _)]]; [done | by apply elem_of_nil in Ht].
  - cbn [foldl].
    destruct (IH (process_table py_int py_float home_team_id away_team_id st tbl))
      as [IHh IHa].
    split.
    + intros H. apply IHh.
      destruct H as [H|(t & rs & r & [->|Ht]%elem_of_cons & Hc & Hb & Hr & Hp)].
      * left. unfold process_table.
        destruct (table_code tbl) as [code_|]; [|done].
        destruct (String.eqb code_ home_team_id).
        -- destruct (table_tbody tbl); [|done]. apply (rows_dom_grows true). by left.
        -- destruct (String.eqb code_ away_team_id); [|done].
           destruct (table_tbody tbl); [|done]. by rewrite TablesFacts.rows_away_frame.
      * left. unfold process_table. rewrite Hc, String.eqb_refl, Hb.
        apply (rows_dom_grows true). right. by exists r.
      * right. by exists t, rs, r.
    + intros H. apply IHa.
      destruct H as [H|[Hne (t & rs & r & [->|Ht]%elem_of_cons & Hc & Hb & Hr & Hp)]].
      * left. unfold process_table.
        destruct (table_code tbl) as [code_|]; [|done].
        destruct (String.eqb code_ home_team_id).
        -- destruct (table_tbody tbl); [|done]. by rewrite TablesFacts.rows_home_frame.
        -- destruct (String.eqb code_ away_team_id); [|done].
           destruct (table_tbody tbl); [|done]. apply (rows_dom_grows false). by left.
      * left. unfold process_table. rewrite Hc.
        rewrite (proj2 (String.eqb_neq away_team_id home_team_id) Hne).
        rewrite String.eqb_refl, Hb.
        apply (rows_dom_grows false). right. by exists r.
      * right. split; [done|]. by exists t, rs, r.
Qed.

(** X7. Every player of a row of a table that carries the home code has a
    record in the home dictionary, and every player of a row of a table
    that carries the away code has one in the away dictionary when the two
    codes differ; when they are equal the away dictionary stays empty. *)
Theorem listed_players_have_records (home_team_id away_team_id : string)
    (tables : list stats_table) (pid : string) :
  let players := parse_stats_tables py_int py_float home_team_id away_team_id tables in
  (listed_under home_team_id tables pid -> is_Some (players.1 !! pid))
  /\ (away_team_id <> home_team_id -> listed_under away_team_id tables pid ->
      is_Some (players.2 !! pid))
  /\ (away_team_id = home_team_id -> players.2 = ∅).
Proof.
  cbv zeta. unfold parse_stats_tables.
  destruct (tables_dom_grows home_team_id away_team_id tables (∅, ∅) pid) as [Hh Ha].
  split_and!.
  - intros H. apply Hh. by right.
  - intros Hne H. apply Ha. by right.
  - intros ->. apply map_eq. intros p. rewrite lookup_empty.
    destruct (TablesFacts.tables_dom py_int py_float home_team_id home_team_id tables
                (∅, ∅) p) as [_ H].
    apply eq_None_not_Some. intros [Hs|[Hne _]]%H; [|done].
    cbn [snd] in Hs. rewrite lookup_empty in Hs. by destruct Hs.
Qed.

(** *** What holds of every record *)

Section Invariant.

Variable P : pdict -> Prop.
Hypothesis P_init : forall pid_ pname_, P (init_player_dict pid_ pname_).
Hypothesis P_row : forall row_ pv,
  P pv -> P (populate_minutes py_int row_
               (populate_position row_ (populate_stats py_int py_float row_ pv))).
Hypothesis P_tag : forall tag pv, P pv -> P (set_sub_in_out tag pv).
Hypothesis P_starter : forall v pv, P pv -> P (set_starter v pv).

Lemma all_records_update_player (row_ : stat_row) (pidv pname_ : string)
    (pmap : gmap string pdict) :
  all_records P pmap -> all_records P (update_player py_int py_float row_ pidv pname_ pmap).
Proof.
  intros Hall pid pv. unfold update_player. rewrite lookup_alter. case_decide as Hp.
  - subst pid. destruct (pmap !! pidv) as [pv0|] eqn:E.
    + rewrite E. cbn [fmap option_fmap option_map]. intros [= <-]. apply P_row. by eapply Hall.
    + rewrite lookup_insert_eq. cbn [fmap option_fmap option_map]. intros [= <-].
      apply P_row, P_init.
  - destruct (pmap !! pidv); [apply Hall|].
    rewrite lookup_insert_ne by done. apply Hall.
Qed.

Lemma all_records_tables (home_team_id away_team_id : string) (tables : list stats_table) :
  let players := parse_stats_tables py_int py_float home_team_id away_team_id tables in
  all_records P players.1 /\ all_records P players.2.
Proof.
  cbv zeta. unfold parse_stats_tables.
  assert (Hrows : forall is_home rows_ st,
             all_records P (fst st) /\ all_records P (snd st) ->
             all_records P (fst (foldl (process_row py_int py_float is_home) st rows_))
             /\ all_records P (snd (foldl (process_row py_int py_float is_home) st rows_))).
  { intros is_home rows_. induction rows_ as [|row_ rows_ IH]; intros st [H1 H2]; [done|].
    cbn [foldl]. apply IH. unfold process_row.
    destruct (player_link row_); [|done].
    destruct is_home; cbn [fst snd]; split; try done;
      by apply all_records_update_player. }
  assert (Htables : forall st,
             all_records P (fst st) /\ all_records P (snd st) ->
             all_records P (fst (foldl (process_table py_int py_float home_team_id
                                          away_team_id) st tables))
             /\ all_records P (snd (foldl (process_table py_int py_float home_team_id
                                             away_team_id) st tables))).
  { induction tables as [|tbl tables IH]; intros st Hst; [done|].
    cbn [foldl]. apply IH. unfold process_table.
    destruct (table_code tbl); [|done].
    destruct (String.eqb _ home_team_id).
    - destruct (table_tbody tbl); [by apply Hrows | done].
    - destruct (String.eqb _ away_team_id); [|done].
      destruct (table_tbody tbl); [by apply Hrows | done]. }
  apply Htables. cbn [fst snd]. by split; intros p pv H; rewrite lookup_empty in H.
Qed.

Lemma all_records_tag (pid : option string) (tag : string) (pmap : gmap string pdict) :
  all_records P pmap -> all_records P (tag_player pid tag pmap).
Proof.
  intros Hall. destruct pid as [id|]; [|done]. cbn [tag_player].
  intros p pv. rewrite lookup_alter. case_decide; [|apply Hall].
  subst p. destruct (pmap !! id) as [pv0|] eqn:E; [|done].
  cbn [fmap option_fmap option_map]. intros [= <-]. apply P_tag. by eapply Hall.
Qed.

Lemma all_records_event (st : subs_state) (ev : event_div) :
  all_records P (home_players st) /\ all_records P (away_players st) ->
  all_records P (home_players (process_event st ev))
  /\ all_records P (away_players (process_event st ev)).
Proof.
  intros [Hh Ha]. unfold process_event.
  destruct (icon_classes ev); [|done]. case_bool_decide; [|done].
  destruct (event_info ev) as [info_div|]; [|done].
  destruct (player_in_tag info_div), (player_out_tag info_div); try done.
  destruct (substitution_team ev) as [[]|]; [| |done];
    cbn [home_players away_players]; split; try done; by do 2 apply all_records_tag.
Qed.

Lemma all_records_substitutions (doc : document)
    (players : gmap string pdict * gmap string pdict) :
  all_records P players.1 /\ all_records P players.2 ->
  all_records P (home_players (process_substitutions doc players).1)
  /\ all_records P (away_players (process_substitutions doc players).1).
Proof.
  intros H. unfold process_substitutions.
  destruct (events_wrap doc) as [event_divs|]; [|done]. cbn [fst].
  set (st0 := {| home_players := players.1; away_players := players.2;
                 home_subs_val := 0; away_subs_val := 0 |}).
  assert (H0 : all_records P (home_players st0) /\ all_records P (away_players st0)) by done.
  clearbody st0. revert st0 H0.
  induction event_divs as [|ev event_divs IH]; intros st0 H0; [done|].
  cbn [foldl]. by apply IH, all_records_event.
Qed.

Lemma all_records_starters (pmap : gmap string pdict) :
  all_records P pmap -> all_records P (assign_starters pmap).
Proof.
  intros Hall pid pv. unfold assign_starters. rewrite lookup_fmap.
  destruct (pmap !! pid) as [pv0|] eqn:E; [|done].
  cbn [fmap option_fmap option_map]. intros [= <-]. apply P_starter. by eapply Hall.
Qed.

End Invariant.

(** The squads of a derived match, step by step. *)
Lemma derive_squads (r : schedule_row) (doc : document) (sb : scorebox_div) :
  let d := (derive py_int py_float r doc sb).1 in
  let ids := (resolve_team_ids sb (home_team r) (away_team r)).1 in
  let subs := (process_substitutions doc
                 (parse_stats_tables py_int py_float ids.1 ids.2 (stats_tables doc))).1 in
  home_team_id d = ids.1 /\ away_team_id d = ids.2
  /\ home_players (squads d) = assign_starters (home_players subs)
  /\ away_players (squads d) = assign_starters (away_players subs)
  /\ home_subs_val (squads d) = home_subs_val subs
  /\ away_subs_val (squads d) = away_subs_val subs.
Proof.
  cbv zeta. unfold derive.
  destruct (resolve_team_ids sb (home_team r) (away_team r)) as [[home_id away_id] w_ids].
  cbn [fst snd]. by destruct (process_substitutions doc _) as [subs w_subs].
Qed.

(** What the three steps keep holds of every record of a derived match. *)
Lemma derive_records (P : pdict -> Prop) (r : schedule_row) (doc : document)
    (sb : scorebox_div) :
  (forall pid_ pname_, P (init_player_dict pid_ pname_)) ->
  (forall row_ pv,
     P pv -> P (populate_minutes py_int row_
                  (populate_position row_ (populate_stats py_int py_float row_ pv)))) ->
  (forall tag pv, P pv -> P (set_sub_in_out tag pv)) ->
  (forall v pv, P pv -> P (set_starter v pv)) ->
  let d := (derive py_int py_float r doc sb).1 in
  all_records P (home_players (squads d)) /\ all_records P (away_players (squads d)).
Proof.
  intros H1 H2 H3 H4. cbv zeta.
  destruct (derive_squads r doc sb) as (_ & _ & -> & -> & _).
  pose proof (all_records_tables P H1 H2
                (resolve_team_ids sb (home_team r) (away_team r)).1.1
                (resolve_team_ids sb (home_team r) (away_team r)).1.2
                (stats_tables doc)) as Ht.
  cbv zeta in Ht. apply (all_records_substitutions P H3 doc) in Ht as [Hh Ha].
  split; by apply all_records_starters.
Qed.

(** *** The statistic columns *)

Lemma stat_map_sca (fbref_stat dbcol : string) :
  (fbref_stat, dbcol) ∈ player_stat_map ->
  String.eqb fbref_stat "sca" = String.eqb dbcol "sca".
Proof.
  intros H.
  apply (proj1 (Forall_forall
                  (fun kv : string * string => String.eqb kv.1 "sca" = String.eqb kv.2 "sca")
                  player_stat_map)
               ltac:(apply (bool_decide_unpack _); by vm_compute) _ H).
Qed.

Lemma stat_map_columns (fbref_stat dbcol : string) :
  (fbref_stat, dbcol) ∈ player_stat_map -> dbcol ∈ db_columns.
Proof.
  intros H. unfold db_columns. apply list_elem_of_fmap. by exists (fbref_stat, dbcol).
Qed.

Lemma holds_columns_set (dbcol : string) (v : num) (pv : pdict) :
  (if String.eqb dbcol "sca" then True else exists z, v = NInt z) ->
  holds_columns pv -> holds_columns (set_stat dbcol v pv).
Proof.
  intros Hv Hpv c Hc. specialize (Hpv c Hc). cbn [set_stat stats].
  destruct (decide (dbcol = c)) as [->|Hne].
  - rewrite lookup_insert_eq. destruct (String.eqb c "sca"); [done|].
    destruct Hv as [z ->]. by exists z.
  - by rewrite lookup_insert_ne.
Qed.

Lemma zero_columns_lookup (l : list string) (m : gmap string num) (c : string) :
  c ∈ l -> foldl (fun d_ dbcol => <[dbcol := NInt 0]> d_) m l !! c = Some (NInt 0).
Proof.
  revert m. induction l as [|x l IH]; intros m; [by intros ?%elem_of_nil|].
  cbn [foldl]. intros [->|Hl]%elem_of_cons; [|by apply IH].
  destruct (decide (x ∈ l)) as [Hx|Hx]; [by apply IH|].
  assert (Hkeep : forall m' : gmap string num,
             foldl (fun d_ dbcol => <[dbcol := NInt 0]> d_) m' l !! x = m' !! x).
  { clear IH. revert Hx. induction l as [|y l IH]; intros Hx m'; [done|].
    apply not_elem_of_cons in Hx as [Hxy Hx]. cbn [foldl].
    rewrite (IH Hx). by rewrite lookup_insert_ne. }
  by rewrite Hkeep, lookup_insert_eq.
Qed.

Lemma holds_columns_init (pid_ pname_ : string) : holds_columns (init_player_dict pid_ pname_).
Proof.
  intros c Hc. cbn [init_player_dict stats]. rewrite (zero_columns_lookup _ _ _ Hc).
  destruct (String.eqb c "sca"); [done | by exists 0].
Qed.

Lemma holds_columns_populate_stats (row_ : stat_row) (pv : pdict) :
  holds_columns pv -> holds_columns (populate_stats py_int py_float row_ pv).
Proof.
  unfold populate_stats.
  assert (H : forall l, (forall kv, kv ∈ l -> kv ∈ player_stat_map) ->
            forall pv0, holds_columns pv0 ->
            holds_columns
              (foldl (fun pv '(fbref_stat, dbcol) =>
                        match find_td fbref_stat (stat_cells row_) with
                        | Some val_ =>
                            if String.eqb fbref_stat "sca"
                            then set_stat dbcol (NFloat (default 0%Qc (py_float val_))) pv
                            else set_stat dbcol (NInt (default 0 (py_int val_))) pv
                        | None => pv
                        end) pv0 l)).
  { induction l as [|[fbref_stat dbcol] l IH]; intros Hl pv0 Hpv0; [done|].
    cbn [foldl]. apply IH; [intros kv Hkv; by apply Hl, list_elem_of_further|].
    destruct (find_td fbref_stat (stat_cells row_)) as [val_|]; [|done].
    pose proof (stat_map_sca fbref_stat dbcol (Hl _ (list_elem_of_here _ _))) as Hs.
    destruct (String.eqb fbref_stat "sca"); apply holds_columns_set; try done;
      rewrite <- Hs; [done | by eexists]. }
  by apply H.
Qed.

Lemma holds_columns_stats (pv pv' : pdict) :
  stats pv' = stats pv -> holds_columns pv -> holds_columns pv'.
Proof. intros E H c Hc. rewrite E. exact (H c Hc). Qed.

Lemma holds_columns_row (row_ : stat_row) (pv : pdict) :
  holds_columns pv ->
  holds_columns (populate_minutes py_int row_
                   (populate_position row_ (populate_stats py_int py_float row_ pv))).
Proof.
  intros H%(holds_columns_populate_stats row_). revert H.
  generalize (populate_stats py_int py_float row_ pv). intros pv1 H.
  apply (holds_columns_stats pv1); [|exact H].
  unfold populate_minutes, populate_position.
  destruct (find_td "minutes" _); destruct (find_td "position" _) as [[|]|]; reflexivity.
Qed.

Lemma derive_holds_columns (r : schedule_row) (doc : document) (sb : scorebox_div) :
  let d := (derive py_int py_float r doc sb).1 in
  forall pv, pv ∈ values (home_players (squads d)) ++ values (away_players (squads d)) ->
  holds_columns pv.
Proof.
  cbv zeta. intros pv Hpv.
  destruct (derive_records holds_columns r doc sb holds_columns_init holds_columns_row
              (fun tag pv0 => holds_columns_stats pv0 (set_sub_in_out tag pv0) eq_refl)
              (fun v pv0 => holds_columns_stats pv0 (set_starter v pv0) eq_refl))
    as [Hh Ha].
  apply elem_of_app in Hpv as [Hpv|Hpv]; unfold values in Hpv;
    apply list_elem_of_fmap in Hpv as ([pid pv'] & -> & Hin%elem_of_map_to_list);
    [by eapply Hh | by eapply Ha].
Qed.

Lemma holds_columns_count (pv : pdict) (c : string) :
  holds_columns pv -> c ∈ db_columns ->
  is_Some (stats pv !! c) /\ (c <> "sca" -> stat pv c = NInt (count_of pv c)).
Proof.
  intros H Hc. specialize (H c Hc). destruct (String.eqb c "sca") eqn:Heq.
  - apply String.eqb_eq in Heq. split; [exact H|]. intros Hne. by destruct Hne.
  - destruct H as [z Hz]. split; [by rewrite Hz|]. intros _.
    unfold count_of, stat. by rewrite Hz.
Qed.

(** X8. Every record of a derived match holds every statistic column, the
    counts as integers: the reads of [sum_side] and of the player row find
    their key in every record. *)
Theorem records_hold_every_column (r : schedule_row) (doc : document) (sb : scorebox_div) :
  let d := (derive py_int py_float r doc sb).1 in
  forall pv, pv ∈ values (home_players (squads d)) ++ values (away_players (squads d)) ->
  forall c, c ∈ db_columns ->
    is_Some (stats pv !! c) /\ (c <> "sca" -> stat pv c = NInt (count_of pv c)).
Proof.
  cbv zeta. intros pv Hpv c Hc. apply holds_columns_count; [|done].
  by apply (derive_holds_columns r doc sb).
Qed.

(** X9. The team total of a count column is an integer, the sum of the
    integers the records of the side hold in it. *)
Theorem team_counts_are_integers (r : schedule_row) (doc : document) (sb : scorebox_div)
    (c : string) :
  c ∈ db_columns -> c <> "sca" ->
  let d := (derive py_int py_float r doc sb).1 in
  team_sum (team_sums d) ("home_" +:+ c)
  = NInt (foldr (fun pv acc => count_of pv c + acc) 0 (values (home_players (squads d))))
  /\ team_sum (team_sums d) ("away_" +:+ c)
     = NInt (foldr (fun pv acc => count_of pv c + acc) 0 (values (away_players (squads d)))).
Proof.
  intros Hc Hne. cbv zeta.
  destruct (MatchFacts.derive_sums py_int py_float r doc sb) as (Hsums & _).
  cbv zeta in Hsums. rewrite Hsums.
  destruct (SumFacts.sums_of_both_sides
              (home_players (squads (derive py_int py_float r doc sb).1))
              (away_players (squads (derive py_int py_float r doc sb).1)) c Hc)
    as [-> ->].
  pose proof (derive_holds_columns r doc sb) as Hall. cbv zeta in Hall.
  split; apply SumFacts.column_total_int; intros pv Hpv;
    apply holds_columns_count; try done; apply Hall, elem_of_app; auto.
Qed.

(** *** One row, one column *)

Lemma set_stat_lookup (dbcol c : string) (v : num) (pv : pdict) :
  stat (set_stat dbcol v pv) c = if decide (dbcol = c) then v else stat pv c.
Proof.
  unfold stat. cbn [set_stat stats]. rewrite lookup_insert. by case_decide.
Qed.

Lemma populate_stats_fold (row_ : stat_row) (l : list (string * string)) (pv : pdict)
    (fbref_stat dbcol : string) :
  NoDup l.*2 -> (fbref_stat, dbcol) ∈ l ->
  stat (foldl (fun pv '(fbref_stat, dbcol) =>
                 match find_td fbref_stat (stat_cells row_) with
                 | Some val_ =>
                     if String.eqb fbref_stat "sca"
                     then set_stat dbcol (NFloat (default 0%Qc (py_float val_))) pv
                     else set_stat dbcol (NInt (default 0 (py_int val_))) pv
                 | None => pv
                 end) pv l) dbcol
  = match find_td fbref_stat (stat_cells row_) with
    | Some val_ => coerced py_int py_float fbref_stat val_
    | None => stat pv dbcol
    end.
Proof.
  revert pv. induction l as [|[f0 c0] l IH]; intros pv Hnd Hin; [by apply elem_of_nil in Hin|].
  rewrite fmap_cons in Hnd. apply NoDup_cons in Hnd as [Hc0 Hnd]. cbn [snd] in Hc0.
  cbn [foldl]. apply elem_of_cons in Hin as [[= <- <-]|Hin].
  - assert (Hkeep : forall l' pv',
              dbcol ∉ l'.*2 ->
              stat (foldl (fun pv '(fbref_stat, dbcol) =>
                             match find_td fbref_stat (stat_cells row_) with
                             | Some val_ =>
                                 if String.eqb fbref_stat "sca"
                                 then set_stat dbcol (NFloat (default 0%Qc (py_float val_))) pv
                                 else set_stat dbcol (NInt (default 0 (py_int val_))) pv
                             | None => pv
                             end) pv' l') dbcol = stat pv' dbcol).
    { clear. induction l' as [|[f1 c1] l' IH]; intros pv' Hn; [done|].
      rewrite fmap_cons in Hn. apply not_elem_of_cons in Hn as [Hne Hn]. cbn [snd] in Hne.
      cbn [foldl]. rewrite (IH _ Hn).
      destruct (find_td f1 (stat_cells row_)); [|done].
      destruct (String.eqb f1 "sca"); rewrite set_stat_lookup; by case_decide. }
    rewrite (Hkeep l _ Hc0). unfold coerced.
    destruct (find_td fbref_stat (stat_cells row_)); [|done].
    destruct (String.eqb fbref_stat "sca"); rewrite set_stat_lookup; by case_decide.
  - rewrite (IH _ Hnd Hin).
    destruct (find_td fbref_stat (stat_cells row_)); [done|].
    assert (Hne : c0 <> dbcol).
    { intros ->. apply Hc0, list_elem_of_fmap. by exists (fbref_stat, dbcol). }
    destruct (find_td f0 (stat_cells row_)); [|done].
    destruct (String.eqb f0 "sca"); rewrite set_stat_lookup; by case_decide.
Qed.

(** X10. One row of a table sets each column from the first cell of the
    row that carries the statistic of the column: to the coercion of its
    text, to zero when the coercion raises; a column without such a cell
    keeps its value. *)
Theorem populate_stats_column (row_ : stat_row) (pv : pdict) (fbref_stat dbcol : string) :
  (fbref_stat, dbcol) ∈ player_stat_map ->
  stat (populate_stats py_int py_float row_ pv) dbcol
  = match find_td fbref_stat (stat_cells row_) with
    | Some val_ => coerced py_int py_float fbref_stat val_
    | None => stat pv dbcol
    end.
Proof.
  intros Hin. unfold populate_stats. apply populate_stats_fold; [|done].
  apply SumFacts.db_columns_NoDup.
Qed.

End Records.

Lemma populate_stats_column_witness :
  stat (populate_stats Examples.example_int Examples.example_float
          {| player_link := None; stat_cells := [("shots", "3"); ("shots", "7")] |}
          (init_player_dict "p" "P")) "shots" = NInt 3
  /\ stat (populate_stats Examples.example_int Examples.example_float
             {| player_link := None; stat_cells := [("assisted_shots", "n/a")] |}
             (init_player_dict "p" "P")) "shots_assisted" = NInt 0.
Proof.
  split.
  - exact (populate_stats_column Examples.example_int Examples.example_float
             {| player_link := None; stat_cells := [("shots", "3"); ("shots", "7")] |}
             (init_player_dict "p" "P") "shots" "shots"
             ltac:(apply (bool_decide_unpack _); by vm_compute)).
  - exact (populate_stats_column Examples.example_int Examples.example_float
             {| player_link := None; stat_cells := [("assisted_shots", "n/a")] |}
             (init_player_dict "p" "P") "assisted_shots" "shots_assisted"
             ltac:(apply (bool_decide_unpack _); by vm_compute)).
Defined.

Lemma records_hold_every_column_witness :
  is_Some (stats (default (init_player_dict "" "")
                    (head (values (home_players (squads Examples.example_derived)))))
             !! "shots").
Proof.
  refine (proj1 (records_hold_every_column Examples.example_int Examples.example_float
            Examples.example_row Examples.example_page Examples.example_scorebox
            (default (init_player_dict "" "")
               (head (values (home_players (squads Examples.example_derived))))) _
            "shots" ltac:(apply (bool_decide_unpack _); by vm_compute))).
  vm_compute. apply list_elem_of_here.
Defined.

Lemma team_counts_are_integers_witness :
  team_sum (team_sums Examples.example_derived) ("home_" +:+ "shots")
  = NInt (foldr (fun pv acc => count_of pv "shots" + acc) 0
            (values (home_players (squads Examples.example_derived)))).
Proof.
  exact (proj1 (team_counts_are_integers Examples.example_int Examples.example_float
                  Examples.example_row Examples.example_page Examples.example_scorebox
                  "shots" ltac:(apply (bool_decide_unpack _); by vm_compute)
                  ltac:(discriminate))).
Defined.

End RecordFacts.

(** ** Substitutions: the minute, the counters, the flags of the tags *)

Module EventFacts.
Import Text Data Resolver Metadata Players Storage Shots Match Stated Notions TextFacts.
Local Open Scope list_scope.

Lemma span_digits_inv (s run rest : string) :
  span_digits s = (run, rest) -> s = run +:+ rest /\ all_digits run = true.
Proof.
  revert run rest. induction s as [|c s IH]; intros run rest; cbn [span_digits].
  - by intros [= <- <-].
  - destruct (is_digit c) eqn:Hc.
    + destruct (span_digits s) as [run' rest'] eqn:E. intros [= <- <-].
      destruct (IH run' rest' eq_refl) as [-> Hd]. str. cbn [all_digits].
      by rewrite Hc, Hd.
    + by intros [= <- <-].
Qed.

Lemma starts_with_inv (p s : string) : starts_with p s = true -> exists r, s = p +:+ r.
Proof.
  revert s. induction p as [|a p IH]; intros s; cbn [starts_with]; [by exists s|].
  destruct s as [|b s]; [done|].
  intros [Hab [r ->]%IH]%andb_prop. apply Ascii.eqb_eq in Hab as ->. by exists r.
Qed.

Lemma minute_here_inv (s g : string) :
  minute_here s = Some g ->
  g <> "" /\ all_digits g = true /\ exists post, s = g +:+ prime_mark +:+ post.
Proof.
  unfold minute_here. destruct (span_digits s) as [run rest] eqn:E.
  apply span_digits_inv in E as [-> Hd].
  destruct run as [|c run]; [done|].
  destruct (starts_with prime_mark rest) eqn:Hp; [|done].
  intros [= <-]. apply starts_with_inv in Hp as [post ->]. split_and!; [done..|].
  by exists post.
Qed.

Lemma span_digits_run (m rest : string) :
  all_digits m = true -> starts_with prime_mark rest = true ->
  span_digits (m +:+ rest) = (m, rest).
Proof.
  intros Hm Hr. induction m as [|c m IH]; str.
  - destruct rest as [|b rest]; [done|]. cbn [span_digits].
    cbn [starts_with prime_mark] in Hr. apply andb_prop in Hr as [Hb _].
    apply Ascii.eqb_eq in Hb as <-. done.
  - cbn [all_digits] in Hm. apply andb_prop in Hm as [Hc Hm].
    cbn [span_digits]. by rewrite Hc, (IH Hm).
Qed.

Lemma minute_here_at (m post : string) :
  m <> "" -> all_digits m = true -> minute_here (m +:+ prime_mark +:+ post) = Some m.
Proof.
  intros Hne Hm. unfold minute_here.
  assert (Hp : starts_with prime_mark (prime_mark +:+ post) = true) by reflexivity.
  rewrite (span_digits_run m _ Hm Hp), Hp. by destruct m.
Qed.

(** Before the digits of the match, no shorter or earlier match. *)
Lemma span_digits_before (pre rest : string) :
  pre <> "" -> ends_with_digit pre = false -> has_char "226" pre = false ->
  starts_with prime_mark (span_digits (pre +:+ rest)).2 = false.
Proof.
  induction pre as [|c pre IH]; [done|]. intros _ He Hh. str.
  cbn [has_char] in Hh. apply orb_false_elim in Hh as [Hc Hh].
  cbn [span_digits]. destruct (is_digit c) eqn:Hd.
  - destruct pre as [|c' pre]; [cbn in He; congruence|].
    specialize (IH ltac:(done) He Hh).
    by destruct (span_digits (String c' pre +:+ rest)).
  - cbn [snd starts_with prime_mark]. by rewrite Ascii.eqb_sym, Hc.
Qed.

Lemma minute_here_before (pre rest : string) :
  pre <> "" -> ends_with_digit pre = false -> has_char "226" pre = false ->
  minute_here (pre +:+ rest) = None.
Proof.
  intros H1 H2 H3. pose proof (span_digits_before pre rest H1 H2 H3) as H.
  unfold minute_here. destruct (span_digits (pre +:+ rest)) as [run rest'].
  cbn [snd] in H. rewrite H. by destruct run.
Qed.

Lemma search_minute_inv (text g : string) :
  search_minute text = Some g ->
  g <> "" /\ all_digits g = true
  /\ exists pre post, text = pre +:+ g +:+ prime_mark +:+ post.
Proof.
  revert g. induction text as [|c text IH]; intros g; cbn [search_minute].
  - destruct (minute_here "") as [g'|] eqn:E; [|done].
    intros [= ->]. apply minute_here_inv in E as (? & ? & post & E).
    split_and!; [done..|]. by exists "", post.
  - destruct (minute_here (String c text)) as [g'|] eqn:E.
    + intros [= ->]. apply minute_here_inv in E as (? & ? & post & E).
      split_and!; [done..|]. by exists "", post.
    + intros (? & ? & pre & post & ->)%IH. split_and!; [done..|].
      by exists (String c pre), post.
Qed.

Lemma search_minute_at (pre m post : string) :
  m <> "" -> all_digits m = true ->
  ends_with_digit pre = false -> has_char "226" pre = false ->
  search_minute (pre +:+ m +:+ prime_mark +:+ post) = Some m.
Proof.
  intros Hne Hm. induction pre as [|c pre IH]; intros He Hh; str.
  - assert (H : forall s, minute_here s = Some m -> search_minute s = Some m)
      by (intros [|a s] E; cbn [search_minute]; by rewrite E).
    by apply H, minute_here_at.
  - cbn [search_minute].
    rewrite <- append_cons, minute_here_before by done.
    cbn [has_char] in Hh. apply orb_false_elim in Hh as [_ Hh].
    apply IH; [|done]. by destruct pre.
Qed.

Lemma ascii_text_plain (pre : string) :
  ascii_text pre = true -> has_char "226" pre = false.
Proof.
  induction pre as [|c pre IH]; [done|]. cbn [ascii_text has_char].
  intros [Hc Hp]%andb_prop. rewrite (IH Hp), orb_false_r.
  destruct (Ascii.eqb_spec c "226") as [->|]; [|done]. by vm_compute in Hc.
Qed.

(** X11. The minute of a substitution is the group of the leftmost match
    of digits followed by the prime mark. In a text of ASCII characters
    and prime marks, where the digits of the pattern are the ASCII digits,
    a group is a non-empty run of digits that stands in the text before a
    prime mark. And the group is the run of digits before a prime mark
    when what precedes the run is ASCII text that does not end with a
    digit, whatever follows the mark. So of a minute written with added
    time the digits of the added time are the group. *)
Theorem search_minute_group (text : string) :
  (minute_text text = true ->
   forall g, search_minute text = Some g ->
     g <> "" /\ all_digits g = true
     /\ exists pre post, text = pre +:+ g +:+ prime_mark +:+ post)
  /\ (forall pre m post,
        text = pre +:+ m +:+ prime_mark +:+ post ->
        m <> "" -> all_digits m = true ->
        ascii_text pre = true -> ends_with_digit pre = false ->
        search_minute text = Some m)
  /\ search_minute ("45+2" +:+ prime_mark) = Some "2".
Proof.
  split_and!.
  - intros _ g. apply search_minute_inv.
  - intros pre m post -> Hne Hm Hpre Hend.
    apply search_minute_at; [done..|]. by apply ascii_text_plain.
  - reflexivity.
Qed.

Lemma search_minute_group_witness :
  search_minute ("(sub) 67" +:+ prime_mark +:+ " Trossard") = Some "67".
Proof.
  exact (proj1 (proj2 (search_minute_group ("(sub) 67" +:+ prime_mark +:+ " Trossard")))
           "(sub) " "67" " Trossard" eq_refl ltac:(discriminate) eq_refl eq_refl eq_refl).
Defined.

Lemma event_minute_digits (ev : event_div) : all_digits (event_minute ev) = true.
Proof.
  unfold event_minute. destruct (minute_divs ev) as [|min_text l]; [done|].
  destruct (search_minute min_text) as [g|] eqn:E; [|done].
  apply search_minute_inv in E as (_ & Hd & _). exact Hd.
Qed.

(** X12. The flag of the tags the substitution step writes: the tag of a
    player who came on makes a non-starter whatever the minutes; the tag
    of a player who went off makes a starter exactly below 90 minutes; and
    the tag of a record no event touched makes a starter exactly from 90
    minutes on. *)
Theorem written_tags_flags (ev : event_div) (mins : Z) :
  starter_of mins ("In | " +:+ event_minute ev +:+ prime_mark) = "no"
  /\ starter_of mins ("Out | " +:+ event_minute ev +:+ prime_mark)
     = (if mins <? 90 then "yes" else "no")
  /\ starter_of mins (sub_in_out (init_player_dict "" "")) = (if 90 <=? mins then "yes" else "no").
Proof.
  pose proof (event_minute_digits ev) as Hd.
  pose proof (StarterFacts.starter_of_render mins (TagIn (event_minute ev)) Hd) as Hin.
  pose proof (StarterFacts.starter_of_render mins (TagOut (event_minute ev)) Hd) as Hout.
  pose proof (StarterFacts.starter_of_render mins TagNone I) as Hnone.
  cbn [render classify flag] in Hin, Hout, Hnone.
  rewrite Hin, Hout. cbn [init_player_dict sub_in_out]. rewrite Hnone.
  split_and!; [done | by destruct (mins <? 90) | by destruct (90 <=? mins)].
Qed.

(** *** The counters *)

Lemma process_event_count (s : side) (st : subs_state) (ev : event_div) :
  subs_of s (process_event st ev)
  = subs_of s st + match counted ev with
                   | Some (s', _, _) => if same_side s' s then 1 else 0
                   | None => 0
                   end.
Proof.
  unfold counted, process_event.
  destruct (icon_classes ev) as [classes|]; [|lia].
  destruct (bool_decide ("substitute_in" ∈ classes)); [|lia].
  destruct (event_info ev) as [info_div|]; [|lia].
  destruct (player_in_tag info_div) as [href_in|]; [|lia].
  destruct (player_out_tag info_div) as [href_out|]; [|lia].
  destruct (substitution_team ev) as [[]|]; [| |lia]; destruct s; cbn; lia.
Qed.

Lemma events_count (s : side) (event_divs : list event_div) (st : subs_state) :
  subs_of s (foldl process_event st event_divs)
  = subs_of s st + Z.of_nat (length (counted_for s event_divs)).
Proof.
  revert st. induction event_divs as [|ev event_divs IH]; intros st; [cbn; lia|].
  cbn [foldl]. rewrite IH, process_event_count. unfold counted_for. cbn [List.filter].
  destruct (counted ev) as [[[s' hi] ho]|]; [|lia].
  destruct (same_side s' s); cbn [length]; lia.
Qed.

Section Counts.

Variable py_int : string -> option Z.
Variable py_float : string -> option Qc.

(** X13. The substitution counts of a derived match are the numbers of
    events of the list that carry a substitution icon, the marker of the
    side and a detail block with both player links; they depend on the
    event list alone, and are zero on a page without event list. *)
Theorem substitution_counts (r : schedule_row) (doc : document) (sb : scorebox_div) :
  let d := (derive py_int py_float r doc sb).1 in
  let event_divs := default [] (events_wrap doc) in
  home_subs_val (squads d) = Z.of_nat (length (counted_for Home event_divs))
  /\ away_subs_val (squads d) = Z.of_nat (length (counted_for Away event_divs)).
Proof.
  cbv zeta.
  destruct (RecordFacts.derive_squads py_int py_float r doc sb) as (_ & _ & _ & _ & -> & ->).
  unfold process_substitutions.
  destruct (events_wrap doc) as [event_divs|]; cbn [fst default]; [|done].
  split.
  - apply (events_count Home).
  - apply (events_count Away).
Qed.

End Counts.

End EventFacts.

(** ** The shot log *)

Module ShotFacts.
Import Text Data Resolver Metadata Players Storage Shots Match Stated Notions.
Local Open Scope list_scope.

Lemma falsy_false (v : option string) :
  falsy v = false -> exists s, v = Some s /\ s <> "".
Proof. destruct v as [[|c s]|]; try done. intros _. by eexists. Qed.

Lemma shot_params_kept (match_url : string) (row__ : shot_row) (p : list sql_value) :
  shot_params match_url row__ = Some p ->
  ("spacer" ∉ row_class row__) /\ ("partial_table" ∉ row_class row__)
  /\ length p = length (columns insert_events_sql)
  /\ p !! 0%nat = Some (SqlStr match_url)
  /\ (exists minute_val,
        get_value_from_td_or_th row__ "minute" = Some minute_val
        /\ p !! 1%nat = Some (SqlStr minute_val) /\ minute_val <> "")
  /\ (exists player_val,
        get_value_from_td_or_th row__ "player" = Some player_val
        /\ p !! 3%nat = Some (SqlStr player_val) /\ player_val <> "").
Proof.
  unfold shot_params.
  destruct (bool_decide ("spacer" ∈ row_class row__)) eqn:H1; [done|].
  destruct (bool_decide ("partial_table" ∈ row_class row__)) eqn:H2; [done|].
  apply bool_decide_eq_false in H1, H2. cbn [orb].
  destruct (falsy (get_value_from_td_or_th row__ "minute")) eqn:Hm; [done|].
  destruct (falsy (get_value_from_td_or_th row__ "player")) eqn:Hp; [done|].
  apply falsy_false in Hm as (m & Hm & Hmne). apply falsy_false in Hp as (pl & Hp & Hpne).
  cbn [orb]. intros [= <-]. rewrite Hm, Hp. cbn [sql_of_opt].
  split_and!; try done; by eexists.
Qed.

Lemma filled_text_value (row__ : shot_row) (data_stat : string) :
  filled_text row__ data_stat
  = match get_value_from_td_or_th row__ data_stat with
    | Some (String _ _ as text) => Some text
    | _ => None
    end.
Proof.
  unfold filled_text, get_value_from_td_or_th.
  destruct (find_cell data_stat (shot_cells row__)) as [tag_|]; [|done].
  cbn [fmap option_fmap option_map]. by destruct (cell_text tag_).
Qed.

(** One row: it gives a tuple exactly when it is kept, and the tuple is
    the tuple of the row. *)
Lemma shot_params_row (match_url : string) (row__ : shot_row) :
  match shot_params match_url row__ with
  | Some p => shot_kept row__ = true /\ tuple_of_row match_url row__ p
  | None => shot_kept row__ = false
  end.
Proof.
  unfold shot_params, shot_kept, tuple_of_row. rewrite !filled_text_value.
  destruct (bool_decide ("spacer" ∈ row_class row__)); [done|].
  destruct (bool_decide ("partial_table" ∈ row_class row__)); [done|].
  cbn [orb negb andb].
  destruct (get_value_from_td_or_th row__ "minute") as [[|c m]|]; cbn [falsy orb];
    try (rewrite bool_decide_eq_false_2 by (by intros [? ?]); done).
  destruct (get_value_from_td_or_th row__ "player") as [[|c' pl]|]; cbn [falsy];
    try (rewrite andb_comm, bool_decide_eq_false_2 by (by intros [? ?]); done).
  rewrite !bool_decide_eq_true_2 by done. done.
Qed.

Lemma shot_batch_kept (match_url : string) (rows__ : list shot_row) :
  Forall2 (tuple_of_row match_url) (List.filter shot_kept rows__)
    (omap (shot_params match_url) rows__).
Proof.
  induction rows__ as [|row__ rows__ IH]; [constructor|].
  cbn [List.filter omap list_omap].
  pose proof (shot_params_row match_url row__) as Hrow.
  destruct (shot_params match_url row__) as [p|].
  - destruct Hrow as [-> Hp]. by constructor.
  - by rewrite Hrow.
Qed.

(** X14. The batch of the shot log is made of the rows of the table that
    are no filler row and have a minute and a player, all of them, in
    their order, one tuple for each: the rows with the class [spacer] or
    [partial_table], and the rows whose minute or player is missing or
    empty, give no tuple. The tuple of a row fits the statement and
    carries the address of the match, the minute and the player of the
    row, which are not empty, and its team and outcome, [NULL] when the
    row has no such cell. *)
Theorem shot_batch_rows (match_url : string) (doc : document) (rows__ : list shot_row) :
  shots_all doc = Some (Some rows__) -> rows__ <> [] ->
  exists data_batch,
    extract_shots match_url doc = ShotsBatch data_batch
    /\ Forall2 (tuple_of_row match_url) (List.filter shot_kept rows__) data_batch
    /\ length data_batch = length (List.filter shot_kept rows__)
    /\ (forall row__, row__ ∈ rows__ -> shot_kept row__ = true ->
          exists p, p ∈ data_batch /\ tuple_of_row match_url row__ p)
    /\ (forall p, p ∈ data_batch ->
          exists row__, row__ ∈ rows__ /\ shot_kept row__ = true
                        /\ tuple_of_row match_url row__ p).
Proof.
  intros Hdoc Hne. unfold extract_shots. rewrite Hdoc.
  destruct rows__ as [|row0 rows0]; [done|].
  exists (omap (shot_params match_url) (row0 :: rows0)).
  pose proof (shot_batch_kept match_url (row0 :: rows0)) as Hall.
  split; [done|]. split; [done|]. split; [symmetry; by eapply Forall2_length|]. split.
  - intros row__ Hin Hk.
    assert (Hf : row__ ∈ List.filter shot_kept (row0 :: rows0)).
    { rewrite list_elem_of_In, filter_In, <- list_elem_of_In. by split. }
    apply list_elem_of_lookup_1 in Hf as [i Hi].
    destruct (Forall2_lookup_l _ _ _ _ _ Hall Hi) as (p & Hp & Ht).
    exists p. split; [by eapply list_elem_of_lookup_2|done].
  - intros p [i Hi]%list_elem_of_lookup_1.
    destruct (Forall2_lookup_r _ _ _ _ _ Hall Hi) as (row__ & Hr & Ht).
    apply list_elem_of_lookup_2 in Hr.
    rewrite list_elem_of_In, filter_In, <- list_elem_of_In in Hr.
    destruct Hr as [Hin Hk]. by exists row__.
Qed.

Lemma shot_batch_rows_witness :
  exists data_batch,
    extract_shots (full_url Examples.example_row) Examples.example_page
    = ShotsBatch data_batch
    /\ length data_batch = 1%nat.
Proof.
  destruct (shot_batch_rows (full_url Examples.example_row) Examples.example_page
              [ {| row_class := ["spacer"]; shot_cells := [] |}; Examples.example_shot ]
              eq_refl ltac:(discriminate)) as (data_batch & Hb & _ & Hl & _).
  exists data_batch. split; [exact Hb|exact Hl].
Defined.

End ShotFacts.

(** ** The store: what a match writes and what it leaves alone *)

Module StoreFacts.
Import Text Data Resolver Metadata Players Storage Shots Match Stated Notions.
Local Open Scope list_scope.

Lemma write_keyed_frame (sql : insert_sql) (r : gmap string sql_value)
    (t t' : gmap (list sql_value) (gmap string sql_value)) :
  write_keyed sql r t = Some t' ->
  forall k, k <> key_of (natural_key (into sql)) r -> t' !! k = t !! k.
Proof.
  unfold write_keyed. destruct (t !! key_of (natural_key (into sql)) r) as [old|].
  - destruct (update_clause sql) as [|c cols]; [done|].
    intros [= <-] k Hk. by rewrite lookup_insert_ne.
  - intros [= <-] k Hk. by rewrite lookup_insert_ne.
Qed.

Lemma team_row_key (r : schedule_row) (d : derived) :
  key_of (natural_key AllMatchupsTeams) (teams_row (teams_param r d))
  = [SqlStr (date_str r); SqlStr (matchup_str r); SqlStr (comp r)].
Proof. vm_compute. reflexivity. Qed.

Lemma run_insert_team_frame (r : schedule_row) (d : derived) (db db1 : DB) :
  run_insert insert_teams_sql (teams_param r d) db = Some db1 ->
  all_matchups_players db1 = all_matchups_players db
  /\ match_events db1 = match_events db
  /\ forall k, k <> [SqlStr (date_str r); SqlStr (matchup_str r); SqlStr (comp r)] ->
       all_matchups_teams db1 !! k = all_matchups_teams db !! k.
Proof.
  destruct (RerunFacts.run_insert_team (teams_param r d) db (RerunFacts.teams_param_length r d))
    as (t' & Ht & _ & ->).
  intros [= <-]. cbn [all_matchups_teams all_matchups_players match_events].
  split_and!; [done..|]. intros k Hk.
  apply (write_keyed_frame _ _ _ _ Ht). change (into insert_teams_sql) with AllMatchupsTeams.
  by rewrite team_row_key.
Qed.

Lemma run_players_frame (ps : list (list sql_value)) (db db' : DB) :
  Forall (fun p => length p = length players_columns) ps ->
  run_insert_many insert_players_sql ps db = Some db' ->
  all_matchups_teams db' = all_matchups_teams db
  /\ match_events db' = match_events db
  /\ forall k,
       k ∉ ((fun p => key_of (natural_key AllMatchupsPlayers) (players_row p)) <$> ps) ->
       all_matchups_players db' !! k = all_matchups_players db !! k.
Proof.
  intros Hl. revert db. induction Hl as [|p ps Hp Hl IH]; intros db.
  - by intros [= <-].
  - cbn [run_insert_many].
    destruct (RerunFacts.run_insert_player p db Hp) as (t' & Ht & ->).
    intros (H1 & H2 & H3)%IH. cbn [all_matchups_teams all_matchups_players match_events] in *.
    split_and!; [done..|]. intros k Hk. rewrite fmap_cons in Hk.
    apply not_elem_of_cons in Hk as [Hne Hk]. rewrite (H3 k Hk).
    by apply (write_keyed_frame _ _ _ _ Ht).
Qed.

Lemma player_rows_length (r : schedule_row) (sq op ha : string) (pvs : list pdict) :
  Forall (fun p => length p = length players_columns) (param_player r sq op ha <$> pvs).
Proof. apply Forall_fmap, Forall_true. intros pv. apply RerunFacts.param_player_length. Qed.

Lemma player_rows_keys (r : schedule_row) (sq op ha : string) (pvs : list pdict) :
  (fun p => key_of (natural_key AllMatchupsPlayers) (players_row p))
    <$> (param_player r sq op ha <$> pvs)
  = player_key r ha <$> pvs.
Proof.
  rewrite <- list_fmap_compose. apply list_fmap_ext. intros i pv _.
  apply RerunFacts.player_row_key.
Qed.

(** The writes of a match touch the keys of the match alone. *)
Lemma staged_frame (r : schedule_row) (d : derived) (db db1 : DB) :
  staged r d db = Some db1 ->
  (forall k, k <> [SqlStr (date_str r); SqlStr (matchup_str r); SqlStr (comp r)] ->
     all_matchups_teams db1 !! k = all_matchups_teams db !! k)
  /\ (forall k,
        k ∉ (player_key r "home" <$> values (home_players (squads d)))
            ++ (player_key r "away" <$> values (away_players (squads d))) ->
        all_matchups_players db1 !! k = all_matchups_players db !! k)
  /\ match_events db1 = match_events db ++ new_events d.
Proof.
  unfold staged.
  destruct (run_insert insert_teams_sql (teams_param r d) db) as [x1|] eqn:E1; [|done].
  cbn [mbind option_bind].
  destruct (run_insert_many insert_players_sql _ x1) as [x2|] eqn:E2; [|done].
  cbn [mbind option_bind].
  destruct (run_insert_many insert_players_sql _ x2) as [x3|] eqn:E3; [|done].
  cbn [mbind option_bind]. intros E4.
  apply run_insert_team_frame in E1 as (P1 & V1 & T1).
  apply run_players_frame in E2 as (T2 & V2 & P2); [|apply player_rows_length].
  apply run_players_frame in E3 as (T3 & V3 & P3); [|apply player_rows_length].
  rewrite player_rows_keys in P2, P3.
  assert (E5 : shots_pure (shots d) x3 = Some db1)
    by (unfold shots_pure; by destruct (shots d) as [| | |[|]]).
  apply RerunFacts.shots_pure_events in E5 as (T4 & P4 & V4 & _).
  split_and!.
  - intros k Hk. rewrite T4, T3, T2. by apply T1.
  - intros k Hk. apply not_elem_of_app in Hk as [Hh Ha].
    by rewrite P4, (P3 k Ha), (P2 k Hh), P1.
  - by rewrite V4, V3, V2, V1.
Qed.

(** The player rows of a match are in the store after its writes. *)
Lemma staged_players (r : schedule_row) (d : derived) (db db1 : DB) :
  well_keyed (home_players (squads d)) -> well_keyed (away_players (squads d)) ->
  staged r d db = Some db1 ->
  forall p,
    p ∈ (param_player r (home_team r) (away_team r) "home"
           <$> values (home_players (squads d)))
        ++ (param_player r (away_team r) (home_team r) "away"
              <$> values (away_players (squads d))) ->
    upserted insert_players_sql (players_row p) (all_matchups_players db1).
Proof.
  intros Hh Ha. unfold staged.
  set (hs := param_player r (home_team r) (away_team r) "home"
               <$> values (home_players (squads d))).
  set (aws := param_player r (away_team r) (home_team r) "away"
                <$> values (away_players (squads d))).
  destruct (run_insert insert_teams_sql (teams_param r d) db) as [x1|] eqn:E1; [|done].
  cbn [mbind option_bind].
  assert (Hlen : Forall (fun p => length p = length players_columns) (hs ++ aws))
    by (apply Forall_app; split; apply player_rows_length).
  assert (Hnd : NoDup ((fun p => key_of (natural_key AllMatchupsPlayers) (players_row p))
                         <$> (hs ++ aws))).
  { rewrite fmap_app. unfold hs, aws. rewrite !player_rows_keys.
    by apply RerunFacts.player_keys_NoDup. }
  destruct (RerunFacts.run_players_first (hs ++ aws) x1 Hlen Hnd)
    as (db_c & Hrun & _ & _ & Hall).
  rewrite RerunFacts.run_insert_many_app in Hrun.
  destruct (run_insert_many insert_players_sql hs x1) as [x2|]; [|done].
  cbn [mbind option_bind] in *. rewrite Hrun. cbn [mbind option_bind]. intros E4.
  assert (E5 : shots_pure (shots d) db_c = Some db1)
    by (unfold shots_pure; by destruct (shots d) as [| | |[|]]).
  apply RerunFacts.shots_pure_events in E5 as (_ & P4 & _).
  intros p Hp. rewrite P4. by apply Hall.
Qed.

(** A row that was upserted holds the values of the tuple in every column
    of the statement. *)
Lemma upserted_columns (sql : insert_sql) (p : list sql_value) (r : gmap string sql_value)
    (t : gmap (list sql_value) (gmap string sql_value)) :
  r = list_to_map (zip (columns sql) p) ->
  update_clause sql = columns sql -> length p = length (columns sql) ->
  upserted sql r t ->
  exists row, t !! key_of (natural_key (into sql)) r = Some row
    /\ forall c, c ∈ columns sql -> is_Some (row !! c) /\ row !! c = r !! c.
Proof.
  intros -> Hu Hl (x & Hx & Ho). exists x. split; [done|]. intros c Hc.
  assert (Hs : is_Some ((list_to_map (zip (columns sql) p) : gmap string sql_value) !! c)).
  { apply not_eq_None_Some. intros Hn%not_elem_of_list_to_map.
    rewrite fst_zip in Hn by lia. done. }
  pose proof (RerunFacts.overwrite_lookup (update_clause sql)
                (list_to_map (zip (columns sql) p)) x c) as H.
  rewrite Ho, Hu, (bool_decide_true _ Hc) in H.
  destruct Hs as [v Hv]. rewrite Hv in *. by rewrite H.
Qed.

Lemma stat_column_index (c : string) :
  c ∈ db_columns ->
  exists i, db_columns !! i = Some c /\ players_columns !! (11 + i)%nat = Some c.
Proof.
  intros (i & Hi)%list_elem_of_lookup_1. exists i. split; [done|].
  assert (Hlt : (i < 28)%nat) by (apply lookup_lt_Some in Hi; exact Hi).
  revert Hi. do 28 (destruct i as [|i]; [by intros [= <-]|]). lia.
Qed.

Section Run.

Variable py_int : string -> option Z.
Variable py_float : string -> option Qc.

(** X15. A run on one match leaves the rows of every other match as they
    are, whatever the page and whatever call fails: in the team table
    every key but the key of the match, in the player table every key
    outside the date and the matchup of the match; and the shot events the
    store held are still there, in their order, before those the run
    adds. *)
Theorem other_matches_untouched (fault : nat -> bool) (r : schedule_row)
    (resp : option document) (db : DB) :
  let db' := (scrape_and_insert_match_data py_int py_float fault r resp db).1 in
  (forall k, k <> [SqlStr (date_str r); SqlStr (matchup_str r); SqlStr (comp r)] ->
     all_matchups_teams db' !! k = all_matchups_teams db !! k)
  /\ (forall k,
        (forall pid ha,
           k <> [SqlStr (date_str r); SqlStr (matchup_str r); SqlStr pid; SqlStr ha]) ->
        all_matchups_players db' !! k = all_matchups_players db !! k)
  /\ match_events db `prefix_of` match_events db'.
Proof.
  cbv zeta. destruct resp as [doc|]; [|done].
  destruct (scorebox doc) as [sb|] eqn:Hsb;
    [|by rewrite (MatchFacts.run_without_scorebox py_int py_float fault r doc db Hsb)].
  rewrite (MatchFacts.run_with_scorebox py_int py_float fault r doc sb db Hsb). cbn [fst].
  destruct (PersistFacts.persist_outcome fault r (derive py_int py_float r doc sb).1 db)
    as [(-> & _)|(Hst & _)]; [done|].
  apply staged_frame in Hst as (T & P & V). split_and!.
  - exact T.
  - intros k Hk. apply P. intros [H|H]%elem_of_app;
      apply list_elem_of_fmap in H as (pv & -> & _); by eapply Hk.
  - rewrite V. by apply prefix_app_r.
Qed.

(** X16. After a run in which no call fails, on a page with the scorebox
    whose "sca" cells are plain numerals (so that line 546 does not
    raise), every record of the match has its row in the player table
    under the date, the matchup, the code of the record and the side, and
    the row holds what the record holds: the name, the position, the
    minutes, the flag, the tag and every statistic column, with the
    address of the match. *)
Theorem players_are_stored (fault : nat -> bool) (r : schedule_row) (doc : document)
    (sb : scorebox_div) (db : DB) (ha : string) (pv : pdict) :
  scorebox doc = Some sb -> plain_sca doc = true ->
  let d := (derive py_int py_float r doc sb).1 in
  (forall i, (i < n_calls d)%nat -> fault i = false) ->
  (ha = "home" /\ pv ∈ values (home_players (squads d)))
  \/ (ha = "away" /\ pv ∈ values (away_players (squads d))) ->
  let db' := (scrape_and_insert_match_data py_int py_float fault r (Some doc) db).1 in
  exists row,
    all_matchups_players db'
      !! [SqlStr (date_str r); SqlStr (matchup_str r); SqlStr (player_id pv); SqlStr ha]
    = Some row
    /\ row !! "player" = Some (SqlStr (player pv))
    /\ row !! "position" = Some (SqlStr (position pv))
    /\ row !! "minutes" = Some (SqlInt (minutes pv))
    /\ row !! "starter" = Some (SqlStr (starter pv))
    /\ row !! "sub_in_out" = Some (SqlStr (sub_in_out pv))
    /\ row !! "match_report_url" = Some (SqlStr (full_url r))
    /\ forall c, c ∈ db_columns -> row !! c = Some (sql_of_num (stat pv c)).
Proof.
  intros Hsb _ d Hnf Hpv db'. unfold db'.
  rewrite (MatchFacts.run_with_scorebox py_int py_float fault r doc sb db Hsb). cbn [fst].
  destruct (MatchFacts.persist_derived py_int py_float fault r doc sb db Hnf) as [Hst _].
  destruct (MatchFacts.derive_well_keyed py_int py_float r doc sb) as [Hh Ha].
  pose proof (staged_players r _ db _ Hh Ha Hst) as Hall. fold d in Hall.
  set (sq := if String.eqb ha "home" then home_team r else away_team r).
  set (op := if String.eqb ha "home" then away_team r else home_team r).
  assert (Hin : param_player r sq op ha pv
                ∈ (param_player r (home_team r) (away_team r) "home"
                     <$> values (home_players (squads d)))
                  ++ (param_player r (away_team r) (home_team r) "away"
                        <$> values (away_players (squads d)))).
  { apply elem_of_app. destruct Hpv as [[-> Hpv]|[-> Hpv]]; [left|right];
      apply list_elem_of_fmap; by exists pv. }
  apply Hall in Hin.
  apply (upserted_columns insert_players_sql (param_player r sq op ha pv)) in Hin
    as (row & Hrow & Hcols); [|done | done | apply RerunFacts.param_player_length].
  change (into insert_players_sql) with AllMatchupsPlayers in Hrow.
  rewrite RerunFacts.player_row_key in Hrow.
  exists row. split; [exact Hrow|].
  assert (Hcol : forall c v, c ∈ players_columns ->
            players_row (param_player r sq op ha pv) !! c = Some v -> row !! c = Some v).
  { intros c v Hc Hv. destruct (Hcols c Hc) as [_ ->]. exact Hv. }
  split_and!;
    try (apply Hcol; [apply (bool_decide_unpack _); by vm_compute | by vm_compute]).
  intros c Hc. destruct (stat_column_index c Hc) as (i & Hi & Hpi).
  apply Hcol; [by eapply list_elem_of_lookup_2|].
  assert (Hlt : (i < 28)%nat) by (apply lookup_lt_Some in Hi; exact Hi).
  revert Hi. do 28 (destruct i as [|i]; [intros [= <-]; by vm_compute|]). lia.
Qed.

End Run.

Lemma other_matches_untouched_witness :
  all_matchups_teams
    (scrape_and_insert_match_data Examples.example_int Examples.example_float no_fault
       Examples.example_row (Some Examples.example_page) empty_db).1
    !! [SqlStr "2024-03-10"; SqlStr "Fulham @ Chelsea"; SqlStr "Premier League"]
  = all_matchups_teams empty_db
      !! [SqlStr "2024-03-10"; SqlStr "Fulham @ Chelsea"; SqlStr "Premier League"].
Proof.
  exact (proj1 (other_matches_untouched Examples.example_int Examples.example_float no_fault
                  Examples.example_row (Some Examples.example_page) empty_db)
           [SqlStr "2024-03-10"; SqlStr "Fulham @ Chelsea"; SqlStr "Premier League"]
           ltac:(discriminate)).
Defined.

Lemma players_are_stored_witness :
  is_Some
    (all_matchups_players
       (scrape_and_insert_match_data Examples.example_int Examples.example_float no_fault
          Examples.example_row (Some Examples.example_page) empty_db).1
     !! [SqlStr "2024-03-09"; SqlStr "Brentford @ Arsenal"; SqlStr "bc7dc64d"; SqlStr "home"]).
Proof.
  destruct (players_are_stored Examples.example_int Examples.example_float no_fault
              Examples.example_row Examples.example_page Examples.example_scorebox empty_db
              "home"
              (default (init_player_dict "" "")
                 (values (home_players (squads Examples.example_derived)) !! 1%nat))
              eq_refl eq_refl (fun _ _ => eq_refl)
              ltac:(left; split; [reflexivity|];
                    vm_compute; apply list_elem_of_further, list_elem_of_here))
    as (row & Hrow & _).
  exists row. exact Hrow.
Defined.

End StoreFacts.

(** ** The scan of the schedule *)

Module ScanFacts.
Import Text Halting Data Resolver Metadata Players Storage Shots Match Scan Stated Notions.
Local Open Scope list_scope.

(** *** The addresses already stored *)

Lemma add_urls_elem (rows : list sql_value) (scraped_set : gset string) (u : string) :
  u ∈ add_urls rows scraped_set
  <-> u ∈ scraped_set \/ exists v, SqlStr v ∈ rows /\ v <> "" /\ strip v = u.
Proof.
  unfold add_urls. revert scraped_set.
  induction rows as [|x rows IH]; intros scraped_set; cbn [foldl].
  - split; [by left|]. intros [H|(v & Hv & _)]; [done | by apply elem_of_nil in Hv].
  - rewrite IH. split.
    + intros [H|(v & Hv & Hne & Hs)].
      * destruct x as [|[|c s]|z|q]; cbn [text_of] in H; try by left.
        apply elem_of_union in H as [->%elem_of_singleton|H]; [|by left].
        right. exists (String c s). split_and!; [apply list_elem_of_here | done | done].
      * right. exists v. split_and!; [by apply list_elem_of_further | done | done].
    + intros [H|(v & [<-|Hv]%elem_of_cons & Hne & Hs)].
      * left. destruct x as [|[|c s]|z|q]; cbn [text_of]; try done.
        apply elem_of_union. by right.
      * left. destruct v as [|c s]; [done|]. cbn [text_of].
        apply elem_of_union. left. by apply elem_of_singleton.
      * right. by exists v.
Qed.

Lemma select_url_elem (t : gmap (list sql_value) (gmap string sql_value)) (v : string) :
  SqlStr v ∈ select_match_report_url t
  <-> exists k row, t !! k = Some row /\ row !! "match_report_url" = Some (SqlStr v).
Proof.
  unfold select_match_report_url. rewrite elem_of_remove_dups, list_elem_of_fmap. split.
  - intros ([k row] & Hv & Hin%elem_of_map_to_list). exists k, row. split; [done|].
    cbn [snd] in Hv. by destruct (row !! "match_report_url") as [x|]; cbn in Hv; subst.
  - intros (k & row & Hk & Hrow). exists (k, row). cbn [snd]. rewrite Hrow. split; [done|].
    by apply elem_of_map_to_list.
Qed.

Lemma table_urls (t : gmap (list sql_value) (gmap string sql_value))
    (scraped_set : gset string) (u : string) :
  u ∈ add_urls (select_match_report_url t) scraped_set <-> u ∈ scraped_set \/ stores_url t u.
Proof.
  rewrite add_urls_elem. unfold stores_url. split.
  - intros [H|(v & (k & row & Hk & Hrow)%select_url_elem & Hne & Hs)]; [by left|].
    right. by exists k, row, v.
  - intros [H|(k & row & v & Hk & Hrow & Hne & Hs)]; [by left|].
    right. exists v. split_and!; [|done..]. apply select_url_elem. by exists k, row.
Qed.

Lemma scraped_urls_complete (fault : nat -> bool) (db : DB) (u : string) :
  fault 0%nat = false -> fault 1%nat = false -> fault 2%nat = false ->
  stores_url (all_matchups_players db) u \/ stores_url (all_matchups_teams db) u ->
  u ∈ (get_already_scraped_urls fault db).1.
Proof.
  intros F0 F1 F2 H. unfold get_already_scraped_urls. rewrite F0, F1, F2. cbn [fst].
  rewrite !table_urls. tauto.
Qed.

(** X17. The set of [get_already_scraped_urls] holds only addresses that
    a row of the player table or of the team table holds, stripped, and
    never the empty string of a row without address; it holds all of them
    when no call of its connection fails, none when the connection or the
    first query fails, and those of the player table alone when the second
    query fails. *)
Theorem scraped_urls_are_stored (fault : nat -> bool) (db : DB) (u : string) :
  let scraped_urls := (get_already_scraped_urls fault db).1 in
  (u ∈ scraped_urls ->
     stores_url (all_matchups_players db) u \/ stores_url (all_matchups_teams db) u)
  /\ (fault 0%nat = false -> fault 1%nat = false -> fault 2%nat = false ->
      stores_url (all_matchups_players db) u \/ stores_url (all_matchups_teams db) u ->
      u ∈ scraped_urls)
  /\ (fault 0%nat = true \/ fault 1%nat = true -> scraped_urls = ∅)
  /\ (fault 0%nat = false -> fault 1%nat = false -> fault 2%nat = true ->
      (u ∈ scraped_urls <-> stores_url (all_matchups_players db) u)).
Proof.
  cbv zeta. split_and!.
  - unfold get_already_scraped_urls.
    destruct (fault 0%nat); [by intros ?%elem_of_empty|].
    destruct (fault 1%nat); [by intros ?%elem_of_empty|].
    destruct (fault 2%nat); cbn [fst]; rewrite !table_urls.
    + intros [?%elem_of_empty|H]; [done | by left].
    + intros [[?%elem_of_empty|H]|H]; [done | by left | by right].
  - apply scraped_urls_complete.
  - unfold get_already_scraped_urls. intros [->| ->]; [done|]. by destruct (fault 0%nat).
  - intros F0 F1 F2. unfold get_already_scraped_urls. rewrite F0, F1, F2. cbn [fst].
    rewrite table_urls. split; [|by right]. by intros [?%elem_of_empty|H].
Qed.

(** *** The date the scan starts from *)

Lemma wanted_loop (scraped_urls : gset string) (c : ascii) (s : string) :
  wanted scraped_urls (Some (String c s))
  = negb (bool_decide (strip (String c s) ∈ scraped_urls))
    && negb (BAD_URL_REGEX_search (strip (String c s))).
Proof. reflexivity. Qed.

Lemma select_reports_cons (e : schedule_entry) (schedule : list schedule_entry) :
  select_reports (e :: schedule)
  = match s_match_report e with
    | Some u => (s_date e, Some u) :: select_reports schedule
    | None => select_reports schedule
    end.
Proof.
  unfold select_reports. cbn [List.filter].
  destruct (s_match_report e) as [u|] eqn:E.
  - rewrite bool_decide_true by by eexists. cbn [fmap list_fmap]. by rewrite E.
  - by rewrite bool_decide_false by (by intros [? ?]).
Qed.

Lemma earliest_schedule (schedule : list schedule_entry) (scraped_urls : gset string) :
  match earliest_unscraped (select_reports schedule) scraped_urls with
  | Some dt =>
      exists before e after,
        schedule = before ++ e :: after /\ s_date e = dt
        /\ wanted scraped_urls (s_match_report e) = true
        /\ forall x, x ∈ before -> wanted scraped_urls (s_match_report x) = false
  | None => forall x, x ∈ schedule -> wanted scraped_urls (s_match_report x) = false
  end.
Proof.
  induction schedule as [|e schedule IH].
  - cbn. by intros x ?%elem_of_nil.
  - assert (Hskip : wanted scraped_urls (s_match_report e) = false ->
              match earliest_unscraped (select_reports schedule) scraped_urls with
              | Some dt =>
                  exists before e0 after,
                    e :: schedule = before ++ e0 :: after /\ s_date e0 = dt
                    /\ wanted scraped_urls (s_match_report e0) = true
                    /\ forall x, x ∈ before -> wanted scraped_urls (s_match_report x) = false
              | None =>
                  forall x, x ∈ e :: schedule ->
                            wanted scraped_urls (s_match_report x) = false
              end).
    { intros He. destruct (earliest_unscraped _ scraped_urls) as [dt|].
      - destruct IH as (before & e0 & after & -> & Hd & Hw & Hb).
        exists (e :: before), e0, after. split_and!; [done..|].
        intros x [->|Hx]%elem_of_cons; [done | by apply Hb].
      - intros x [->|Hx]%elem_of_cons; [done | by apply IH]. }
    rewrite select_reports_cons.
    destruct (s_match_report e) as [[|c s]|] eqn:Hr.
    + cbn [earliest_unscraped]. by apply Hskip.
    + cbn [earliest_unscraped]. rewrite wanted_loop in Hskip.
      destruct (bool_decide (strip (String c s) ∈ scraped_urls)) eqn:Hin;
        [by apply Hskip|].
      destruct (BAD_URL_REGEX_search (strip (String c s))) eqn:Hbad; [by apply Hskip|].
      exists [], e, schedule. split_and!; [done | done | | by intros x ?%elem_of_nil].
      by rewrite Hr, wanted_loop, Hin, Hbad.
    + by apply Hskip.
Qed.

(** X18. The date of [get_earliest_unscraped_date] is the date of the
    first entry of the schedule, in the order of the listing, whose report
    is not empty, not stored and not of the halting shape: every entry
    before it is stored, empty or halting, and on a table listed by date no
    such entry has an earlier date. It gives no date when there is no such
    entry, and when a call of its connection fails. *)
Theorem earliest_unscraped_date (fault : nat -> bool) (schedule : list schedule_entry)
    (scraped_urls : gset string) :
  match (get_earliest_unscraped_date fault schedule scraped_urls).1 with
  | Some dt =>
      fault 0%nat = false /\ fault 1%nat = false
      /\ exists before e after,
           schedule = before ++ e :: after /\ s_date e = dt
           /\ wanted scraped_urls (s_match_report e) = true
           /\ (forall x, x ∈ before -> wanted scraped_urls (s_match_report x) = false)
           /\ (listed_by_date schedule ->
               forall x, x ∈ schedule -> wanted scraped_urls (s_match_report x) = true ->
                         dt <= s_date x)
  | None =>
      fault 0%nat = true \/ fault 1%nat = true
      \/ forall x, x ∈ schedule -> wanted scraped_urls (s_match_report x) = false
  end.
Proof.
  unfold get_earliest_unscraped_date.
  destruct (fault 0%nat); [by left|]. destruct (fault 1%nat); [by right; left|]. cbn [fst].
  pose proof (earliest_schedule schedule scraped_urls) as H.
  destruct (earliest_unscraped (select_reports schedule) scraped_urls) as [dt|]; [|auto].
  destruct H as (before & e & after & -> & Hd & Hw & Hb).
  split_and!; [done..|]. exists before, e, after. split_and!; [done..|].
  intros Hsorted x Hx Hwx.
  apply elem_of_app in Hx as [Hx|Hx]; [rewrite (Hb x Hx) in Hwx; done|].
  apply list_elem_of_lookup_1 in Hx as [j Hj].
  rewrite <- Hd.
  apply (Hsorted (length before) (length before + j)%nat e x); [lia | |].
  - by rewrite lookup_app_r, Nat.sub_diag by lia.
  - rewrite lookup_app_r by lia. by replace (length before + j - length before)%nat with j by lia.
Qed.

(** *** The rows the loop is given *)

Lemma unscraped_filter (rows : list schedule_entry) (scraped_urls : gset string) :
  unscraped rows scraped_urls
  = List.filter (fun e => unstored scraped_urls (s_match_report e)) rows.
Proof.
  induction rows as [|e rows IH]; [done|]. cbn [unscraped List.filter]. rewrite IH.
  destruct (s_match_report e) as [[|c s]|]; cbn [unstored]; try done.
  by destruct (bool_decide (strip (String c s) ∈ scraped_urls)).
Qed.

Lemma filter_sublist {A} (f : A -> bool) (l : list A) : List.filter f l `sublist_of` l.
Proof.
  induction l as [|x l IH]; [done|]. cbn [List.filter].
  destruct (f x); [by apply sublist_skip | by apply sublist_cons].
Qed.

Lemma unstored_is_Some (scraped_urls : gset string) (report : option string) :
  unstored scraped_urls report = true -> is_Some report.
Proof. destruct report; [by eexists | done]. Qed.

Lemma fetched_elem (start : Z) (schedule : list schedule_entry) (scraped_urls : gset string)
    (e : schedule_entry) :
  e ∈ unscraped (select_since start schedule) scraped_urls
  <-> e ∈ schedule /\ start <= s_date e /\ unstored scraped_urls (s_match_report e) = true.
Proof.
  rewrite unscraped_filter. unfold select_since.
  rewrite !list_elem_of_In, !filter_In, andb_true_iff, bool_decide_eq_true, Z.leb_le.
  split; [tauto|]. intros (H1 & H2 & H3). split_and!; try done.
  by eapply unstored_is_Some.
Qed.

(** X19. The rows of [fetch_schedule_since_date]: entries of the schedule
    in the order of the listing, each from the start date on and with a
    report that is not empty and not stored; all of them when no call of
    the connection fails. Started from the date of
    [get_earliest_unscraped_date], the rows are not empty: the entry that
    gave the date is one of them. *)
Theorem fetched_rows (fault : nat -> bool) (start : Z) (schedule : list schedule_entry)
    (scraped_urls : gset string) :
  let rows := (fetch_schedule_since_date fault (Some start) schedule scraped_urls).1 in
  rows `sublist_of` schedule
  /\ (forall e, e ∈ rows ->
        start <= s_date e /\ unstored scraped_urls (s_match_report e) = true)
  /\ (fault 0%nat = false -> fault 1%nat = false ->
      (forall e, e ∈ schedule -> start <= s_date e ->
                 unstored scraped_urls (s_match_report e) = true -> e ∈ rows)
      /\ (forall fault',
            (get_earliest_unscraped_date fault' schedule scraped_urls).1 = Some start ->
            rows <> [])).
Proof.
  cbv zeta. unfold fetch_schedule_since_date.
  destruct (fault 0%nat).
  { cbn [fst]. split_and!; [apply sublist_nil_l | by intros e ?%elem_of_nil | done]. }
  destruct (fault 1%nat).
  { cbn [fst]. split_and!; [apply sublist_nil_l | by intros e ?%elem_of_nil | done]. }
  cbn [fst]. split_and!.
  - rewrite unscraped_filter. etrans; [apply filter_sublist|]. apply filter_sublist.
  - intros e He%fetched_elem. tauto.
  - intros _ _. split.
    + intros e H1 H2 H3. by apply fetched_elem.
    + intros fault' Hd. unfold get_earliest_unscraped_date in Hd.
      destruct (fault' 0%nat); [done|]. destruct (fault' 1%nat); [done|]. cbn [fst] in Hd.
      pose proof (earliest_schedule schedule scraped_urls) as H. rewrite Hd in H.
      destruct H as (before & e & after & -> & Hdate & Hw & _).
      assert (He : e ∈ unscraped (select_since start (before ++ e :: after)) scraped_urls).
      { apply fetched_elem. split_and!.
        - apply elem_of_app. right. apply list_elem_of_here.
        - lia.
        - unfold wanted in Hw. by apply andb_prop in Hw as [Hw _]. }
      intros Hnil. rewrite Hnil in He. by apply elem_of_nil in He.
Qed.

(** *** The loop *)

Section Loop.

Variable py_int : string -> option Z.
Variable py_float : string -> option Qc.
Variable date_str_of : Z -> string.
Variable web : nat -> string -> option document.
Variable fault : nat -> nat -> bool.

Lemma main_loop_halts (e : schedule_entry) (after : list schedule_entry)
    (before : list schedule_entry) (i : nat) (st : DB * list scan_line) :
  is_bad_url (s_match_report e) = true ->
  main_loop py_int py_float date_str_of web fault i (before ++ e :: after) st
  = main_loop py_int py_float date_str_of web fault i (before ++ [e]) st
  /\ (main_loop py_int py_float date_str_of web fault i (before ++ [e]) st).1
     = (main_loop py_int py_float date_str_of web fault i before st).1.
Proof.
  intros Hbad. revert i st. induction before as [|x before IH]; intros i st.
  - cbn [app main_loop]. destruct (s_match_report e) as [[|c s]|]; try done.
    change (BAD_URL_REGEX_search (strip (String c s)) = true) in Hbad. by rewrite Hbad.
  - cbn [app main_loop]. destruct (s_match_report x) as [[|c s]|]; try apply IH.
    destruct (BAD_URL_REGEX_search (strip (String c s))); [done|].
    destruct (scrape_and_insert_match_data _ _ _ _ _ _) as [db' out]. apply IH.
Qed.

(** X20. The loop of [main] stops at the first row whose address has the
    halting shape: the rows after it are not read, whatever they hold, and
    the row itself is not scraped, so the store is the one the rows before
    it leave. *)
Theorem main_stops_at_halting_url (before after : list schedule_entry) (e : schedule_entry)
    (i : nat) (st : DB * list scan_line) :
  is_bad_url (s_match_report e) = true ->
  main_loop py_int py_float date_str_of web fault i (before ++ e :: after) st
  = main_loop py_int py_float date_str_of web fault i (before ++ [e]) st
  /\ (main_loop py_int py_float date_str_of web fault i (before ++ e :: after) st).1
     = (main_loop py_int py_float date_str_of web fault i before st).1.
Proof.
  intros Hbad. destruct (main_loop_halts e after before i st Hbad) as [H1 H2].
  split; [done|]. by rewrite H1.
Qed.

(** The team row of a run without failing call holds the address of the
    match. *)
Lemma team_row_url (fault0 : nat -> bool) (r : schedule_row) (doc : document)
    (sb : scorebox_div) (db : DB) :
  scorebox doc = Some sb ->
  (forall i, (i < n_calls (derive py_int py_float r doc sb).1)%nat -> fault0 i = false) ->
  match_url r <> "" ->
  stores_url
    (all_matchups_teams
       (scrape_and_insert_match_data py_int py_float fault0 r (Some doc) db).1)
    (strip (full_url r)).
Proof.
  intros Hsb Hnf Hne.
  rewrite (MatchFacts.run_with_scorebox py_int py_float fault0 r doc sb db Hsb). cbn [fst].
  destruct (MatchFacts.persist_derived py_int py_float fault0 r doc sb db Hnf) as [Hst _].
  destruct (MatchFacts.derive_well_keyed py_int py_float r doc sb) as [Hh Ha].
  destruct (RerunFacts.staged_again r _ db _ Hh Ha Hst) as (_ & Hup & _).
  apply (StoreFacts.upserted_columns insert_teams_sql
           (teams_param r (derive py_int py_float r doc sb).1)) in Hup
    as (row & Hrow & Hcols); [|done | done | apply RerunFacts.teams_param_length].
  destruct (Hcols "match_report_url" ltac:(apply (bool_decide_unpack _); by vm_compute))
    as [_ Hurl].
  eexists _, row, (full_url r). split_and!; [exact Hrow | | | done].
  - rewrite Hurl. by vm_compute.
  - unfold full_url. destruct (starts_with "fbref.com" (match_url r)); [|done].
    by destruct (match_url r).
Qed.

(** X21. A match that was stored is not scraped again: after a run on a
    row of the schedule in which no call fails and whose page has the
    scorebox and plain numerals in its "sca" cells (so that line 546 does
    not raise), the address the run requested is in the set of
    [get_already_scraped_urls], and the row is no more among the rows of
    [fetch_schedule_since_date] when its address does not start with
    [fbref.com], that is when the run requested the address as the
    schedule has it. *)
Theorem stored_match_is_skipped (e : schedule_entry) (url_ : string) (doc : document)
    (sb : scorebox_div) (db : DB) (fault0 reading : nat -> bool)
    (schedule : list schedule_entry) (start : Z) :
  s_match_report e = Some url_ -> url_ <> "" -> scorebox doc = Some sb ->
  plain_sca doc = true ->
  let r := row_of_entry date_str_of e url_ in
  (forall i, (i < n_calls (derive py_int py_float r doc sb).1)%nat -> fault0 i = false) ->
  (forall i, reading i = false) ->
  let db' := (scrape_and_insert_match_data py_int py_float fault0 r (Some doc) db).1 in
  let scraped_urls := (get_already_scraped_urls reading db').1 in
  strip (full_url r) ∈ scraped_urls
  /\ (starts_with "fbref.com" url_ = false ->
      e ∉ (fetch_schedule_since_date reading (Some start) schedule scraped_urls).1).
Proof.
  intros Hr Hne Hsb _ r Hnf Hread db' scraped_urls.
  assert (Hin : strip (full_url r) ∈ scraped_urls).
  { apply scraped_urls_complete; [apply Hread..|]. right.
    by apply (team_row_url fault0 r doc sb db Hsb Hnf). }
  split; [exact Hin|]. intros Hs.
  unfold fetch_schedule_since_date. rewrite !Hread. cbn [fst].
  intros (_ & _ & Hu)%fetched_elem.
  rewrite Hr in Hu. destruct url_ as [|c s]; [done|]. cbn [unstored] in Hu.
  unfold full_url, r, row_of_entry in Hin. cbn [match_url] in Hin. rewrite Hs in Hin.
  by rewrite (bool_decide_true _ Hin) in Hu.
Qed.

End Loop.

Lemma main_stops_at_halting_url_witness :
  let good := {| s_date := 0; s_home := "Arsenal"; s_away := "Brentford";
                 s_comp := "Premier League";
                 s_match_report :=
                   Some "https://fbref.com/en/matches/0a1b2c3d/Arsenal-Brentford" |} in
  let halting := {| s_date := 1; s_home := "Chelsea"; s_away := "Fulham";
                    s_comp := "Premier League";
                    s_match_report :=
                      Some "https://fbref.com/en/stathead/AbCdEfGh/IjKlMnOp/x" |} in
  let run := main_loop Examples.example_int Examples.example_float
               (fun _ => "2024-03-09") (fun _ _ => Some Examples.example_page) no_faults 0 in
  (run ([good] ++ halting :: [good]) (empty_db, [])).1 = (run [good] (empty_db, [])).1.
Proof.
  cbv zeta.
  exact (proj2 (main_stops_at_halting_url Examples.example_int Examples.example_float
                  (fun _ => "2024-03-09") (fun _ _ => Some Examples.example_page) no_faults
                  [ {| s_date := 0; s_home := "Arsenal"; s_away := "Brentford";
                       s_comp := "Premier League";
                       s_match_report :=
                         Some "https://fbref.com/en/matches/0a1b2c3d/Arsenal-Brentford" |} ]
                  [ {| s_date := 0; s_home := "Arsenal"; s_away := "Brentford";
                       s_comp := "Premier League";
                       s_match_report :=
                         Some "https://fbref.com/en/matches/0a1b2c3d/Arsenal-Brentford" |} ]
                  {| s_date := 1; s_home := "Chelsea"; s_away := "Fulham";
                     s_comp := "Premier League";
                     s_match_report :=
                       Some "https://fbref.com/en/stathead/AbCdEfGh/IjKlMnOp/x" |}
                  0%nat (empty_db, []) ltac:(by vm_compute))).
Defined.

Lemma stored_match_is_skipped_witness :
  let e := {| s_date := 0; s_home := "Arsenal"; s_away := "Brentford";
              s_comp := "Premier League";
              s_match_report :=
                Some "https://fbref.com/en/matches/0a1b2c3d/Arsenal-Brentford" |} in
  let db' := (scrape_and_insert_match_data Examples.example_int Examples.example_float
                no_fault
                (row_of_entry (fun _ => "2024-03-09") e
                   "https://fbref.com/en/matches/0a1b2c3d/Arsenal-Brentford")
                (Some Examples.example_page) empty_db).1 in
  e ∉ (fetch_schedule_since_date no_fault (Some 0) [e]
         (get_already_scraped_urls no_fault db').1).1.
Proof.
  cbv zeta.
  exact (proj2 (stored_match_is_skipped Examples.example_int Examples.example_float
                  (fun _ => "2024-03-09")
                  {| s_date := 0; s_home := "Arsenal"; s_away := "Brentford";
                     s_comp := "Premier League";
                     s_match_report :=
                       Some "https://fbref.com/en/matches/0a1b2c3d/Arsenal-Brentford" |}
                  "https://fbref.com/en/matches/0a1b2c3d/Arsenal-Brentford"
                  Examples.example_page Examples.example_scorebox empty_db
                  no_fault no_fault
                  [ {| s_date := 0; s_home := "Arsenal"; s_away := "Brentford";
                       s_comp := "Premier League";
                       s_match_report :=
                         Some "https://fbref.com/en/matches/0a1b2c3d/Arsenal-Brentford" |} ]
                  0 eq_refl ltac:(discriminate) eq_refl eq_refl
                  (fun _ _ => eq_refl) (fun _ => eq_refl))
           eq_refl).
Defined.

End ScanFacts.

(* ===================================================================== *)
(** * The refresh of the report addresses *)
(* ===================================================================== *)

Module UrlFacts.
Import Text Halting Data Storage Scan ScheduleUrl Notions.
Local Open Scope list_scope.

(** ** The dictionary of a page *)

Lemma add_fixture_entries (tables : list sched_div) (rows : list fixture_tr)
    (table_div : sched_div) (fixtures_dict : fixtures) (done_ : list fixture_tr) :
  table_div ∈ tables -> inner_table table_div = Some (Some (done_ ++ rows)) ->
  map_Forall (sets_entry tables) fixtures_dict ->
  map_Forall (sets_entry tables) (foldl add_fixture fixtures_dict rows).
Proof.
  intros Ht Hin. revert fixtures_dict done_ Hin.
  induction rows as [|row rows IH]; intros fixtures_dict done_ Hin Hd; [done|].
  cbn [foldl]. apply (IH _ (done_ ++ [row])); [by rewrite <- app_assoc|].
  unfold add_fixture. case_bool_decide as Hsp; [done|].
  destruct (home_team_cell row) as [home_team|] eqn:Hh; [|done].
  destruct (away_team_cell row) as [away_team|] eqn:Ha; [|done].
  apply map_Forall_insert_2; [|done].
  exists table_div, (done_ ++ row :: rows), row.
  split_and!; try done. apply elem_of_app. right. apply list_elem_of_here.
Qed.

Lemma add_table_entries (tables tables' : list sched_div) (fixtures_dict : fixtures) :
  tables' ⊆ tables ->
  map_Forall (sets_entry tables) fixtures_dict ->
  map_Forall (sets_entry tables) (foldl add_table fixtures_dict tables').
Proof.
  revert fixtures_dict. induction tables' as [|t tables' IH]; intros fixtures_dict Hs Hd; [done|].
  cbn [foldl]. apply IH; [set_solver|].
  unfold add_table. destruct (inner_table t) as [[rows|]|] eqn:Hin; try done.
  apply (add_fixture_entries tables rows t fixtures_dict []); [set_solver|done|done].
Qed.

Lemma scraped_entries (url : string) (date_str : Z) (resp : option (list sched_div))
    (key : string * string) (v : option string) :
  (scrape_fixture_urls_for_date url date_str resp).1 !! key = Some v ->
  exists tables, resp = Some tables /\ sets_entry tables key v.
Proof.
  unfold scrape_fixture_urls_for_date. destruct resp as [[|t tables]|]; cbn [fst]; try done.
  intros Hk. exists (t :: tables). split; [done|].
  by apply (add_table_entries (t :: tables) (t :: tables) ∅ ltac:(done) (map_Forall_empty _)
              key v).
Qed.

(** X22. Every entry of the dictionary [scrape_fixture_urls_for_date]
    returns was set by a row of a fixture table of the page: a row
    without the class [spacer] that has a home and an away cell, whose
    texts are the key; the value is [https://fbref.com] followed by the
    stripped [href] of the first anchor of the report cell, and [None]
    when the cell, the anchor or the [href] is missing. When the request
    raises, or the page has no fixture table, the dictionary is empty. *)
Theorem fixtures_come_from_rows (url : string) (date_str : Z)
    (resp : option (list sched_div)) (key : string * string) (v : option string) :
  (scrape_fixture_urls_for_date url date_str resp).1 !! key = Some v ->
  exists tables, resp = Some tables /\ sets_entry tables key v.
Proof. apply scraped_entries. Qed.

Lemma fixtures_come_from_rows_witness :
  let row := {| tr_class := []; home_team_cell := Some "Arsenal";
                away_team_cell := Some "Brentford";
                match_report_cell :=
                  Some (Some (Some " /en/matches/0a1b2c3d/Arsenal-Brentford ")) |} in
  let spacer := {| tr_class := ["spacer"; "partial_table"]; home_team_cell := Some "Arsenal";
                   away_team_cell := Some "Brentford"; match_report_cell := None |} in
  let page := [ {| inner_table := Some (Some [row; spacer]) |} ] in
  exists tables,
    Some page = Some tables
    /\ sets_entry tables ("Arsenal", "Brentford")
         (Some "https://fbref.com/en/matches/0a1b2c3d/Arsenal-Brentford").
Proof.
  intros row spacer page.
  apply (fixtures_come_from_rows "https://fbref.com/en/matches/2024-03-09" 0 (Some page)).
  by vm_compute.
Defined.

Lemma row_url_site (row : fixture_tr) (u : string) :
  row_url row = Some u -> exists href, u = "https://fbref.com" +:+ strip href.
Proof.
  unfold row_url. destruct (match_report_cell row) as [[[href|]|]|]; try done.
  intros [= <-]. by exists href.
Qed.

Lemma scraped_url_site (url : string) (date_str : Z) (resp : option (list sched_div))
    (key : string * string) (u : string) :
  url_at (scrape_fixture_urls_for_date url date_str resp).1 key = Some u ->
  exists href, u = "https://fbref.com" +:+ strip href.
Proof.
  unfold url_at.
  destruct ((scrape_fixture_urls_for_date url date_str resp).1 !! key)
    as [[[|c s]|]|] eqn:Hk; try done.
  intros [= <-]. apply scraped_entries in Hk as (tables & _ & t & rows & row & Hrow).
  destruct Hrow as (_ & _ & _ & _ & _ & _ & Hv). by apply (row_url_site row).
Qed.

(** ** The update of a day *)

Section Update.

Variable fault : nat -> bool.
Variable date_str : Z.
Variable fixtures_dict : fixtures.

Lemma update_rows_cons (home_team away_team : string) (old_url : option string)
    (rows : list (string * string * option string)) (working : list schedule_entry)
    (k : nat) :
  update_rows fault date_str fixtures_dict ((home_team, away_team, old_url) :: rows) working k
  = match url_at fixtures_dict (home_team, away_team) with
    | Some new_url =>
        if is_bad_url (Some new_url)
        then Ok (true, working, k, [EncounteredBadUrl new_url])
        else if fault (S k) then Error
        else update_rows fault date_str fixtures_dict rows
               (run_update new_url date_str home_team away_team working) (S k)
    | None => update_rows fault date_str fixtures_dict rows working k
    end.
Proof.
  cbn [update_rows]. unfold url_at.
  by destruct (fixtures_dict !! (home_team, away_team)) as [[[|c s]|]|].
Qed.

Lemma refresh_keys_skip (key : string * string) (keys : list (string * string))
    (e : schedule_entry) :
  url_at fixtures_dict key = None ->
  refresh_keys date_str fixtures_dict (key :: keys) e
  = refresh_keys date_str fixtures_dict keys e.
Proof.
  intros Hnone. unfold refresh_keys.
  destruct (s_date e =? date_str); cbn [andb]; [|done].
  destruct (decide ((s_home e, s_away e) ∈ keys)) as [Hin|Hin].
  - rewrite !bool_decide_eq_true_2; [done|done|by apply list_elem_of_further].
  - rewrite (bool_decide_eq_false_2 _ Hin). case_bool_decide as H1; [|done].
    apply elem_of_cons in H1 as [<-|?]; [|done]. unfold refresh. by rewrite Hnone.
Qed.

Lemma refresh_keys_update (home_team away_team u : string) (keys : list (string * string))
    (e : schedule_entry) :
  url_at fixtures_dict (home_team, away_team) = Some u ->
  refresh_keys date_str fixtures_dict keys
    (if (s_date e =? date_str) && String.eqb (s_home e) home_team
        && String.eqb (s_away e) away_team
     then set_match_report (Some u) e else e)
  = refresh_keys date_str fixtures_dict ((home_team, away_team) :: keys) e.
Proof.
  intros Hu. unfold refresh_keys.
  destruct (s_date e =? date_str) eqn:Hd; cbn [andb]; [|by rewrite Hd].
  destruct (String.eqb_spec (s_home e) home_team) as [Hh|Hh]; cbn [andb].
  - destruct (String.eqb_spec (s_away e) away_team) as [Ha|Ha].
    + cbn [set_match_report s_date s_home s_away]. rewrite Hd, Hh, Ha. cbn [andb].
      rewrite (bool_decide_eq_true_2 (_ ∈ _ :: _)) by apply list_elem_of_here.
      unfold refresh. cbn [set_match_report s_date s_home s_away]. rewrite Hh, Ha, Hu.
      by case_bool_decide.
    + rewrite Hd. cbn [andb]. apply (f_equal (fun b : bool => if b then _ else _)).
      apply bool_decide_ext. rewrite elem_of_cons. split; [by right|].
      intros [[= ? ?]|?]; [done|done].
  - rewrite Hd. cbn [andb]. apply (f_equal (fun b : bool => if b then _ else _)).
    apply bool_decide_ext. rewrite elem_of_cons. split; [by right|].
    intros [[= ? ?]|?]; [done|done].
Qed.

Lemma refresh_keys_nil (e : schedule_entry) :
  refresh_keys date_str fixtures_dict [] e = e.
Proof.
  unfold refresh_keys. rewrite andb_comm.
  by rewrite (bool_decide_eq_false_2 (_ ∈ [])) by apply not_elem_of_nil.
Qed.

(** The loop over the rows: it stops at a halting address of a row, and
    else it has updated every row that has an address. *)
Lemma update_rows_ok (rows : list (string * string * option string))
    (working : list schedule_entry) (k : nat) (stop_script : bool)
    (working' : list schedule_entry) (k' : nat) (out : list url_line) :
  update_rows fault date_str fixtures_dict rows working k
  = Ok (stop_script, working', k', out) ->
  if stop_script
  then exists key u,
         key ∈ keys_of rows /\ url_at fixtures_dict key = Some u
         /\ is_bad_url (Some u) = true
  else (forall key u,
          key ∈ keys_of rows -> url_at fixtures_dict key = Some u ->
          is_bad_url (Some u) = false)
       /\ working' = refresh_keys date_str fixtures_dict (keys_of rows) <$> working
       /\ (k' = k + length (List.filter
                              (fun key => bool_decide (is_Some (url_at fixtures_dict key)))
                              (keys_of rows)))%nat
       /\ out = [].
Proof.
  revert working k. induction rows as [|[[home_team away_team] old_url] rows IH];
    intros working k.
  - cbn [update_rows]. intros [= <- <- <- <-]. split_and!.
    + by intros key u ?%elem_of_nil.
    + cbn [keys_of fmap list_fmap]. rewrite <- (list_fmap_id working) at 1.
      apply list_fmap_ext. intros i e _. by rewrite refresh_keys_nil.
    + cbn. lia.
    + done.
  - rewrite update_rows_cons.
    change (keys_of ((home_team, away_team, old_url) :: rows))
      with ((home_team, away_team) :: keys_of rows).
    cbn [List.filter].
    destruct (url_at fixtures_dict (home_team, away_team)) as [u|] eqn:Hu.
    + destruct (is_bad_url (Some u)) eqn:Hbad.
      * intros [= <- <- <- <-]. exists (home_team, away_team), u.
        split_and!; [apply list_elem_of_here|done|done].
      * destruct (fault (S k)); [done|]. intros Hrun. specialize (IH _ _ Hrun).
        destruct stop_script.
        -- destruct IH as (key & u' & Hkey & Hrest). exists key, u'.
           split; [by apply list_elem_of_further|done].
        -- destruct IH as (Hgood & -> & -> & ->). split_and!.
           ++ intros key u' [->|Hkey]%elem_of_cons Hkey'; [congruence|by eapply Hgood].
           ++ unfold run_update. rewrite <- list_fmap_compose. apply list_fmap_ext.
              intros i e _. cbn [compose]. by apply refresh_keys_update.
           ++ rewrite (bool_decide_eq_true_2 (is_Some (Some u))) by done. cbn [length]. lia.
           ++ done.
    + intros Hrun. specialize (IH _ _ Hrun). destruct stop_script.
      * destruct IH as (key & u' & Hkey & Hrest). exists key, u'.
        split; [by apply list_elem_of_further|done].
      * destruct IH as (Hgood & -> & -> & ->). split_and!.
        -- intros key u' [->|Hkey]%elem_of_cons Hkey'; [congruence|by eapply Hgood].
        -- apply list_fmap_ext. intros i e _. symmetry. by apply refresh_keys_skip.
        -- by rewrite (bool_decide_eq_false_2 (is_Some None)) by by intros [? ?].
        -- done.
Qed.

(** Without a call that raises, the loop over the rows ends. *)
Lemma update_rows_runs (rows : list (string * string * option string))
    (working : list schedule_entry) (k : nat) :
  (forall j, fault j = false) ->
  exists res, update_rows fault date_str fixtures_dict rows working k = Ok res.
Proof.
  intros Hf. revert working k.
  induction rows as [|[[home_team away_team] old_url] rows IH]; intros working k.
  - by eexists.
  - rewrite update_rows_cons.
    destruct (url_at fixtures_dict (home_team, away_team)) as [u|]; [|apply IH].
    destruct (is_bad_url (Some u)); [by eexists|]. rewrite Hf. apply IH.
Qed.

Lemma keys_of_select_date (schedule : list schedule_entry) (key : string * string) :
  key ∈ keys_of (select_date date_str schedule) <->
  exists e, e ∈ schedule /\ s_date e = date_str /\ key = (s_home e, s_away e).
Proof.
  unfold keys_of, select_date. rewrite <- list_fmap_compose, list_elem_of_fmap.
  split.
  - intros (e & -> & He). rewrite list_elem_of_In, filter_In, <- list_elem_of_In in He.
    destruct He as [He Hd]. exists e. split_and!; [done|lia|done].
  - intros (e & He & Hd & ->). exists e. split; [done|].
    rewrite list_elem_of_In, filter_In, <- list_elem_of_In. split; [done|lia].
Qed.

Lemma halting_day_keys (schedule : list schedule_entry) :
  halting_day date_str fixtures_dict schedule <->
  exists key u,
    key ∈ keys_of (select_date date_str schedule) /\ url_at fixtures_dict key = Some u
    /\ is_bad_url (Some u) = true.
Proof.
  unfold halting_day. split.
  - intros (e & u & He & Hd & Hu & Hbad). exists (s_home e, s_away e), u.
    split_and!; try done. apply keys_of_select_date. by exists e.
  - intros (key & u & (e & He & Hd & ->)%keys_of_select_date & Hu & Hbad).
    by exists e, u.
Qed.

Lemma refresh_keys_select_date (schedule : list schedule_entry) :
  refresh_keys date_str fixtures_dict (keys_of (select_date date_str schedule)) <$> schedule
  = refreshed date_str fixtures_dict schedule.
Proof.
  unfold refreshed. apply list_fmap_ext. intros i e He%list_elem_of_lookup_2.
  unfold refresh_keys. destruct (s_date e =? date_str) eqn:Hd; [|done]. cbn [andb].
  rewrite bool_decide_eq_true_2; [done|].
  apply keys_of_select_date. exists e. split_and!; [done|lia|done].
Qed.

(** The outcomes of [update_schedule_for_date]. *)
Lemma update_outcomes (o : connect_outcome) (schedule : list schedule_entry) :
  let '(res, schedule', out) :=
    update_schedule_for_date fault date_str fixtures_dict o schedule in
  match res with
  | Ok true =>
      o = Connects /\ halting_day date_str fixtures_dict schedule /\ schedule' = schedule
  | Ok false =>
      (o <> Connects /\ schedule' = schedule)
      \/ (o = Connects /\ ~ halting_day date_str fixtures_dict schedule
          /\ schedule' = refreshed date_str fixtures_dict schedule
          /\ out = [Updated (rows_with_url date_str fixtures_dict schedule) date_str])
  | Error => o = Connects /\ schedule' = schedule
  end.
Proof.
  unfold update_schedule_for_date.
  destruct o; cbn [get_db_connection]; [|by left|by left].
  destruct (fault 0); [done|].
  destruct (update_rows _ _ _ _ _ _) as [[[[stop_script working'] k'] out1]|] eqn:Hrun;
    [|done].
  apply update_rows_ok in Hrun. destruct stop_script.
  - split_and!; [done| |done]. by apply halting_day_keys.
  - destruct Hrun as (Hgood & -> & -> & ->). destruct (fault (S _)); [done|].
    right. split_and!; [done| |apply refresh_keys_select_date|done].
    intros (key & u & Hkey & Hu & Hbad)%halting_day_keys.
    specialize (Hgood key u Hkey Hu). congruence.
Qed.

(** X23. [update_schedule_for_date] writes a day as a whole or not at
    all. It returns [True] only when the dictionary gives an address of
    the halting shape for a fixture of the day, and the table is then as
    before: what was updated before that row is not committed. When it
    raises, or finds no connection, the table is as before. Otherwise no
    fixture of the day has such an address, and the table is the one
    where every entry of the day for whose fixture the dictionary gives an
    address that is not empty has that address as its report, and every
    other entry is as before; the number it prints is the number of rows
    of the day that have an address. *)
Theorem update_is_whole_day (o : connect_outcome) (schedule : list schedule_entry) :
  let '(res, schedule', out) :=
    update_schedule_for_date fault date_str fixtures_dict o schedule in
  match res with
  | Ok true =>
      o = Connects /\ halting_day date_str fixtures_dict schedule /\ schedule' = schedule
  | Ok false =>
      (o <> Connects /\ schedule' = schedule)
      \/ (o = Connects /\ ~ halting_day date_str fixtures_dict schedule
          /\ schedule' = refreshed date_str fixtures_dict schedule
          /\ out = [Updated (rows_with_url date_str fixtures_dict schedule) date_str])
  | Error => o = Connects /\ schedule' = schedule
  end.
Proof. apply update_outcomes. Qed.

(** X24. When no call on the connection raises,
    [update_schedule_for_date] returns, and it returns [True] exactly
    when the dictionary gives an address of the halting shape for a
    fixture of the day, whatever row it is and whatever the other rows
    have. *)
Theorem update_stops_on_halting_day (schedule : list schedule_entry) :
  (forall j, fault j = false) ->
  exists stop_script schedule' out,
    update_schedule_for_date fault date_str fixtures_dict Connects schedule
    = (Ok stop_script, schedule', out)
    /\ (stop_script = true <-> halting_day date_str fixtures_dict schedule).
Proof.
  intros Hf. pose proof (update_outcomes Connects schedule) as Hout.
  unfold update_schedule_for_date in *. cbn [get_db_connection] in *.
  rewrite Hf in *.
  destruct (update_rows_runs (select_date date_str schedule) schedule 0 Hf)
    as [[[[stop_script working'] k'] out1] Hrun].
  rewrite Hrun in *. destruct stop_script.
  - eexists _, _, _. split; [done|]. by destruct Hout as (_ & ? & _).
  - rewrite Hf in *. eexists _, _, _. split; [done|].
    destruct Hout as [[? _]|(_ & Hno & _)]; [done|]. split; [done|]. by intros ?%Hno.
Qed.

End Update.

Lemma update_stops_on_halting_day_witness :
  let good := {| s_date := 7; s_home := "Arsenal"; s_away := "Brentford";
                 s_comp := "Premier League"; s_match_report := None |} in
  let other := {| s_date := 7; s_home := "Chelsea"; s_away := "Fulham";
                  s_comp := "Premier League"; s_match_report := None |} in
  let fixtures_dict : fixtures :=
    <[("Arsenal", "Brentford") :=
        Some "https://fbref.com/en/matches/0a1b2c3d/Arsenal-Brentford"]>
      (<[("Chelsea", "Fulham") :=
           Some "https://fbref.com/en/stathead/AbCdEfGh/IjKlMnOp/x"]> ∅) in
  exists stop_script schedule' out,
    update_schedule_for_date (fun _ => false) 7 fixtures_dict Connects [good; other]
    = (Ok stop_script, schedule', out)
    /\ (stop_script = true <-> halting_day 7 fixtures_dict [good; other]).
Proof.
  intros good other fixtures_dict.
  apply (update_stops_on_halting_day (fun _ => false) 7 fixtures_dict [good; other]).
  intros j. reflexivity.
Defined.

(** ** The loop over the dates *)

Lemma kept_or_refreshed_refl (e : schedule_entry) : kept_or_refreshed e e.
Proof. unfold kept_or_refreshed. split_and!; try done. by left. Qed.

Lemma kept_or_refreshed_trans (e e' e'' : schedule_entry) :
  kept_or_refreshed e e' -> kept_or_refreshed e' e'' -> kept_or_refreshed e e''.
Proof.
  intros (Hd & Hh & Ha & Hc & Hr) (Hd' & Hh' & Ha' & Hc' & Hr').
  unfold kept_or_refreshed. split_and!; try congruence.
  destruct Hr' as [Hr'|Hr']; [|by right].
  destruct Hr as [Hr|(href & Hr & Hbad)]; [left; congruence|].
  right. exists href. rewrite Hr'. by split.
Qed.

Lemma kept_or_refreshed_list_refl (schedule : list schedule_entry) :
  Forall2 kept_or_refreshed schedule schedule.
Proof. apply Forall_Forall2_diag, Forall_forall. intros e _. apply kept_or_refreshed_refl. Qed.

Lemma halting_day_kept (date_str : Z) (fixtures_dict : fixtures)
    (schedule schedule' : list schedule_entry) :
  Forall2 kept_or_refreshed schedule schedule' ->
  halting_day date_str fixtures_dict schedule ->
  halting_day date_str fixtures_dict schedule'.
Proof.
  intros Hk (e & u & [i He]%list_elem_of_lookup_1 & Hd & Hu & Hbad).
  destruct (Forall2_lookup_l _ _ _ _ _ Hk He) as (e' & He' & Hd' & Hh' & Ha' & _).
  exists e', u. split_and!; [by eapply list_elem_of_lookup_2|congruence| |done].
  by rewrite Hh', Ha'.
Qed.

Section Run.

Variable date_str_of : Z -> string.
Variable web : nat -> string -> option (list sched_div).
Variable connect : nat -> connect_outcome.
Variable fault : nat -> nat -> bool.

(** The dictionary of the [i]-th date of the loop. *)
Lemma update_keeps (fault_ : nat -> bool) (date_str : Z) (url : string)
    (resp : option (list sched_div)) (o : connect_outcome)
    (schedule : list schedule_entry) :
  Forall2 kept_or_refreshed schedule
    (update_schedule_for_date fault_ date_str
       (scrape_fixture_urls_for_date url date_str resp).1 o schedule).1.2.
Proof.
  pose proof (update_outcomes fault_ date_str
                (scrape_fixture_urls_for_date url date_str resp).1 o schedule) as Hout.
  destruct (update_schedule_for_date _ _ _ _ _) as [[res schedule'] out]. cbn [fst snd].
  destruct res as [[|]|].
  - destruct Hout as (_ & _ & ->). apply kept_or_refreshed_list_refl.
  - destruct Hout as [[_ ->]|(_ & Hno & -> & _)]; [apply kept_or_refreshed_list_refl|].
    unfold refreshed. apply Forall2_fmap_r, Forall_Forall2_diag, Forall_forall.
    intros e He. cbn [compose]. destruct (s_date e =? date_str) eqn:Hd;
      [|apply kept_or_refreshed_refl].
    unfold refresh.
    destruct (url_at _ (s_home e, s_away e)) as [u|] eqn:Hu; [|apply kept_or_refreshed_refl].
    unfold kept_or_refreshed. cbn [set_match_report s_date s_home s_away s_comp s_match_report].
    split_and!; try done. right.
    destruct (scraped_url_site _ _ _ _ _ Hu) as [href ->]. exists href. split; [done|].
    destruct (is_bad_url _) eqn:Hbad; [|done]. exfalso. apply Hno.
    exists e, ("https://fbref.com" +:+ strip href). split_and!; [done|lia|done|done].
  - destruct Hout as (_ & ->). apply kept_or_refreshed_list_refl.
Qed.

(** X25. Whatever the pages, the connections and the calls that raise,
    the loop of [main] leaves the table [schedule] with the same rows in
    the same order, each with its date, home, away and competition, and
    with the report it had or with an address that is [https://fbref.com]
    followed by a stripped [href] and that has not the halting shape. *)
Theorem main_loop_only_refreshes (i : nat) (dates_to_update : list Z)
    (st : list schedule_entry * list url_line) :
  Forall2 kept_or_refreshed st.1
    (ScheduleUrl.main_loop date_str_of web connect fault i dates_to_update st).1.2.
Proof.
  revert i st. induction dates_to_update as [|date_str dates' IH]; intros i st.
  - apply kept_or_refreshed_list_refl.
  - cbn [ScheduleUrl.main_loop].
    set (url := "https://fbref.com/en/matches/" +:+ date_str_of date_str).
    pose proof (update_keeps (fault i) date_str url (web i url) (connect i) st.1) as Hk.
    destruct (scrape_fixture_urls_for_date url date_str (web i url)) as [fixtures_dict out1].
    cbn [fst snd] in Hk. case_bool_decide as He; [apply (IH (S i) (_, _))|].
    destruct (update_schedule_for_date _ _ _ _ _) as [[res schedule'] out2].
    cbn [fst snd] in Hk. destruct res as [[|]|]; cbn [fst snd]; try done.
    eapply Forall2_trans; [apply kept_or_refreshed_trans|exact Hk|].
    apply (IH (S i) (_, _)).
Qed.

(** X26. When the page of a date gives an address of the halting shape
    for a fixture of that date, and the connection of that date is made,
    the loop of [main] writes nothing for that date and nothing for the
    dates after it: the table is the one the loop over the dates before
    leaves. *)
Theorem main_loop_stops_at_halting_day (i : nat) (pre : list Z) (date_str : Z)
    (post : list Z)
    (st : list schedule_entry * list url_line) :
  let url := "https://fbref.com/en/matches/" +:+ date_str_of date_str in
  connect (i + length pre)%nat = Connects ->
  halting_day date_str
    (scrape_fixture_urls_for_date url date_str (web (i + length pre)%nat url)).1 st.1 ->
  (ScheduleUrl.main_loop date_str_of web connect fault i (pre ++ date_str :: post) st).1.2
  = (ScheduleUrl.main_loop date_str_of web connect fault i pre st).1.2.
Proof.
  intros url. revert i st. induction pre as [|d pre IH]; intros i st Hc Hh.
  - cbn [app length ScheduleUrl.main_loop fst snd]. rewrite Nat.add_0_r in Hc, Hh.
    fold url.
    pose proof (update_outcomes (fault i) date_str
                  (scrape_fixture_urls_for_date url date_str (web i url)).1
                  (connect i) st.1) as Hout.
    destruct (scrape_fixture_urls_for_date url date_str (web i url)) as [fixtures_dict out1].
    cbn [fst snd] in *. case_bool_decide as He.
    { destruct Hh as (e & u & _ & _ & Hu & _). rewrite He in Hu. by vm_compute in Hu. }
    destruct (update_schedule_for_date _ _ _ _ _) as [[res schedule'] out2].
    destruct res as [[|]|]; cbn [fst snd].
    + by destruct Hout as (_ & _ & ->).
    + by destruct Hout as [[? _]|(_ & ? & _)].
    + by destruct Hout as (_ & ->).
  - cbn [app length ScheduleUrl.main_loop].
    set (url' := "https://fbref.com/en/matches/" +:+ date_str_of d).
    pose proof (update_keeps (fault i) d url' (web i url') (connect i) st.1) as Hk.
    destruct (scrape_fixture_urls_for_date url' d (web i url')) as [fixtures_dict out1].
    cbn [fst snd] in Hk.
    cbn [length] in Hc, Hh.
    replace (i + S (length pre))%nat with (S i + length pre)%nat in Hc, Hh by lia.
    case_bool_decide as He; [by apply (IH (S i) (_, _))|].
    destruct (update_schedule_for_date _ _ _ _ _) as [[res schedule'] out2].
    cbn [fst snd] in Hk. destruct res as [[|]|]; try done.
    apply (IH (S i) (_, _)); [done|]. cbn [fst]. by eapply halting_day_kept.
Qed.

End Run.

Lemma main_loop_stops_at_halting_day_witness :
  let e := {| s_date := 7; s_home := "Chelsea"; s_away := "Fulham";
              s_comp := "Premier League"; s_match_report := None |} in
  let row := {| tr_class := []; home_team_cell := Some "Chelsea";
                away_team_cell := Some "Fulham";
                match_report_cell :=
                  Some (Some (Some "/en/stathead/AbCdEfGh/IjKlMnOp/x")) |} in
  let page := [ {| inner_table := Some (Some [row]) |} ] in
  let run := ScheduleUrl.main_loop (fun _ => "2024-03-09") (fun _ _ => Some page)
               (fun _ => Connects) (fun _ _ => false) 0 in
  (run ([6] ++ 7 :: [8]) ([e], [])).1.2 = (run [6] ([e], [])).1.2.
Proof.
  intros e row page run.
  apply (main_loop_stops_at_halting_day (fun _ => "2024-03-09") (fun _ _ => Some page)
           (fun _ => Connects) (fun _ _ => false) 0 [6] 7 [8] ([e], [])).
  - reflexivity.
  - exists e, "https://fbref.com/en/stathead/AbCdEfGh/IjKlMnOp/x".
    split; [apply list_elem_of_here|]. split; [reflexivity|].
    split; vm_compute; reflexivity.
Defined.

End UrlFacts.
